(** * L2 Agent: the capture-and-correlation engine, embedded and verified

    The repository ships two scripts.  The popup dashboard holds the
    merge of two error histories ([mergePageData]); the main-world script
    holds the error normaliser ([extractErrorInfo]), the rolling buffers
    ([localErrors]), the signal-based crash detector
    ([checkForErrorBasedCrash], [triggerCrashFromError]), the DOM-based crash
    detector ([detectDOMCrash], [checkForDOMCrash]) and the console, XHR and
    fetch interceptors.

    JavaScript values are embedded as a small universe (undefined, null,
    booleans, integral numbers, strings and references into a heap of
    objects); object literals are finite maps from property names to values;
    code that can throw lives in an error monad, handlers that also mutate the
    agent's variables live in a state-and-error monad. *)

From Stdlib Require Import ZArith List Lia Bool Ascii.
From stdpp Require Import base gmap strings list pretty sorting.
From Equations Require Import Equations.

Open Scope Z_scope.
Open Scope string_scope.
Open Scope list_scope.

(** ** Strings: the operations of [String.prototype] and [RegExp] in use *)

Module Str.

(** [s.slice(0, n)] *)
Definition slice0 (n : N) (s : string) : string := String.substring 0 (N.to_nat n) s.

(** [s.includes(needle)] *)
Fixpoint includes (needle s : string) : bool :=
  String.prefix needle s ||
  match s with
  | EmptyString => false
  | String _ s' => includes needle s'
  end.

(** [s.endsWith(suffix)]: some tail of [s] is [suffix]. *)
Fixpoint endsWith (suffix s : string) : bool :=
  String.eqb suffix s ||
  match s with
  | EmptyString => false
  | String _ s' => endsWith suffix s'
  end.

Fixpoint drop (n : nat) (s : string) : string :=
  match n, s with
  | O, _ => s
  | S n', String _ s' => drop n' s'
  | S _, EmptyString => EmptyString
  end.

(** Case folding of the [i] flag.  Without the [u] flag a character
    outside ASCII never folds onto an ASCII letter, so for patterns made
    of ASCII letters folding the subject's ASCII capitals is exact. *)
Definition foldCase (c : ascii) : ascii :=
  let n := nat_of_ascii c in
  if (65 <=? n)%nat && (n <=? 90)%nat then ascii_of_nat (n + 32) else c.

Fixpoint lower (s : string) : string :=
  match s with
  | EmptyString => EmptyString
  | String c s' => String (foldCase c) (lower s')
  end.

(** Line terminators, which [.] does not match. *)
Definition isLineTerminator (c : ascii) : bool :=
  let n := nat_of_ascii c in (n =? 10)%nat || (n =? 13)%nat.

Fixpoint untilLineEnd (s : string) : string :=
  match s with
  | EmptyString => EmptyString
  | String c s' => if isLineTerminator c then EmptyString else String c (untilLineEnd s')
  end.

(** [/a.*b/]: an occurrence of [a] followed by [b] before the line ends. *)
Fixpoint thenOnLine (a b s : string) : bool :=
  (String.prefix a s && includes b (untilLineEnd (drop (String.length a) s))) ||
  match s with
  | EmptyString => false
  | String _ s' => thenOnLine a b s'
  end.

(** White space removed by [trim()]. *)
Definition isSpace (c : ascii) : bool :=
  let n := nat_of_ascii c in
  ((9 <=? n)%nat && (n <=? 13)%nat) || (n =? 32)%nat || (n =? 160)%nat.

Fixpoint trimStart (s : string) : string :=
  match s with
  | EmptyString => EmptyString
  | String c s' => if isSpace c then trimStart s' else s
  end.

Definition trim (s : string) : string :=
  String.rev (trimStart (String.rev (trimStart s))).

End Str.

(** The three shapes of regular expression the agent uses, all with the
    [i] flag. *)
Inductive pattern :=
| Contains (lit : string)          (* /lit/i *)
| AtEnd (lit : string)             (* /lit$/i *)
| ThenOnLine (a b : string).       (* /a.*b/i *)

(** [pattern.test(s)]; the literals are written in lower case. *)
Definition test (p : pattern) (s : string) : bool :=
  match p with
  | Contains lit => Str.includes lit (Str.lower s)
  | AtEnd lit => Str.endsWith lit (Str.lower s)
  | ThenOnLine a b => Str.thenOnLine a b (Str.lower s)
  end.

(** A double-quoted attribute value of a selector. *)
Definition quoted (s : string) : string :=
  String (ascii_of_nat 34) s +:+ String (ascii_of_nat 34) EmptyString.

(** [a.slice(-n)] on an array: its last [n] elements. *)
Definition sliceLast {A : Type} (n : nat) (l : list A) : list A :=
  skipn (length l - n) l.

(** ** Values, objects and the heap *)

Definition loc := nat.

Inductive value :=
| VUndefined
| VNull
| VBool (b : bool)
| VNum (n : Z)
| VStr (s : string)
| VRef (l : loc).

#[global] Instance value_eq_dec : EqDecision value.
Proof. solve_decision. Defined.

(** What [JSON.stringify(o)] does on an object. *)
Inductive serialised :=
| JsonThrows
| JsonUndefined
| JsonText (s : string).

(** An object as the agent can observe it: the outcome of the three
    [instanceof] tests, the value each property read yields (own or
    inherited), the outcome of [String(o)] ([None] when the conversion throws,
    as for an object without [toString] and [valueOf]), and of
    [JSON.stringify(o)] and [JSON.stringify(o, null, 2)]. *)
Record object := {
  isError : bool;
  isErrorEvent : bool;
  isDOMException : bool;
  props : gmap string value;
  toStr : option string;
  json : serialised;
  jsonIndented : serialised
}.

(** The page's object graph.  References may form cycles. *)
Definition heap := loc -> object.

(** An object literal. *)
Definition obj (fields : list (string * value)) : gmap string value :=
  list_to_map fields.

(** [o.k] on an object: [undefined] when the property is absent. *)
Definition get (o : gmap string value) (k : string) : value :=
  default VUndefined (o !! k).

(** [{...o, k: v}] *)
Definition spread (o : gmap string value) (k : string) (v : value) : gmap string value :=
  <[k := v]> o.

Arguments obj : simpl never.
Arguments get : simpl never.
Arguments spread : simpl never.

(** ToBoolean *)
Definition truthy (v : value) : bool :=
  match v with
  | VUndefined | VNull => false
  | VBool b => b
  | VNum n => negb (Z.eqb n 0)
  | VStr s => negb (String.eqb s "")
  | VRef _ => true
  end.

(** [a || b] when [b] has no effect. *)
Definition or_ (a b : value) : value := if truthy a then a else b.
Infix "|||" := or_ (at level 50, left associativity).

(** [a === b] *)
Definition strictEq (a b : value) : bool := bool_decide (a = b).

Definition typeof (v : value) : string :=
  match v with
  | VUndefined => "undefined"
  | VNull | VRef _ => "object"
  | VBool _ => "boolean"
  | VNum _ => "number"
  | VStr _ => "string"
  end.

(** ** Exceptions *)

Inductive exn :=
| TypeError
| Raised (v : value).

Inductive outcome (A : Type) :=
| Ok (a : A)
| Throw (e : exn).
Arguments Ok {A} a.
Arguments Throw {A} e.

Definition bind {A B : Type} (m : outcome A) (k : A -> outcome B) : outcome B :=
  match m with
  | Ok a => k a
  | Throw e => Throw e
  end.

Notation "'let*' x ':=' m 'in' k" := (bind m (fun x => k))
  (at level 10, x name, m at level 100, k at level 200).

(** [try { m } catch { fallback }] *)
Definition catch {A : Type} (m : outcome A) (fallback : A) : A :=
  match m with
  | Ok a => a
  | Throw _ => fallback
  end.

Section Reads.

Variable h : heap.

(** [v?.k]: [undefined] on null and undefined; primitives carry none of
    the properties the agent reads. *)
Definition getOpt (v : value) (k : string) : value :=
  match v with
  | VRef l => get (props (h l)) k
  | _ => VUndefined
  end.

(** [v.k]: a TypeError on null and undefined. *)
Definition getProp (v : value) (k : string) : outcome value :=
  match v with
  | VUndefined | VNull => Throw TypeError
  | _ => Ok (getOpt v k)
  end.

(** [String(v)], also the conversion of a template literal. *)
Definition String_ (v : value) : outcome string :=
  match v with
  | VUndefined => Ok "undefined"
  | VNull => Ok "null"
  | VBool b => Ok (if b then "true" else "false")
  | VNum n => Ok (pretty n)
  | VStr s => Ok s
  | VRef l =>
      match toStr (h l) with
      | Some s => Ok s
      | None => Throw TypeError
      end
  end.

(** [v?.includes(needle)]: only strings have the method here. *)
Definition includesOpt (v : value) (needle : string) : outcome value :=
  match v with
  | VUndefined | VNull => Ok VUndefined
  | VStr s => Ok (VBool (Str.includes needle s))
  | _ => Throw TypeError
  end.

(** [v?.slice(0, n)] *)
Definition sliceOpt (v : value) (n : N) : outcome value :=
  match v with
  | VUndefined | VNull => Ok VUndefined
  | VStr s => Ok (VStr (Str.slice0 n s))
  | _ => Throw TypeError
  end.

(** ** The error normaliser *)

Definition maxDepthReached : gmap string value :=
  obj [("message", VStr "[Max depth reached]"); ("type", VStr "unknown")].

(** The body of [extractErrorInfo] below its depth guard; [self] is the
    recursive call at [depth + 1]. *)
Definition extractErrorInfo_body (self : value -> outcome (gmap string value))
    (arg : value) : outcome (gmap string value) :=
  match arg with
  | VNull => Ok (obj [("message", VStr "null"); ("type", VStr "null")])
  | VUndefined => Ok (obj [("message", VStr "undefined"); ("type", VStr "undefined")])
  | VRef l =>
      let o := h l in
      let p := get (props o) in
      if isError o then
        let* cause :=
          (if truthy (p "cause")
           then let* c := self (p "cause") in Ok (get c "message")
           else Ok VUndefined) in
        Ok (obj [("type", p "name" ||| VStr "Error");
                 ("message", p "message" ||| VStr "No message");
                 ("stack", p "stack" ||| VStr "");
                 ("cause", cause);
                 ("code", p "code");
                 ("fileName", p "fileName");
                 ("lineNumber", p "lineNumber");
                 ("columnNumber", p "columnNumber");
                 ("componentStack", p "componentStack")])
      else if isErrorEvent o then
        Ok (obj [("type", getOpt (p "error") "name" ||| VStr "ErrorEvent");
                 ("message", p "message" ||| getOpt (p "error") "message" ||| VStr "ErrorEvent");
                 ("stack", getOpt (p "error") "stack" ||| VStr "");
                 ("filename", p "filename");
                 ("lineno", p "lineno");
                 ("colno", p "colno")])
      else if isDOMException o then
        Ok (obj [("type", VStr "DOMException");
                 ("message", p "message");
                 ("name", p "name");
                 ("code", p "code")])
      else if truthy (p "componentStack") then
        let* message :=
          (if truthy (p "message") then Ok (p "message")
           else let* s := String_ arg in Ok (VStr s)) in
        Ok (obj [("type", VStr "ReactError");
                 ("message", message);
                 ("componentStack", p "componentStack");
                 ("stack", getOpt (p "error") "stack" ||| p "stack" ||| VStr "")])
      else if negb (strictEq (p "message") VUndefined) then
        let* s := String_ (p "message") in
        Ok (obj [("type", p "name" ||| p "type" ||| VStr "ObjectError");
                 ("message", VStr s);
                 ("stack", p "stack" ||| VStr "");
                 ("code", p "code")])
      else if truthy (p "error") then self (p "error")
      else if truthy (p "reason") then self (p "reason")
      else
        let fallback :=
          let* s := String_ arg in
          Ok (obj [("type", getOpt (p "constructor") "name" ||| VStr "Object");
                   ("message", VStr s)]) in
        match json o with
        | JsonText str =>
            if negb (String.eqb str "") && negb (String.eqb str "{}")
            then Ok (obj [("type", VStr "Object"); ("message", VStr (Str.slice0 2000%N str))])
            else fallback
        | JsonUndefined | JsonThrows => fallback
        end
  | _ =>
      let* s := String_ arg in
      Ok (obj [("type", VStr (typeof arg)); ("message", VStr s)])
  end.

(** [extractErrorInfo(arg, depth)].  The recursion is the source's own: a
    call is made at [depth + 1] only when the guard [depth > 3] has let
    the body run, so [4 - depth] decreases. *)
Equations? extractErrorInfo (arg : value) (depth : nat) : outcome (gmap string value)
  by wf (4 - depth)%nat lt :=
  extractErrorInfo arg depth with le_lt_dec depth 3 := {
    | right _ := Ok maxDepthReached
    | left _ := extractErrorInfo_body (fun v => extractErrorInfo v (depth + 1)) arg }.
Proof. lia. Qed.

End Reads.

(** The value on which [extractErrorInfo] calls itself when it normalises
    [arg], and the property it was read from. *)
Inductive link := ViaCause | ViaError | ViaReason.

Definition nested (h : heap) (arg : value) : option (link * value) :=
  match arg with
  | VRef l =>
      let o := h l in
      let p := get (props o) in
      if isError o then
        if truthy (p "cause") then Some (ViaCause, p "cause") else None
      else if isErrorEvent o || isDOMException o || truthy (p "componentStack")
              || negb (strictEq (p "message") VUndefined) then None
      else if truthy (p "error") then Some (ViaError, p "error")
      else if truthy (p "reason") then Some (ViaReason, p "reason")
      else None
  | _ => None
  end.

(** Following [n] links of the chain from [arg]; [wrappers] follows only
    the [error] and [reason] links of wrapper objects. *)
Fixpoint chain (h : heap) (n : nat) (arg : value) : option value :=
  match n with
  | O => Some arg
  | S n' =>
      match nested h arg with
      | Some (_, v) => chain h n' v
      | None => None
      end
  end.

Fixpoint wrappers (h : heap) (n : nat) (arg : value) : option value :=
  match n with
  | O => Some arg
  | S n' =>
      match nested h arg with
      | Some (ViaError, v) | Some (ViaReason, v) => wrappers h n' v
      | Some (ViaCause, _) | None => None
      end
  end.


(** The value the body of [extractErrorInfo] hands to [String()] outside any
    [try] when it normalises the object [arg]: [String(arg)] for an object
    with a component stack and no truthy message, [String(arg.message)] for
    an object whose message is not undefined, [String(arg)] in the last line
    of the object branch.  [None] where no such conversion is made: for an
    Error, an ErrorEvent, a DOMException, a wrapper, a serialised object and
    every value that is not an object. *)
Definition converted (h : heap) (arg : value) : option value :=
  match arg with
  | VRef l =>
      let o := h l in
      let p := get (props o) in
      if isError o || isErrorEvent o || isDOMException o then None
      else if truthy (p "componentStack") then
        if truthy (p "message") then None else Some arg
      else if negb (strictEq (p "message") VUndefined) then Some (p "message")
      else if truthy (p "error") || truthy (p "reason") then None
      else
        match json o with
        | JsonText str =>
            if negb (String.eqb str "") && negb (String.eqb str "{}") then None else Some arg
        | JsonUndefined | JsonThrows => Some arg
        end
  | _ => None
  end.

(** None of the [String()] conversions reached while [arg] is normalised
    throws: neither the one made for [arg] itself nor those made for the
    values nested under it, [n] links deep at most. *)
Fixpoint convertible (h : heap) (n : nat) (arg : value) : bool :=
  match converted h arg with
  | Some v => match String_ h v with Ok _ => true | Throw _ => false end
  | None => true
  end &&
  match n, nested h arg with
  | S n', Some (_, v) => convertible h n' v
  | _, _ => true
  end.


(** ** The popup: merging the page's history into the stored one *)

Module Popup.

(** The popup's [data], as far as [mergePageData] touches it.
    [pageErrors] may be missing ([None]) in what the background returned. *)
Record store := {
  crashes : list (gmap string value);
  apiErrors : list (gmap string value);
  consoleErrors : list (gmap string value);
  pageErrors : option (list (gmap string value))
}.

(** The page's answer [pageData]; any category may be missing. *)
Record snapshot := {
  snapCrashes : option (list (gmap string value));
  snapApiErrors : option (list (gmap string value));
  snapConsoleErrors : option (list (gmap string value));
  snapPageErrors : option (list (gmap string value))
}.

(** The duplicate tests of the four [find] calls: [e] is the stored
    element, [err] the incoming one. *)
Definition sameConsole (e err : gmap string value) : bool :=
  strictEq (get e "timestamp") (get err "timestamp") &&
  strictEq (get e "message") (get err "message").

Definition samePage (e err : gmap string value) : bool :=
  strictEq (get e "timestamp") (get err "timestamp").

Definition sameApi (e err : gmap string value) : bool :=
  strictEq (get e "timestamp") (get err "timestamp") &&
  strictEq (get e "url") (get err "url").

Definition sameCrash (e c : gmap string value) : bool :=
  strictEq (get e "timestamp") (get c "timestamp").

(** [incoming.forEach((err) => { if (!stored.find(same)) stored.push(err) })] *)
Definition appendNew (same : gmap string value -> gmap string value -> bool)
    (stored incoming : list (gmap string value)) : list (gmap string value) :=
  fold_left (fun acc err => if existsb (fun e => same e err) acc then acc else acc ++ [err])
            incoming stored.

(** The same loop over [data.pageErrors], which is created on the first
    push when it is missing. *)
Definition appendNewPage (stored : option (list (gmap string value)))
    (incoming : list (gmap string value)) : option (list (gmap string value)) :=
  fold_left (fun acc err =>
               if existsb (fun e => samePage e err) (default [] acc) then acc
               else Some (default [] acc ++ [err]))
            incoming stored.

(** [mergePageData(pageData)], as a function of [data]. *)
Definition mergePageData (data : store) (pageData : snapshot) : store :=
  let consoleErrors' :=
    match snapConsoleErrors pageData with
    | Some incoming => appendNew sameConsole (consoleErrors data) incoming
    | None => consoleErrors data
    end in
  let pageErrors' :=
    match snapPageErrors pageData with
    | Some incoming => appendNewPage (pageErrors data) incoming
    | None => pageErrors data
    end in
  let apiErrors' :=
    match snapApiErrors pageData with
    | Some incoming => appendNew sameApi (apiErrors data) incoming
    | None => apiErrors data
    end in
  let crashes' :=
    match snapCrashes pageData with
    | Some incoming => appendNew sameCrash (crashes data) incoming
    | None => crashes data
    end in
  {| crashes := crashes'; apiErrors := apiErrors';
     consoleErrors := consoleErrors'; pageErrors := pageErrors' |}.

End Popup.

(** ** The popup: statistics, list view and text utilities

    The characters of a string stand for its UTF-16 code units. *)

Module Dashboard.

Definition doubleQuote : ascii := ascii_of_nat 34.

(** [s.replace(/c/g, sub)] for a pattern of one character. *)
Fixpoint replaceAll (c : ascii) (sub s : string) : string :=
  match s with
  | EmptyString => EmptyString
  | String x rest =>
      (if Ascii.eqb x c then sub else String x EmptyString) +:+ replaceAll c sub rest
  end.

(** [escapeHtml(str)] *)
Definition escapeHtml (h : heap) (str : value) : outcome string :=
  if negb (truthy str) then Ok ""
  else
    let* s := String_ h str in
    Ok (replaceAll doubleQuote "&quot;"
          (replaceAll ">" "&gt;" (replaceAll "<" "&lt;" (replaceAll "&" "&amp;" s)))).

(** [truncate(str, len)].  A number or a boolean has no [length], and
    [undefined > len] is false, so it is returned as it is; so is an object
    without a [length] above [len]. *)
Definition truncate (str : value) (len : N) : value :=
  if negb (truthy str) then VStr ""
  else
    match str with
    | VStr s =>
        if (len <? N.of_nat (String.length s))%N then VStr (Str.slice0 len s +:+ "...")
        else str
    | _ => str
    end.

(** The popup's [data] whole: what [mergePageData] touches, and the two
    lists only the statistics and the list view read; a list the background
    did not send is [None]. *)
Record data := {
  stored : Popup.store;
  screenshots : option (list (gmap string value));
  apiRequests : option (list (gmap string value))
}.

(** What [updateStats] writes: the text of the four counters and the
    [has-errors] class of the three cards. *)
Record stats := {
  crashCount : nat;
  apiCount : nat;
  consoleCount : nat;
  screenshotCount : nat;
  crashCard : bool;
  apiCard : bool;
  consoleCard : bool
}.

(** [updateStats()]; nothing is written while [data] is null. *)
Definition updateStats (d : option data) (shown : stats) : stats :=
  match d with
  | None => shown
  | Some d =>
      let crashes := length (Popup.crashes (stored d)) in
      let api := length (Popup.apiErrors (stored d)) in
      let console_ :=
        (length (Popup.consoleErrors (stored d)) +
         length (default [] (Popup.pageErrors (stored d))))%nat in
      let screenshots := length (default [] (screenshots d)) in
      {| crashCount := crashes; apiCount := api; consoleCount := console_;
         screenshotCount := screenshots;
         crashCard := bool_decide (0 < crashes)%nat;
         apiCard := bool_decide (0 < api)%nat;
         consoleCard := bool_decide (0 < console_)%nat |}
  end.

(** [mergePageData(pageData)] on the whole of [data]. *)
Definition merged (d : data) (pageData : Popup.snapshot) : data :=
  {| stored := Popup.mergePageData (stored d) pageData;
     screenshots := screenshots d; apiRequests := apiRequests d |}.

(** The [switch] of [renderList]: the items of the current tab. *)
Definition itemsOf (currentTab : string) (d : data) : list (gmap string value) :=
  if String.eqb currentTab "crashes" then Popup.crashes (stored d)
  else if String.eqb currentTab "api" then Popup.apiErrors (stored d)
  else if String.eqb currentTab "console" then
    Popup.consoleErrors (stored d) ++ default [] (Popup.pageErrors (stored d))
  else if String.eqb currentTab "requests" then default [] (apiRequests d)
  else [].

(** On every tab but the console tab [items] is the array of [data]
    itself, so sorting it reorders [data]. *)
Definition withItems (currentTab : string) (items : list (gmap string value)) (d : data) : data :=
  if String.eqb currentTab "crashes" then
    {| stored := {| Popup.crashes := items;
                    Popup.apiErrors := Popup.apiErrors (stored d);
                    Popup.consoleErrors := Popup.consoleErrors (stored d);
                    Popup.pageErrors := Popup.pageErrors (stored d) |};
       screenshots := screenshots d; apiRequests := apiRequests d |}
  else if String.eqb currentTab "api" then
    {| stored := {| Popup.crashes := Popup.crashes (stored d);
                    Popup.apiErrors := items;
                    Popup.consoleErrors := Popup.consoleErrors (stored d);
                    Popup.pageErrors := Popup.pageErrors (stored d) |};
       screenshots := screenshots d; apiRequests := apiRequests d |}
  else if String.eqb currentTab "console" then d
  else if String.eqb currentTab "requests" then
    {| stored := stored d; screenshots := screenshots d; apiRequests := Some items |}
  else d.

Section Render.

(** [new Date(v).getTime()]: [None] for an invalid date. *)
Variable getTime : value -> option Z.

(** The comparator [(a, b) => new Date(b.timestamp) - new Date(a.timestamp)];
    [sort] reads a NaN as 0. *)
Definition compareFn (a b : gmap string value) : Z :=
  match getTime (get b "timestamp"), getTime (get a "timestamp") with
  | Some tb, Some ta => tb - ta
  | _, _ => 0
  end.

(** [items.sort(compareFn)].  The sort is stable, so where the comparator is
    consistent (all dates valid) its result is that of inserting from the
    right; with invalid dates the order is left to the engine, and this is one
    of the orders it may give. *)
Fixpoint insert (x : gmap string value) (l : list (gmap string value)) :
    list (gmap string value) :=
  match l with
  | [] => [x]
  | y :: rest => if (compareFn x y <=? 0)%Z then x :: l else y :: insert x rest
  end.

Definition sort (l : list (gmap string value)) : list (gmap string value) :=
  foldr insert [] l.

(** [renderList()]: what is shown ([None] is the empty state, otherwise the
    items handed to [renderItem], in order) and what has become of
    [data]. *)
Definition renderList (currentTab : string) (d : option data) :
    option (list (gmap string value)) * option data :=
  match d with
  | None => (None, None)
  | Some d =>
      match itemsOf currentTab d with
      | [] => (None, Some d)
      | items =>
          let sorted := sort items in
          (Some (take 30 sorted), Some (withItems currentTab sorted d))
      end
  end.

End Render.

End Dashboard.

(** ** The agent's state *)

(** [localErrors]: the four rolling buffers. *)
Record buffers := {
  page : list (gmap string value);
  console : list (gmap string value);
  api : list (gmap string value);
  apiRequests : list (gmap string value)
}.

(** An element of the critical-error window: [{...entry, capturedAt}]. *)
Record critical := {
  entryOf : gmap string value;
  capturedAt : Z
}.

(** The data of a [crash_detected] message (next to the constant fields
    [type: "crash"] and [detected: true]).  The fields that only one of the
    two detectors writes are optional. *)
Module Crash.
Record t := {
  detectionMethod : string;
  reason : string;
  primaryError : option (gmap string value);
  recentCriticalErrors : option (list critical);
  text : option string;
  html : option string;
  recentConsoleErrors : list (gmap string value);
  recentPageErrors : list (gmap string value);
  recentApiErrors : list (gmap string value);
  recentApiRequests : list (gmap string value);
  timestamp : string;
  url : string;
  sessionDuration : Z
}.
End Crash.

Inductive payload :=
| Entry (e : gmap string value)
| Crashed (c : Crash.t).

(** What [sendToContentScript] hands to [window.postMessage]; the source tag
    is the constant ["L2_AGENT_MAIN_WORLD"]. *)
Record message := {
  msgType : string;
  data : payload;
  sessionId : string;
  pageUrl : string
}.

(** A call of one of the console methods saved at injection. *)
Record call := {
  method : string;
  args : list value
}.

Record state := {
  localErrors : buffers;
  recentCriticalErrors : list critical;
  crashTriggered : bool;
  lastDOMCrashReason : option string;
  timers : list Z;          (* due times of the pending cooldown resets *)
  posted : list message;    (* messages posted so far, oldest first *)
  native : list call;       (* calls of the saved console methods, oldest first *)
  now : Z                   (* the clock [Date.now()] reads *)
}.

Definition set_localErrors (f : buffers -> buffers) (s : state) : state :=
  {| localErrors := f (localErrors s); recentCriticalErrors := recentCriticalErrors s;
     crashTriggered := crashTriggered s; lastDOMCrashReason := lastDOMCrashReason s;
     timers := timers s; posted := posted s; native := native s; now := now s |}.

Definition set_recentCriticalErrors (f : list critical -> list critical) (s : state) : state :=
  {| localErrors := localErrors s; recentCriticalErrors := f (recentCriticalErrors s);
     crashTriggered := crashTriggered s; lastDOMCrashReason := lastDOMCrashReason s;
     timers := timers s; posted := posted s; native := native s; now := now s |}.

Definition set_crashTriggered (b : bool) (s : state) : state :=
  {| localErrors := localErrors s; recentCriticalErrors := recentCriticalErrors s;
     crashTriggered := b; lastDOMCrashReason := lastDOMCrashReason s;
     timers := timers s; posted := posted s; native := native s; now := now s |}.

Definition set_lastDOMCrashReason (r : option string) (s : state) : state :=
  {| localErrors := localErrors s; recentCriticalErrors := recentCriticalErrors s;
     crashTriggered := crashTriggered s; lastDOMCrashReason := r;
     timers := timers s; posted := posted s; native := native s; now := now s |}.

Definition set_timers (f : list Z -> list Z) (s : state) : state :=
  {| localErrors := localErrors s; recentCriticalErrors := recentCriticalErrors s;
     crashTriggered := crashTriggered s; lastDOMCrashReason := lastDOMCrashReason s;
     timers := f (timers s); posted := posted s; native := native s; now := now s |}.

Definition set_posted (f : list message -> list message) (s : state) : state :=
  {| localErrors := localErrors s; recentCriticalErrors := recentCriticalErrors s;
     crashTriggered := crashTriggered s; lastDOMCrashReason := lastDOMCrashReason s;
     timers := timers s; posted := f (posted s); native := native s; now := now s |}.

Definition set_native (f : list call -> list call) (s : state) : state :=
  {| localErrors := localErrors s; recentCriticalErrors := recentCriticalErrors s;
     crashTriggered := crashTriggered s; lastDOMCrashReason := lastDOMCrashReason s;
     timers := timers s; posted := posted s; native := f (native s); now := now s |}.

Definition set_now (f : Z -> Z) (s : state) : state :=
  {| localErrors := localErrors s; recentCriticalErrors := recentCriticalErrors s;
     crashTriggered := crashTriggered s; lastDOMCrashReason := lastDOMCrashReason s;
     timers := timers s; posted := posted s; native := native s; now := f (now s) |}.

(** The state right after injection, at clock [t]. *)
Definition initial (t : Z) : state :=
  {| localErrors := {| page := []; console := []; api := []; apiRequests := [] |};
     recentCriticalErrors := []; crashTriggered := false; lastDOMCrashReason := None;
     timers := []; posted := []; native := []; now := t |}.

(** ** Handlers: state and exceptions *)

Definition M (A : Type) : Type := state -> outcome A * state.

Definition ret {A : Type} (a : A) : M A := fun s => (Ok a, s).

Definition bindM {A B : Type} (m : M A) (k : A -> M B) : M B :=
  fun s =>
    match m s with
    | (Ok a, s') => k a s'
    | (Throw e, s') => (Throw e, s')
    end.

Notation "'let!' x ':=' m 'in' k" := (bindM m (fun x => k))
  (at level 10, x name, m at level 100, k at level 200).
Notation "m '>>' k" := (bindM m (fun _ => k))
  (at level 100, k at level 200, right associativity).

(** A computation that only reads. *)
Definition lift {A : Type} (o : outcome A) : M A := fun s => (o, s).

Definition gets {A : Type} (f : state -> A) : M A := fun s => (Ok (f s), s).

Definition modify (f : state -> state) : M unit := fun s => (Ok tt, f s).

Definition throw {A : Type} (e : exn) : M A := fun s => (Throw e, s).

(** [try { m } catch (err) { handler err }] *)
Definition tryCatch {A : Type} (m : M A) (handler : exn -> M A) : M A :=
  fun s =>
    match m s with
    | (Ok a, s') => (Ok a, s')
    | (Throw e, s') => handler e s'
    end.

Inductive category := Page | Console | Api | ApiRequests.

Definition buffer (c : category) (b : buffers) : list (gmap string value) :=
  match c with
  | Page => page b
  | Console => console b
  | Api => api b
  | ApiRequests => apiRequests b
  end.

Definition with_buffer (c : category)
    (f : list (gmap string value) -> list (gmap string value)) (b : buffers) : buffers :=
  match c with
  | Page => {| page := f (page b); console := console b; api := api b; apiRequests := apiRequests b |}
  | Console => {| page := page b; console := f (console b); api := api b; apiRequests := apiRequests b |}
  | Api => {| page := page b; console := console b; api := f (api b); apiRequests := apiRequests b |}
  | ApiRequests => {| page := page b; console := console b; api := api b; apiRequests := f (apiRequests b) |}
  end.

(** The wrapper's record [req] of one XMLHttpRequest. *)
Record request := {
  reqMethod : value;
  reqUrl : string;
  start : Z;
  reqBody : value
}.

(** [{ method: "", url: "", start: 0, headers: {} }] *)
Definition newRequest : request :=
  {| reqMethod := VStr ""; reqUrl := ""; start := 0; reqBody := VUndefined |}.

(** What a listener reads from the XMLHttpRequest: [responseText] is [None]
    when the getter throws. *)
Record xhr := {
  status : Z;
  statusText : string;
  responseText : option string
}.

(** What the fetch wrapper has computed when it calls the saved [fetch]. *)
Record fetchCall := {
  fUrl : value;
  fMethod : value;
  fStart : Z;
  fRequestBody : value
}.

(** A [Response]: [bodyText] is the text of its clone, [None] when cloning
    or reading throws. *)
Record response := {
  rStatus : Z;
  rStatusText : string;
  bodyText : option string
}.

(** [response.ok], as the Fetch standard defines it. *)
Definition ok (r : response) : bool :=
  bool_decide (200 <= rStatus r) && bool_decide (rStatus r <= 299).

Inductive settled :=
| Resolved (r : response)
| Rejected (err : value).

(** An element as [detectDOMCrash] reads it; [innerText] and [outerHTML] are
    [None] when undefined. *)
Record element := {
  offsetParentIsNull : bool;
  innerText : option string;
  outerHTML : option string
}.

(** What [document.querySelector(sel)] does. *)
Inductive queried :=
| QueryThrows
| NoElement
| Element (el : element).

Definition document := string -> queried.

(** A positive answer of [detectDOMCrash]. *)
Record domCrash := {
  reason : string;
  text : string;
  html : string
}.

(** What the page provides around the agent. *)
Record host := {
  objects : heap;               (* the page's object graph *)
  href : string;                (* location.href *)
  toISOString : Z -> string;    (* new Date(t).toISOString() *)
  currentStack : string;        (* what getCurrentStack() returns *)
  SESSION_ID : string;
  START_TIME : Z;
  JSON_parse : string -> outcome value;
  typeErrorProps : gmap string value   (* name, message and stack of an engine-raised TypeError *)
}.

Fixpoint mapM {A B : Type} (f : A -> outcome B) (l : list A) : outcome (list B) :=
  match l with
  | [] => Ok []
  | a :: l' => let* b := f a in let* bs := mapM f l' in Ok (b :: bs)
  end.

Section Agent.

Variable H : host.

Let h := objects H.

Definition Date_now : M Z := gets now.

(** [new Date().toISOString()] *)
Definition isoNow : M string := gets (fun s => toISOString H (now s)).

(** [sendToContentScript(type, data)] *)
Definition sendToContentScript (type : string) (d : payload) : M unit :=
  modify (set_posted (fun l =>
    l ++ [{| msgType := type; data := d; sessionId := SESSION_ID H; pageUrl := href H |}])).

Definition _log (a : list value) : M unit :=
  modify (set_native (fun l => l ++ [{| method := "log"; args := a |}])).
Definition _error (a : list value) : M unit :=
  modify (set_native (fun l => l ++ [{| method := "error"; args := a |}])).
Definition _warn (a : list value) : M unit :=
  modify (set_native (fun l => l ++ [{| method := "warn"; args := a |}])).
Definition _assert (a : list value) : M unit :=
  modify (set_native (fun l => l ++ [{| method := "assert"; args := a |}])).

(** An element of [Array.prototype.join]: undefined and null give the
    empty string. *)
Definition joinItem (v : value) : outcome string :=
  match v with
  | VUndefined | VNull => Ok ""
  | _ => String_ h v
  end.

Fixpoint joinStrings (sep : string) (l : list string) : string :=
  match l with
  | [] => ""
  | [s] => s
  | s :: l' => s +:+ sep +:+ joinStrings sep l'
  end.

(** [formatArgs(args)] *)
Definition formatArgs (a : list value) : outcome string :=
  let* items := mapM (fun arg =>
      let* info := extractErrorInfo h arg 0 in
      if truthy (get info "stack") then
        let* t := String_ h (get info "type") in
        let* m := String_ h (get info "message") in
        let* k := String_ h (get info "stack") in
        Ok (VStr (t +:+ ": " +:+ m +:+ String "010" k))
      else Ok (get info "message")) a in
  let* strs := mapM joinItem items in
  Ok (joinStrings " " strs).

(** [getCurrentStack()] *)
Definition getCurrentStack : string := currentStack H.

(** ** Crash detection from errors *)

Definition CRASH_ERROR_PATTERNS : list pattern :=
  [ AtEnd "is not defined";
    AtEnd "is not a function";
    Contains "cannot read propert";
    Contains "cannot set propert";
    Contains "undefined is not";
    Contains "null is not";
    Contains "maximum call stack";
    Contains "out of memory";
    ThenOnLine "chunk" "failed";
    Contains "loading chunk";
    Contains "dynamically imported module";
    Contains "failed to fetch" ].

Definition CRASH_ERROR_TYPES : list string :=
  [ "ReferenceError"; "TypeError"; "ChunkLoadError"; "SyntaxError" ].

(** [isCriticalError(errorType, message)]; [pattern.test] converts its
    argument to a string. *)
Definition isCriticalError (errorType message : value) : outcome bool :=
  if existsb (fun t => strictEq (VStr t) errorType) CRASH_ERROR_TYPES then Ok true
  else
    let* s := String_ h message in
    Ok (existsb (fun p => test p s) CRASH_ERROR_PATTERNS).

(** [triggerCrashFromError(primaryError)] *)
Definition triggerCrashFromError (primaryError : gmap string value) : M unit :=
  modify (set_crashTriggered true) >>
  let! shown := lift (sliceOpt (get primaryError "message") 100%N) in
  _log [VStr "L2 CRASH DETECTED (from error):"; get primaryError "errorType"; shown] >>
  let! kind := lift (String_ h (get primaryError "errorType")) in
  let! head := lift (let* v := sliceOpt (get primaryError "message") 100%N in String_ h v) in
  let! s := gets id in
  let! stamp := isoNow in
  let! t := Date_now in
  sendToContentScript "crash_detected" (Crashed {|
    Crash.detectionMethod := "error_based";
    Crash.reason := "Error: " +:+ kind +:+ " - " +:+ head;
    Crash.primaryError := Some (obj [
      ("type", get primaryError "errorType");
      ("message", get primaryError "message");
      ("stack", get primaryError "stack");
      ("filename", get primaryError "filename");
      ("lineno", get primaryError "lineno");
      ("colno", get primaryError "colno");
      ("componentStack", get primaryError "componentStack")]);
    Crash.recentCriticalErrors := Some (sliceLast 10 (recentCriticalErrors s));
    Crash.text := None;
    Crash.html := None;
    Crash.recentConsoleErrors := sliceLast 30 (console (localErrors s));
    Crash.recentPageErrors := sliceLast 20 (page (localErrors s));
    Crash.recentApiErrors := sliceLast 30 (api (localErrors s));
    Crash.recentApiRequests := sliceLast 50 (apiRequests (localErrors s));
    Crash.timestamp := stamp;
    Crash.url := href H;
    Crash.sessionDuration := t - START_TIME H |}) >>
  (* setTimeout(..., 10000) *)
  modify (fun s => set_timers (fun l => l ++ [now s + 10000]) s).

(** The callback of that timer. *)
Definition cooldownReset : M unit :=
  modify (set_crashTriggered false) >>
  modify (set_recentCriticalErrors (fun _ => [])).

(** [checkForErrorBasedCrash(entry)] *)
Definition checkForErrorBasedCrash (entry : gmap string value) : M unit :=
  let! isCritical := lift (isCriticalError (get entry "errorType") (get entry "message")) in
  if isCritical : bool then
    let! t := Date_now in
    modify (set_recentCriticalErrors (fun l => l ++ [{| entryOf := entry; capturedAt := t |}])) >>
    let! t' := Date_now in
    let cutoff := t' - 60000 in
    modify (set_recentCriticalErrors (filter (fun e => cutoff < capturedAt e))) >>
    let! shouldTriggerCrash :=
      (if strictEq (get entry "errorType") (VStr "ReferenceError") then ret true
       else
         let! named := lift (includesOpt (get entry "message") "is not defined") in
         if truthy named then ret true
         else if truthy (get entry "componentStack") then ret true
         else gets (fun s => bool_decide (3 <= length (recentCriticalErrors s))%nat)) in
    let! latched := gets crashTriggered in
    if (shouldTriggerCrash : bool) && negb latched then triggerCrashFromError entry
    else ret tt
  else ret tt.

(** ** The rolling buffers *)

Definition push (c : category) (entry : gmap string value) : M unit :=
  modify (set_localErrors (with_buffer c (fun l => l ++ [entry]))).

(** [if (buffer.length > cap) buffer.shift()] *)
Definition shiftIfOver (c : category) (cap : nat) : M unit :=
  modify (set_localErrors (with_buffer c (fun l =>
    if bool_decide (cap < length l)%nat then tail l else l))).

(** ** Console interception *)

(** [errorInfos.find((e) => e.stack) || errorInfos[0] || {}] *)
Definition pickPrimary (errorInfos : list (gmap string value)) : gmap string value :=
  match find (fun e => truthy (get e "stack")) errorInfos with
  | Some e => e
  | None => match errorInfos with e :: _ => e | [] => ∅ end
  end.

(** [console.error = function (...args)] *)
Definition console_error (a : list value) : M unit :=
  let! errorInfos := lift (mapM (fun arg => extractErrorInfo h arg 0) a) in
  let primaryError := pickPrimary errorInfos in
  let! message := lift (formatArgs a) in
  let! stamp := isoNow in
  let entry := obj [
    ("type", VStr "console.error");
    ("errorType", get primaryError "type" ||| VStr "console.error");
    ("message", VStr message);
    ("stack", get primaryError "stack" ||| VStr getCurrentStack);
    ("componentStack", get primaryError "componentStack");
    ("timestamp", VStr stamp);
    ("url", VStr (href H))] in
  push Console entry >>
  shiftIfOver Console 100 >>
  sendToContentScript "console_error" (Entry entry) >>
  checkForErrorBasedCrash entry >>
  _log [VStr "L2 captured console.error:"; VStr (Str.slice0 150%N message)] >>
  _error a.

(** [console.warn = function (...args)] *)
Definition console_warn (a : list value) : M unit :=
  let! message := lift (formatArgs a) in
  let! stamp := isoNow in
  let entry := obj [
    ("type", VStr "console.warn");
    ("errorType", VStr "Warning");
    ("message", VStr message);
    ("stack", VStr getCurrentStack);
    ("timestamp", VStr stamp);
    ("url", VStr (href H))] in
  push Console entry >>
  shiftIfOver Console 100 >>
  sendToContentScript "console_warn" (Entry entry) >>
  _warn a.

(** [console.assert = function (condition, ...args)] *)
Definition console_assert (condition : value) (a : list value) : M unit :=
  (if negb (truthy condition) then
     let! message := lift (match a with [] => Ok "Assertion failed" | _ => formatArgs a end) in
     let! stamp := isoNow in
     let entry := obj [
       ("type", VStr "console.assert");
       ("errorType", VStr "AssertionError");
       ("message", VStr message);
       ("stack", VStr getCurrentStack);
       ("timestamp", VStr stamp);
       ("url", VStr (href H))] in
     push Console entry >>
     sendToContentScript "console_error" (Entry entry) >>
     _log [VStr "L2 captured assertion failure:"; VStr (Str.slice0 100%N message)]
   else ret tt) >>
  _assert (condition :: a).

(** ** Uncaught errors and unhandled rejections *)

(** The listener of the window's [error] event; [e] is the event object. *)
Definition onError (e : loc) : M unit :=
  let ev := get (props (h e)) in
  let! errorInfo :=
    (if truthy (ev "error") then lift (extractErrorInfo h (ev "error") 0)
     else if truthy (ev "message") then
       ret (obj [("type", VStr "Error");
                 ("message", ev "message");
                 ("filename", ev "filename");
                 ("lineno", ev "lineno");
                 ("colno", ev "colno")])
     else ret (obj [("type", VStr "Error"); ("message", VStr "Unknown error"); ("stack", VStr "")])) in
  let! stamp := isoNow in
  let entry := obj [
    ("type", VStr "uncaught_error");
    ("errorType", get errorInfo "type" ||| VStr "Error");
    ("message", get errorInfo "message" ||| ev "message" ||| VStr "Unknown error");
    ("filename", ev "filename" ||| get errorInfo "fileName" ||| VStr "");
    ("lineno", ev "lineno" ||| get errorInfo "lineNumber" ||| VNum 0);
    ("colno", ev "colno" ||| get errorInfo "columnNumber" ||| VNum 0);
    ("stack", get errorInfo "stack" ||| getOpt h (ev "error") "stack" ||| VStr "");
    ("componentStack", get errorInfo "componentStack");
    ("timestamp", VStr stamp);
    ("url", VStr (href H))] in
  push Page entry >>
  shiftIfOver Page 50 >>
  sendToContentScript "page_error" (Entry entry) >>
  checkForErrorBasedCrash entry >>
  _log [VStr "L2 captured uncaught error:";
        get entry "message"; get entry "filename"; get entry "lineno"].

(** [JSON.stringify(v, null, 2)?.slice(0, 2000)] where [typeof v] is
    ["object"]. *)
Definition stringifyIndented (v : value) : outcome value :=
  match v with
  | VRef l =>
      match jsonIndented (h l) with
      | JsonThrows => Throw TypeError
      | JsonUndefined => Ok VUndefined
      | JsonText t => Ok (VStr (Str.slice0 2000%N t))
      end
  | _ => Ok (VStr "null")
  end.

(** The listener of [unhandledrejection]. *)
Definition onUnhandledRejection (e : loc) : M unit :=
  let reason := get (props (h e)) "reason" in
  let! errorInfo := lift (extractErrorInfo h reason 0) in
  let! shown := lift (if String.eqb (typeof reason) "object" then stringifyIndented reason
                      else let* t := String_ h reason in Ok (VStr t)) in
  let! stamp := isoNow in
  let entry := obj [
    ("type", VStr "unhandled_rejection");
    ("errorType", get errorInfo "type" ||| VStr "PromiseRejection");
    ("message", get errorInfo "message" ||| VStr "Promise rejected");
    ("stack", get errorInfo "stack" ||| VStr "");
    ("componentStack", get errorInfo "componentStack");
    ("reason", shown);
    ("timestamp", VStr stamp);
    ("url", VStr (href H))] in
  push Page entry >>
  shiftIfOver Page 50 >>
  sendToContentScript "promise_rejection" (Entry entry) >>
  checkForErrorBasedCrash entry >>
  _log [VStr "L2 captured promise rejection:"; get entry "message"].

(** ** XHR interception *)

(** [xhr.open(method, url)]: the wrapper's bookkeeping. *)
Definition xhr_open (req : request) (method url : value) : outcome request :=
  let* u := String_ h url in
  Ok {| reqMethod := method; reqUrl := u; start := start req; reqBody := reqBody req |}.

(** [xhr.send(body)]: the wrapper's bookkeeping. *)
Definition xhr_send (req : request) (body : value) : M request :=
  let! t := Date_now in
  let! b := lift (if truthy body
                  then let* t := String_ h body in Ok (VStr (Str.slice0 2000%N t))
                  else Ok VNull) in
  ret {| reqMethod := reqMethod req; reqUrl := reqUrl req; start := t; reqBody := b |}.

(** [if (responseBody) errorDetails = JSON.parse(responseBody)], inside
    [try] with [null] as the default. *)
Definition parseDetails (responseBody : string) : value :=
  if truthy (VStr responseBody) then catch (JSON_parse H responseBody) VNull else VNull.

(** The [loadend] listener. *)
Definition onLoadend (req : request) (x : xhr) : M unit :=
  let responseBody :=
    match responseText x with
    | Some t => Str.slice0 5000%N t
    | None => ""
    end in
  let! t := Date_now in
  let! stamp := isoNow in
  let entry := obj [
    ("type", VStr "xhr");
    ("method", reqMethod req);
    ("url", VStr (reqUrl req));
    ("status", VNum (status x));
    ("statusText", VStr (statusText x));
    ("duration", VNum (t - start req));
    ("requestBody", reqBody req);
    ("responseBody", VStr responseBody);
    ("isError", VBool (bool_decide (status x = 0) || bool_decide (400 <= status x)));
    ("timestamp", VStr stamp)] in
  push ApiRequests entry >>
  shiftIfOver ApiRequests 200 >>
  sendToContentScript "api_request" (Entry entry) >>
  (if truthy (get entry "isError") then
     let errorEntry := spread entry "errorDetails" (parseDetails responseBody) in
     push Api errorEntry >>
     shiftIfOver Api 100 >>
     sendToContentScript "api_error" (Entry errorEntry)
   else ret tt) >>
  let! m := lift (String_ h (reqMethod req)) in
  _log [VStr ("L2 XHR: " +:+ m +:+ " " +:+ pretty (status x) +:+ " " +:+ Str.slice0 60%N (reqUrl req))].

(** The [error] and [timeout] listeners. *)
Definition onXhrFailure (type error : string) (req : request) : M unit :=
  let! t := Date_now in
  let! stamp := isoNow in
  let entry := obj [
    ("type", VStr type);
    ("method", reqMethod req);
    ("url", VStr (reqUrl req));
    ("status", VNum 0);
    ("error", VStr error);
    ("duration", VNum (t - start req));
    ("isError", VBool true);
    ("timestamp", VStr stamp)] in
  push Api entry >>
  sendToContentScript "api_error" (Entry entry).

Definition onXhrError : request -> M unit := onXhrFailure "xhr_network_error" "Network error".
Definition onXhrTimeout : request -> M unit := onXhrFailure "xhr_timeout" "Request timeout".

(** ** Fetch interception *)


(** [`... ${method} ${url.slice(0, 60)}`]: only a string has [slice]. *)
Definition shownUrl (url : value) : outcome string :=
  match url with
  | VStr u => Ok (Str.slice0 60%N u)
  | _ => Throw TypeError
  end.

(** [err.k] on what was caught. *)
Definition errProp (err : exn) (k : string) : outcome value :=
  match err with
  | Raised v => getProp h v k
  | TypeError => Ok (get (typeErrorProps H) k)
  end.

(** The [catch (err)] block of the wrapper. *)
Definition fetch_failed (c : fetchCall) (err : exn) : M response :=
  let! message := lift (errProp err "message") in
  let! name := lift (errProp err "name") in
  let! stack := lift (errProp err "stack") in
  let! t := Date_now in
  let! stamp := isoNow in
  let entry := obj [
    ("type", VStr "fetch_error");
    ("method", fMethod c);
    ("url", fUrl c);
    ("status", VNum 0);
    ("error", message);
    ("errorType", name);
    ("errorStack", stack);
    ("duration", VNum (t - fStart c));
    ("isError", VBool true);
    ("timestamp", VStr stamp)] in
  push Api entry >>
  sendToContentScript "api_error" (Entry entry) >>
  let! m := lift (String_ h (fMethod c)) in
  let! u := lift (shownUrl (fUrl c)) in
  let! e := lift (String_ h message) in
  _log [VStr ("L2 Fetch Error: " +:+ m +:+ " " +:+ u +:+ " - " +:+ e)] >>
  throw err.

(** The wrapper after the saved [fetch] has settled: [tResponse] is the
    clock when the response arrived ([duration]), the state's clock is
    that at which the body of the clone has been read. *)
Definition fetch_settled (c : fetchCall) (tResponse : Z) (r : settled) : M response :=
  match r with
  | Rejected err => fetch_failed c (Raised err)
  | Resolved response =>
      tryCatch (
        let duration := tResponse - fStart c in
        let responseBody :=
          match bodyText response with
          | Some t => Str.slice0 5000%N t
          | None => ""
          end in
        let! stamp := isoNow in
        let entry := obj [
          ("type", VStr "fetch");
          ("method", fMethod c);
          ("url", fUrl c);
          ("status", VNum (rStatus response));
          ("statusText", VStr (rStatusText response));
          ("duration", VNum duration);
          ("requestBody", fRequestBody c);
          ("responseBody", VStr responseBody);
          ("isError", VBool (negb (ok response)));
          ("timestamp", VStr stamp)] in
        push ApiRequests entry >>
        shiftIfOver ApiRequests 200 >>
        sendToContentScript "api_request" (Entry entry) >>
        (if negb (ok response) then
           let errorEntry := spread entry "errorDetails" (parseDetails responseBody) in
           push Api errorEntry >>
           shiftIfOver Api 100 >>
           sendToContentScript "api_error" (Entry errorEntry)
         else ret tt) >>
        let! m := lift (String_ h (fMethod c)) in
        let! u := lift (shownUrl (fUrl c)) in
        _log [VStr ("L2 Fetch: " +:+ m +:+ " " +:+ pretty (rStatus response) +:+ " " +:+ u)] >>
        ret response)
      (fetch_failed c)
  end.

(** ** Crash detection from the DOM *)

Definition CRASH_SELECTORS : list string :=
  [ "[class*=" +:+ quoted "error-page" +:+ "]";
    "[class*=" +:+ quoted "error-screen" +:+ "]";
    "[class*=" +:+ quoted "crash" +:+ "]";
    "[class*=" +:+ quoted "something-went-wrong" +:+ "]";
    "[data-testid*=" +:+ quoted "error" +:+ "]";
    ".error-boundary";
    "[class*=" +:+ quoted "fatal-error" +:+ "]";
    "[class*=" +:+ quoted "app-error" +:+ "]";
    "[class*=" +:+ quoted "server-error" +:+ "]";
    "[class*=" +:+ quoted "ErrorBoundary" +:+ "]";
    "[role=" +:+ quoted "alert" +:+ "][class*=" +:+ quoted "error" +:+ "]" ].

(** The loop of [detectDOMCrash] over the selectors still to try. *)
Fixpoint scan (doc : document) (selectors : list string) : option domCrash :=
  match selectors with
  | [] => None
  | sel :: rest =>
      match doc sel with
      | Element el =>
          if negb (offsetParentIsNull el) then
            let text := Str.trim (default "" (innerText el)) in
            if bool_decide (String.length text < 5)%nat then scan doc rest
            else Some {| reason := "Element: " +:+ sel;
                         text := Str.slice0 500%N text;
                         html := match outerHTML el with
                                 | Some m => Str.slice0 1000%N m
                                 | None => ""
                                 end |}
          else scan doc rest
      | NoElement | QueryThrows => scan doc rest
      end
  end.

(** [detectDOMCrash()]; [None] stands for [{ detected: false }]. *)
Definition detectDOMCrash (doc : document) : option domCrash :=
  scan doc CRASH_SELECTORS.

(** [checkForDOMCrash()] *)
Definition checkForDOMCrash (doc : document) : M unit :=
  match detectDOMCrash doc with
  | Some crash =>
      let! last := gets lastDOMCrashReason in
      if negb (bool_decide (Some (reason crash) = last)) then
        modify (set_lastDOMCrashReason (Some (reason crash))) >>
        let! latched := gets crashTriggered in
        if negb latched then
          _log [VStr "L2 CRASH DETECTED (from DOM):"; VStr (reason crash)] >>
          let! s := gets id in
          let! stamp := isoNow in
          let! t := Date_now in
          sendToContentScript "crash_detected" (Crashed {|
            Crash.detectionMethod := "dom_based";
            Crash.reason := reason crash;
            Crash.primaryError := None;
            Crash.recentCriticalErrors := None;
            Crash.text := Some (text crash);
            Crash.html := Some (html crash);
            Crash.recentConsoleErrors := sliceLast 30 (console (localErrors s));
            Crash.recentPageErrors := sliceLast 20 (page (localErrors s));
            Crash.recentApiErrors := sliceLast 30 (api (localErrors s));
            Crash.recentApiRequests := sliceLast 50 (apiRequests (localErrors s));
            Crash.timestamp := stamp;
            Crash.url := href H;
            Crash.sessionDuration := t - START_TIME H |})
        else ret tt
      else ret tt
  | None => ret tt
  end.

(** ** The event loop *)

(** What can happen to the agent: a call of an overridden console method,
    a listener firing, a request settling, a scheduled DOM check, an entry
    reaching the signal detector, the clock advancing, and the event loop
    running a due cooldown timer. *)
Inductive event :=
| ConsoleError (a : list value)
| ConsoleWarn (a : list value)
| ConsoleAssert (condition : value) (a : list value)
| ErrorEvent (e : loc)
| UnhandledRejection (e : loc)
| Loadend (req : request) (x : xhr)
| XhrError (req : request)
| XhrTimeout (req : request)
| FetchSettled (c : fetchCall) (tResponse : Z) (r : settled)
| DomCheck (doc : document)
| Feed (entry : gmap string value)
| Elapse (ms : N)
| TimerFires.

(** The event loop running a timer: the oldest cooldown reset, once due. *)
Definition runTimer : M unit :=
  let! pending := gets timers in
  let! t := Date_now in
  match pending with
  | due :: rest =>
      if bool_decide (due <= t) then modify (set_timers (fun _ => rest)) >> cooldownReset
      else ret tt
  | [] => ret tt
  end.

Definition discard {A : Type} (m : M A) : M unit := bindM m (fun _ => ret tt).

Definition handle (ev : event) : M unit :=
  match ev with
  | ConsoleError a => console_error a
  | ConsoleWarn a => console_warn a
  | ConsoleAssert c a => console_assert c a
  | ErrorEvent e => onError e
  | UnhandledRejection e => onUnhandledRejection e
  | Loadend req x => onLoadend req x
  | XhrError req => onXhrError req
  | XhrTimeout req => onXhrTimeout req
  | FetchSettled c t r => discard (fetch_settled c t r)
  | DomCheck doc => checkForDOMCrash doc
  | Feed entry => checkForErrorBasedCrash entry
  | Elapse ms => modify (set_now (fun t => t + Z.of_N ms))
  | TimerFires => runTimer
  end.

(** One turn of the event loop; an exception ends the handler and leaves
    the state as the handler had it. *)
Definition step (s : state) (ev : event) : state := snd (handle ev s).

Definition run (s : state) (trace : list event) : state := fold_left step trace s.

End Agent.

(** ** Vocabulary of the statements *)

(** A string coercion of an object never throws in [h]. *)
Definition coercible (h : heap) : Prop := forall l, toStr (h l) <> None.


(** Every element the merge has appended to [stored] had no element with
    its key before it. *)
Definition appendedFresh (same : gmap string value -> gmap string value -> bool)
    (stored result : list (gmap string value)) : Prop :=
  forall before x after, result = before ++ x :: after ->
    (length stored <= length before)%nat -> existsb (fun e => same e x) before = false.

(** A [crash_detected] message carrying [c]. *)
Definition crashMessage (H : host) (c : Crash.t) : message :=
  {| msgType := "crash_detected"; data := Crashed c;
     sessionId := SESSION_ID H; pageUrl := href H |}.

(** The crash events among posted messages, by detector. *)
Definition crashesBy (detector : string) (l : list message) : list Crash.t :=
  omap (fun m => match data m with
                 | Crashed c => if String.eqb (Crash.detectionMethod c) detector then Some c else None
                 | Entry _ => None
                 end) l.

(** The entries of the data model: [errorType] and [message] are strings. *)
Definition hasStrings (entry : gmap string value) : bool :=
  match get entry "errorType", get entry "message" with
  | VStr _, VStr _ => true
  | _, _ => false
  end.

(** The entry is classified as critical. *)
Definition classified (H : host) (entry : gmap string value) : bool :=
  match isCriticalError H (get entry "errorType") (get entry "message") with
  | Ok b => b
  | Throw _ => false
  end.

(** The window after [entry] has been appended and the old elements
    dropped. *)
Definition windowed (entry : gmap string value) (s : state) : state :=
  set_recentCriticalErrors (filter (fun c => now s - 60000 < capturedAt c))
    (set_recentCriticalErrors (fun l => l ++ [{| entryOf := entry; capturedAt := now s |}]) s).

(** [shouldTriggerCrash] for an entry with a string message, in the state
    with the window updated. *)
Definition shouldTrigger (entry : gmap string value) (s : state) : bool :=
  strictEq (get entry "errorType") (VStr "ReferenceError")
  || match get entry "message" with VStr m => Str.includes "is not defined" m | _ => false end
  || truthy (get entry "componentStack")
  || bool_decide (3 <= length (recentCriticalErrors s))%nat.

(** The events of a burst at the signal detector: critical entries of the
    data model arriving, the clock advancing, the event loop looking at its
    timers. *)
Definition arrival (H : host) (ev : event) : bool :=
  match ev with
  | Feed entry => hasStrings entry && classified H entry
  | Elapse _ | TimerFires => true
  | _ => false
  end.

Definition isFeed (ev : event) : bool :=
  match ev with Feed _ => true | _ => false end.

(** The milliseconds that pass during a trace. *)
Fixpoint elapsed (trace : list event) : Z :=
  match trace with
  | [] => 0
  | Elapse ms :: rest => Z.of_N ms + elapsed rest
  | _ :: rest => elapsed rest
  end.

(** The elements of the window captured at [since] or later. *)
Definition recentSince (since : Z) (s : state) : list critical :=
  filter (fun c => since <= capturedAt c) (recentCriticalErrors s).

(** The number of entries fed to the signal detector during a trace. *)
Definition feeds (trace : list event) : nat := length (filter (fun ev => isFeed ev = true) trace).

(** The reason of the last [dom_based] crash event posted. *)
Definition lastReportedReason (l : list message) : option string :=
  Crash.reason <$> last (crashesBy "dom_based" l).

(** The bounds of a crash event's lists. *)
Definition bounded (c : Crash.t) : Prop :=
  (length (default [] (Crash.recentCriticalErrors c)) <= 10)%nat /\
  (length (Crash.recentConsoleErrors c) <= 30)%nat /\
  (length (Crash.recentPageErrors c) <= 20)%nat /\
  (length (Crash.recentApiErrors c) <= 30)%nat /\
  (length (Crash.recentApiRequests c) <= 50)%nat.

(** The lists of a crash event are the tails of the agent's lists in [s]. *)
Definition snapshotOf (s : state) (c : Crash.t) : Prop :=
  (Crash.recentCriticalErrors c = None \/
   Crash.recentCriticalErrors c = Some (sliceLast 10 (recentCriticalErrors s))) /\
  Crash.recentConsoleErrors c = sliceLast 30 (console (localErrors s)) /\
  Crash.recentPageErrors c = sliceLast 20 (page (localErrors s)) /\
  Crash.recentApiErrors c = sliceLast 30 (api (localErrors s)) /\
  Crash.recentApiRequests c = sliceLast 50 (apiRequests (localErrors s)).

(** A handler keeps an invariant of the state, whether it returns or
    throws. *)
Definition preserves {A : Type} (I : state -> Prop) (m : M A) : Prop :=
  forall s, I s -> I (snd (m s)).

(** Every crash event posted so far is within the bounds. *)
Definition crashesBounded (s : state) : Prop :=
  Forall (fun m => match data m with
                   | Crashed c => bounded c
                   | Entry _ => True
                   end) (posted s).

(** The element a selector finds counts as a crash screen: it is visible
    and its text, trimmed, has five characters or more. *)
Definition qualifies (q : queried) : bool :=
  match q with
  | Element el =>
      negb (offsetParentIsNull el) &&
      negb (bool_decide (String.length (Str.trim (default "" (innerText el))) < 5)%nat)
  | NoElement | QueryThrows => false
  end.

(** The crash events among the posted messages, of either detector. *)
Definition crashEvents (l : list message) : list Crash.t :=
  omap (fun m => match data m with
                 | Crashed c => Some c
                 | Entry _ => None
                 end) l.

(** What the two crash detectors keep between events, and what they have
    reported. *)
Definition detectors (s : state) : list critical * bool * list Z * option string * list Crash.t :=
  (recentCriticalErrors s, crashTriggered s, timers s, lastDOMCrashReason s,
   crashEvents (posted s)).

(** The capture paths that record without consulting a crash detector. *)
Definition recordsOnly (ev : event) : bool :=
  match ev with
  | ConsoleWarn _ | ConsoleAssert _ _ | Loadend _ _ | XhrError _ | XhrTimeout _
  | FetchSettled _ _ _ => true
  | _ => false
  end.

(** At most one cooldown reset is pending, and only while the latch is
    set. *)
Definition oneTimer (s : state) : Prop :=
  timers s = [] \/ (crashTriggered s = true /\ exists due, timers s = [due]).

(** The latch is set, no reset is pending, and the crash events posted so
    far are [reported]. *)
Definition stuck (reported : list Crash.t) (s : state) : Prop :=
  crashTriggered s = true /\ timers s = [] /\ crashEvents (posted s) = reported.

(** An entry of the data model that does not trigger on its own: not a
    ReferenceError, no "is not defined" in its message, no component
    stack. *)
Definition quiet (entry : gmap string value) : bool :=
  hasStrings entry &&
  negb (strictEq (get entry "errorType") (VStr "ReferenceError")) &&
  negb (match get entry "message" with
        | VStr m => Str.includes "is not defined" m
        | _ => false
        end) &&
  negb (truthy (get entry "componentStack")).

(** Entries reaching the signal detector one by one, each after a pause. *)
Definition drip (arrivals : list (N * gmap string value)) : list event :=
  flat_map (fun p => [Elapse (fst p); Feed (snd p)]) arrivals.

(** The window holds nothing from the future and at most one entry of the
    last thirty seconds. *)
Definition sparse (s : state) : Prop :=
  Forall (fun c => capturedAt c <= now s) (recentCriticalErrors s) /\
  (length (filter (fun c => (now s - 30000 < capturedAt c)%Z) (recentCriticalErrors s)) <= 1)%nat.

(** The capacities of the two buffers every path trims, and of all four. *)
Definition trimmedWithin (s : state) : Prop :=
  (length (page (localErrors s)) <= 50)%nat /\
  (length (apiRequests (localErrors s)) <= 200)%nat.

Definition allWithin (s : state) : Prop :=
  (length (page (localErrors s)) <= 50)%nat /\
  (length (console (localErrors s)) <= 100)%nat /\
  (length (api (localErrors s)) <= 100)%nat /\
  (length (apiRequests (localErrors s)) <= 200)%nat.

(** The events whose handler trims every buffer it appends to: all but a
    failed assertion, the XHR [error] and [timeout] events and a fetch that
    ends in the wrapper's [catch] block. *)
Definition trims (ev : event) : bool :=
  match ev with
  | ConsoleAssert condition _ => truthy condition
  | XhrError _ | XhrTimeout _ => false
  | FetchSettled c _ (Resolved _) =>
      match fMethod c, fUrl c with
      | VStr _, VStr _ => true
      | _, _ => false
      end
  | FetchSettled _ _ (Rejected _) => false
  | _ => true
  end.

(** What [console.warn] records for the arguments [a] at clock [t]; nothing
    when formatting them throws. *)
Definition warned (H : host) (t : Z) (a : list value) : option (gmap string value) :=
  match formatArgs H a with
  | Ok message =>
      Some (obj [("type", VStr "console.warn");
                 ("errorType", VStr "Warning");
                 ("message", VStr message);
                 ("stack", VStr (getCurrentStack H));
                 ("timestamp", VStr (toISOString H t));
                 ("url", VStr (href H))])
  | Throw _ => None
  end.

(** The shape of what the network interceptors record. *)
Definition recordedError (e : gmap string value) : Prop :=
  get e "isError" = VBool true.

Definition recordedRequest (e : gmap string value) : Prop :=
  (exists n, get e "status" = VNum n) /\
  (exists b, get e "isError" = VBool b) /\
  (exists body, get e "responseBody" = VStr body /\ (String.length body <= 5000)%nat).

Definition networkShaped (s : state) : Prop :=
  Forall recordedError (api (localErrors s)) /\
  Forall recordedRequest (apiRequests (localErrors s)).

(** The shape of what the console interceptors and the two window listeners
    record. *)
Definition recordedConsole (e : gmap string value) : Prop :=
  truthy (get e "errorType") = true /\ exists m, get e "message" = VStr m.

Definition recordedPage (e : gmap string value) : Prop :=
  truthy (get e "errorType") = true /\ truthy (get e "message") = true.

Definition errorsShaped (s : state) : Prop :=
  Forall recordedConsole (console (localErrors s)) /\
  Forall recordedPage (page (localErrors s)).

(** A value that is not an object. *)
Definition primitive (v : value) : bool :=
  match v with
  | VRef _ => false
  | _ => true
  end.

(** The character [c] occurs in [s]. *)
Definition occurs (c : ascii) (s : string) : bool :=
  Str.includes (String c EmptyString) s.

(** The four replacements of [escapeHtml], in the order of the source. *)
Definition escaped (s : string) : string :=
  Dashboard.replaceAll Dashboard.doubleQuote "&quot;"
    (Dashboard.replaceAll ">" "&gt;"
       (Dashboard.replaceAll "<" "&lt;" (Dashboard.replaceAll "&" "&amp;" s))).



(** ** Scenarios *)

(** A plain object with the given properties, as [String] and
    [JSON.stringify] see an object literal without own enumerable data. *)
Definition plain (fields : list (string * value)) : object :=
  {| isError := false; isErrorEvent := false; isDOMException := false;
     props := obj fields; toStr := Some "[object Object]";
     json := JsonText "{}"; jsonIndented := JsonText "{}" |}.

(** An instance of [Error]. *)
Definition errorObject (fields : list (string * value)) : object :=
  {| isError := true; isErrorEvent := false; isDOMException := false;
     props := obj fields; toStr := Some "Error";
     json := JsonText "{}"; jsonIndented := JsonText "{}" |}.

(** [Object.create(null)]: no properties, no [toString]. *)
Definition bareObject : object :=
  {| isError := false; isErrorEvent := false; isDOMException := false;
     props := ∅; toStr := None; json := JsonText "{}"; jsonIndented := JsonText "{}" |}.

(** [o = {}; o.error = o]: a wrapper that wraps itself. *)
Definition wrapperCycle : heap := fun _ => plain [("error", VRef 0%nat)].

(** [e = new Error("boom"); e.cause = e]: an error that is its own cause. *)
Definition causeCycle : heap :=
  fun _ => errorObject [("name", VStr "Error"); ("message", VStr "boom"); ("cause", VRef 0%nat)].

(** A page whose only object is [Object.create(null)]. *)
Definition bareHeap : heap := fun _ => bareObject.


Definition pageWith (h : heap) : host :=
  {| objects := h; href := "https://app.example/orders";
     toISOString := fun t => pretty t; currentStack := "";
     SESSION_ID := "lx1-4f2a9c"; START_TIME := 0;
     JSON_parse := fun _ => Throw TypeError;
     typeErrorProps := obj [("name", VStr "TypeError")] |}.

(** The entry of the concrete scenario, and a critical entry that does not
    trigger on its own. *)
Definition referenceError : gmap string value :=
  obj [("type", VStr "uncaught_error");
       ("errorType", VStr "ReferenceError");
       ("message", VStr "x is not defined");
       ("timestamp", VStr "2024-05-01T10:00:00.000Z")].

Definition typeError : gmap string value :=
  obj [("type", VStr "console.error");
       ("errorType", VStr "TypeError");
       ("message", VStr "Cannot read properties of undefined (reading 'map')");
       ("timestamp", VStr "2024-05-01T10:00:00.000Z")].

(** What the error listener hands to the signal detector for
    [e = new TypeError("x"); e.message = 42; throw e], and five of them
    within 800 ms. *)
Definition numericTypeError : gmap string value :=
  obj [("type", VStr "uncaught_error");
       ("errorType", VStr "TypeError");
       ("message", VNum 42);
       ("timestamp", VStr "2024-05-01T10:00:00.000Z")].

Definition numericBurst : list event :=
  [Feed numericTypeError; Elapse 200; Feed numericTypeError; Elapse 200; Feed numericTypeError;
   Elapse 200; Feed numericTypeError; Elapse 200; Feed numericTypeError].

(** Five critical entries within 800 ms, then nine more, one per second. *)
Definition burstOfFive : list event :=
  [Feed typeError; Elapse 200; Feed typeError; Elapse 200; Feed typeError;
   Elapse 200; Feed typeError; Elapse 200; Feed typeError].

Definition nineMore : list event :=
  concat (repeat [Elapse 1000; Feed typeError] 9).

(** A page that shows an error boundary, and one that shows a crash
    screen instead. *)
Definition errorBoundaryShown : document :=
  fun sel =>
    if String.eqb sel ".error-boundary"
    then Element {| offsetParentIsNull := false;
                    innerText := Some "Something went wrong";
                    outerHTML := Some "<div class=error-boundary>Something went wrong</div>" |}
    else NoElement.

Definition crashScreenShown : document :=
  fun sel =>
    if String.eqb sel ("[class*=" +:+ quoted "crash" +:+ "]")
    then Element {| offsetParentIsNull := false;
                    innerText := Some "The application crashed";
                    outerHTML := Some "<main class=crash>The application crashed</main>" |}
    else NoElement.

(** An error latches the signal detector, the DOM is checked while the
    latch is set, and the cooldown runs out. *)
Definition latchedWhileChecked : list event :=
  [Feed referenceError; DomCheck errorBoundaryShown; Elapse 10000; TimerFires].

(** [GET /api/orders] through XMLHttpRequest and through fetch, and the
    answers 503 and 304. *)
Definition getOrders : request :=
  {| reqMethod := VStr "GET"; reqUrl := "/api/orders"; start := 0; reqBody := VNull |}.

Definition fetchOrders : fetchCall :=
  {| fUrl := VStr "/api/orders"; fMethod := VStr "GET"; fStart := 0; fRequestBody := VNull |}.

Definition unavailable : xhr :=
  {| status := 503; statusText := "Service Unavailable"; responseText := Some "" |}.

Definition notModified : xhr :=
  {| status := 304; statusText := "Not Modified"; responseText := Some "" |}.

Definition unavailableResponse : response :=
  {| rStatus := 503; rStatusText := "Service Unavailable"; bodyText := Some "" |}.

Definition notModifiedResponse : response :=
  {| rStatus := 304; rStatusText := "Not Modified"; bodyText := Some "" |}.

(** A hundred calls of [console.error], which fill the console buffer. *)
Definition hundredErrors : list event := repeat (ConsoleError [VStr "boom"]) 100.

(** The event object of a window [error] event. *)
Definition errorEvent (fields : list (string * value)) : object :=
  {| isError := false; isErrorEvent := true; isDOMException := false;
     props := obj fields; toStr := Some "[object ErrorEvent]";
     json := JsonText "{}"; jsonIndented := JsonText "{}" |}.

(** [e = new ReferenceError("x"); e.message = 42; throw e]: the event at
    location 0, the error at location 1. *)
Definition numericMessage : heap :=
  fun l =>
    match l with
    | O => errorEvent [("error", VRef 1%nat); ("message", VStr "Uncaught ReferenceError: 42")]
    | _ => errorObject [("name", VStr "ReferenceError"); ("message", VNum 42)]
    end.

(** The page throwing that error five times within 800 ms: the event at
    location 0, the error at location 1. *)
Definition numericTypeErrorThrown : heap :=
  fun l =>
    match l with
    | O => errorEvent [("error", VRef 1%nat); ("message", VStr "Uncaught TypeError: 42")]
    | _ => errorObject [("name", VStr "TypeError"); ("message", VNum 42)]
    end.

Definition uncaughtBurst : list event :=
  [ErrorEvent 0%nat; Elapse 200; ErrorEvent 0%nat; Elapse 200; ErrorEvent 0%nat;
   Elapse 200; ErrorEvent 0%nat; Elapse 200; ErrorEvent 0%nat].

(** An uncaught [ReferenceError: x is not defined]. *)
Definition uncaughtReference : heap :=
  fun l =>
    match l with
    | O => errorEvent [("error", VRef 1%nat);
                       ("message", VStr "Uncaught ReferenceError: x is not defined");
                       ("filename", VStr "https://app.example/main.js");
                       ("lineno", VNum 12); ("colno", VNum 5)]
    | _ => errorObject [("name", VStr "ReferenceError");
                        ("message", VStr "x is not defined");
                        ("stack", VStr "ReferenceError: x is not defined at main.js:12:5")]
    end.


(** Warnings and failed requests whose text reads like a crash. *)
Definition alarmingRecords : list event :=
  [ConsoleWarn [VStr "x is not defined"];
   XhrError getOrders;
   FetchSettled fetchOrders 0 (Rejected (VStr "Failed to fetch"))].

(** A hundred and one warnings. *)
Definition manyWarnings : list (list value) := repeat [VStr "deprecated"] 101.

(** Three TypeErrors, thirty seconds apart. *)
Definition thirtySecondsApart : list (N * gmap string value) :=
  [(30000%N, typeError); (30000%N, typeError); (30000%N, typeError)].



(** * Verification *)

(** ** Object literals and truthiness *)

Lemma truthy_or_r (a b : value) : truthy b = true -> truthy (a ||| b) = true.
Proof. intros Hb. unfold or_. destruct (truthy a) eqn:Ha; assumption. Qed.

Lemma truthy_or_l (a b : value) : truthy a = true -> a ||| b = a.
Proof. intros Ha. unfold or_. now rewrite Ha. Qed.

Lemma truthy_VStr (s : string) : truthy (VStr s) = true <-> s <> "".
Proof.
  simpl. destruct (String.eqb_spec s ""); simpl; split; intros; congruence.
Qed.

Lemma strictEq_refl (v : value) : strictEq v v = true.
Proof. unfold strictEq. now apply bool_decide_eq_true. Qed.

Lemma bind_Ok {A B : Type} (m : outcome A) (k : A -> outcome B) (b : B) :
  bind m k = Ok b -> exists a, m = Ok a /\ k a = Ok b.
Proof. destruct m; simpl; [eauto | discriminate]. Qed.

Lemma get_insert_eq (k : string) (v : value) (m : gmap string value) :
  get (<[k := v]> m) k = v.
Proof. unfold get. now rewrite lookup_insert_eq. Qed.

Lemma get_insert_ne (k k' : string) (v : value) (m : gmap string value) :
  k' <> k -> get (<[k' := v]> m) k = get m k.
Proof. intros Hk. unfold get. now rewrite lookup_insert_ne. Qed.

Lemma get_empty (k : string) : get ∅ k = VUndefined.
Proof. reflexivity. Qed.

Lemma get_obj_head (k : string) (v : value) (rest : list (string * value)) :
  get (obj ((k, v) :: rest)) k = v.
Proof. apply get_insert_eq. Qed.

Lemma get_obj_tail (k k' : string) (v : value) (rest : list (string * value)) :
  k' <> k -> get (obj ((k', v) :: rest)) k = get (obj rest) k.
Proof. apply get_insert_ne. Qed.

Lemma get_obj_nil (k : string) : get (obj []) k = VUndefined.
Proof. reflexivity. Qed.

Lemma get_spread_eq (o : gmap string value) (k : string) (v : value) :
  get (spread o k v) k = v.
Proof. apply get_insert_eq. Qed.

Lemma get_spread_ne (o : gmap string value) (k k' : string) (v : value) :
  k' <> k -> get (spread o k' v) k = get o k.
Proof. apply get_insert_ne. Qed.

(** Reads a property off an object literal. *)
Ltac get_obj :=
  repeat (rewrite get_obj_head || (rewrite get_obj_tail by discriminate) || rewrite get_obj_nil
          || rewrite get_spread_eq || (rewrite get_spread_ne by discriminate)).



(** ** The normaliser *)

Section Normaliser.

Variable h : heap.

Lemma extractErrorInfo_guard_body (arg : value) (depth : nat) :
  extractErrorInfo h arg depth =
  if bool_decide (3 < depth)%nat then Ok maxDepthReached
  else extractErrorInfo_body h (fun v => extractErrorInfo h v (depth + 1)) arg.
Proof.
  simp extractErrorInfo.
  destruct (le_lt_dec depth 3); simp extractErrorInfo;
    case_bool_decide; (reflexivity || lia).
Qed.

Lemma String_coercible (v : value) : coercible h -> exists s, String_ h v = Ok s.
Proof.
  intros Hc. destruct v; simpl; eauto.
  specialize (Hc l). destruct (toStr (h l)); [eauto | congruence].
Qed.


Ltac invert_outcome Hr :=
  repeat (simpl in Hr;
    match type of Hr with
    | bind _ _ = Ok _ =>
        let x := fresh "x" in
        let Hx := fresh "Hx" in
        apply bind_Ok in Hr as (x & Hx & Hr)
    | context [if ?c then _ else _] => destruct c eqn:?
    | context [match json ?o with _ => _ end] => destruct (json o) eqn:?
    | Ok _ = Ok _ => injection Hr as Hr; subst
    | Throw _ = Ok _ => discriminate Hr
    end).





Lemma body_total (self : value -> outcome (gmap string value)) (arg : value) :
  coercible h ->
  (forall v, exists r, self v = Ok r) ->
  exists r, extractErrorInfo_body h self arg = Ok r.
Proof.
  intros Hc Hself. unfold extractErrorInfo_body.
  destruct arg; simpl; eauto.
  - destruct (toStr (h l)) eqn:Hl; [| now apply Hc in Hl].
    repeat match goal with
           | |- context [self ?v] => destruct (Hself v) as [? ->]; simpl
           | |- context [String_ h ?v] => destruct (String_coercible v Hc) as [? ->]; simpl
           | |- context [if ?c then _ else _] => destruct c; simpl
           | |- context [match json ?o with _ => _ end] => destruct (json o); simpl
           end; eauto.
Qed.

Lemma extractErrorInfo_total_at (n : nat) :
  coercible h ->
  forall depth arg, (4 - depth <= n)%nat -> exists r, extractErrorInfo h arg depth = Ok r.
Proof.
  intros Hc. induction n as [| n IH]; intros depth arg Hn;
    rewrite extractErrorInfo_guard_body; case_bool_decide; try lia; eauto.
  apply body_total; [assumption |]. intros v. apply IH. lia.
Qed.

(** *** The chain of nested values *)

Lemma extractErrorInfo_beyond (arg : value) (depth : nat) :
  (3 < depth)%nat -> extractErrorInfo h arg depth = Ok maxDepthReached.
Proof. intros Hd. rewrite extractErrorInfo_guard_body. now rewrite bool_decide_eq_true_2. Qed.

(** The body calls itself on the nested value and on nothing else. *)
Lemma body_calls_nested (self self' : value -> outcome (gmap string value)) (arg : value) :
  (forall k v, nested h arg = Some (k, v) -> self v = self' v) ->
  extractErrorInfo_body h self arg = extractErrorInfo_body h self' arg.
Proof.
  intros Hn. unfold extractErrorInfo_body, nested in *.
  destruct arg; try reflexivity. cbv zeta in *.
  destruct (isError (h l)).
  - destruct (truthy (get (props (h l)) "cause")); [| reflexivity].
    now rewrite (Hn ViaCause _ eq_refl).
  - destruct (isErrorEvent (h l)); [reflexivity |].
    destruct (isDOMException (h l)); [reflexivity |].
    destruct (truthy (get (props (h l)) "componentStack")); [reflexivity |].
    destruct (negb (strictEq (get (props (h l)) "message") VUndefined)); [reflexivity |].
    simpl in Hn.
    destruct (truthy (get (props (h l)) "error")); [now apply (Hn ViaError) |].
    destruct (truthy (get (props (h l)) "reason")); [now apply (Hn ViaReason) |].
    reflexivity.
Qed.

(** A wrapper is normalised as the value it wraps, one level deeper. *)
Lemma extractErrorInfo_wrapper (arg v : value) (k : link) (depth : nat) :
  (depth <= 3)%nat -> k <> ViaCause -> nested h arg = Some (k, v) ->
  extractErrorInfo h arg depth = extractErrorInfo h v (depth + 1).
Proof.
  intros Hd Hk Hn. rewrite extractErrorInfo_guard_body.
  rewrite bool_decide_eq_false_2 by lia.
  unfold extractErrorInfo_body, nested in *.
  destruct arg; try discriminate. cbv zeta in *.
  destruct (isError (h l)).
  { destruct (truthy _); congruence. }
  destruct (isErrorEvent (h l)); [discriminate |].
  destruct (isDOMException (h l)); [discriminate |].
  destruct (truthy (get (props (h l)) "componentStack")); [discriminate |].
  destruct (negb (strictEq (get (props (h l)) "message") VUndefined)); [discriminate |].
  simpl in Hn.
  destruct (truthy (get (props (h l)) "error")); [congruence |].
  destruct (truthy (get (props (h l)) "reason")); congruence.
Qed.

Lemma extractErrorInfo_wrappers (n : nat) :
  forall arg v depth, (depth + n <= 4)%nat -> wrappers h n arg = Some v ->
    extractErrorInfo h arg depth = extractErrorInfo h v (depth + n).
Proof.
  induction n as [| n IH]; intros arg v depth Hd Hw; simpl in Hw.
  - injection Hw as <-. now rewrite Nat.add_0_r.
  - destruct (nested h arg) as [[k w] |] eqn:Hn; [| discriminate].
    destruct k; try discriminate;
      (erewrite extractErrorInfo_wrapper; [| lia | | eassumption]; [| discriminate]);
      rewrite (IH w v (depth + 1)%nat) by (lia || assumption); f_equal; lia.
Qed.

(** An Error keeps its own type and message whatever its cause. *)
Lemma extractErrorInfo_Error (l : loc) (r : gmap string value) :
  isError (h l) = true ->
  extractErrorInfo h (VRef l) 0 = Ok r ->
  get r "type" = get (props (h l)) "name" ||| VStr "Error" /\
  get r "message" = get (props (h l)) "message" ||| VStr "No message".
Proof.
  intros He. rewrite extractErrorInfo_guard_body. simpl. rewrite He.
  intros Hr. invert_outcome Hr; split; get_obj; reflexivity.
Qed.

(** *** The conversions the normaliser makes *)

Lemma String_throws (v : value) (e : exn) : String_ h v = Throw e -> e = TypeError.
Proof.
  destruct v; simpl; try discriminate.
  destruct (toStr (h l)); [discriminate | congruence].
Qed.

(** The body returns when the conversion it makes and its recursive call
    do. *)
Lemma body_returns (self : value -> outcome (gmap string value)) (arg : value) :
  (forall x, converted h arg = Some x -> exists s, String_ h x = Ok s) ->
  (forall k w, nested h arg = Some (k, w) -> exists r, self w = Ok r) ->
  exists r, extractErrorInfo_body h self arg = Ok r.
Proof.
  intros Hx Hn. unfold extractErrorInfo_body, converted, nested in *.
  destruct arg; try (simpl; eauto; fail). cbv zeta in *.
  destruct (isError (h l)); simpl orb in *; cbv iota in *.
  - destruct (truthy (get (props (h l)) "cause")); [| simpl; eauto].
    destruct (Hn ViaCause _ eq_refl) as [r ->]. simpl. eauto.
  - destruct (isErrorEvent (h l)); simpl orb in *; cbv iota in *; [eauto |].
    destruct (isDOMException (h l)); simpl orb in *; cbv iota in *; [eauto |].
    destruct (truthy (get (props (h l)) "componentStack")).
    { destruct (truthy (get (props (h l)) "message")); [simpl; eauto |].
      destruct (Hx _ eq_refl) as [s ->]. simpl. eauto. }
    destruct (negb (strictEq (get (props (h l)) "message") VUndefined)).
    { destruct (Hx _ eq_refl) as [s ->]. simpl. eauto. }
    destruct (truthy (get (props (h l)) "error")); [exact (Hn ViaError _ eq_refl) |].
    destruct (truthy (get (props (h l)) "reason")); [exact (Hn ViaReason _ eq_refl) |].
    simpl orb in Hx. cbv iota in Hx.
    destruct (json (h l)) as [| | str].
    + destruct (Hx _ eq_refl) as [s ->]. simpl. eauto.
    + destruct (Hx _ eq_refl) as [s ->]. simpl. eauto.
    + destruct (negb (String.eqb str "") && negb (String.eqb str "{}")); [eauto |].
      destruct (Hx _ eq_refl) as [s ->]. simpl. eauto.
Qed.

(** The body throws when the conversion it makes or its recursive call
    does. *)
Lemma body_raises (self : value -> outcome (gmap string value)) (arg : value) :
  (exists x, converted h arg = Some x /\ String_ h x = Throw TypeError) \/
  (exists k w, nested h arg = Some (k, w) /\ self w = Throw TypeError) ->
  extractErrorInfo_body h self arg = Throw TypeError.
Proof.
  unfold extractErrorInfo_body, converted, nested.
  destruct arg; try (intros [(x & Hx & _) | (k & w & Hn & _)]; discriminate). cbv zeta.
  destruct (isError (h l)); simpl orb; cbv iota.
  - intros [(x & Hx & _) | (k & w & Hn & Hw)]; [discriminate |].
    destruct (truthy (get (props (h l)) "cause")); [| discriminate].
    injection Hn as _ <-. now rewrite Hw.
  - destruct (isErrorEvent (h l)); simpl orb; cbv iota;
      [intros [(x & Hx & _) | (k & w & Hn & _)]; discriminate |].
    destruct (isDOMException (h l)); simpl orb; cbv iota;
      [intros [(x & Hx & _) | (k & w & Hn & _)]; discriminate |].
    destruct (truthy (get (props (h l)) "componentStack")).
    { intros [(x & Hx & Hs) | (k & w & Hn & _)]; [| discriminate].
      destruct (truthy (get (props (h l)) "message")); [discriminate |].
      injection Hx as <-. now rewrite Hs. }
    destruct (negb (strictEq (get (props (h l)) "message") VUndefined)).
    { intros [(x & Hx & Hs) | (k & w & Hn & _)]; [| discriminate].
      injection Hx as <-. now rewrite Hs. }
    destruct (truthy (get (props (h l)) "error")); simpl orb; cbv iota.
    { intros [(x & Hx & _) | (k & w & Hn & Hw)]; [discriminate |].
      injection Hn as _ <-. exact Hw. }
    destruct (truthy (get (props (h l)) "reason")); simpl orb; cbv iota.
    { intros [(x & Hx & _) | (k & w & Hn & Hw)]; [discriminate |].
      injection Hn as _ <-. exact Hw. }
    intros [(x & Hx & Hs) | (k & w & Hn & _)]; [| discriminate].
    destruct (json (h l)) as [| | str].
    + injection Hx as <-. now rewrite Hs.
    + injection Hx as <-. now rewrite Hs.
    + destruct (negb (String.eqb str "") && negb (String.eqb str "{}")); [discriminate |].
      injection Hx as <-. now rewrite Hs.
Qed.

(** The normaliser returns exactly when the conversions it reaches do. *)
Lemma extractErrorInfo_convertible (n : nat) :
  forall depth arg, (depth + n = 3)%nat ->
    if convertible h n arg then exists r, extractErrorInfo h arg depth = Ok r
    else extractErrorInfo h arg depth = Throw TypeError.
Proof.
  induction n as [| n IH]; intros depth arg Hd; rewrite extractErrorInfo_guard_body;
    rewrite bool_decide_eq_false_2 by lia; simpl convertible.
  - destruct (converted h arg) as [x |] eqn:Hx; [destruct (String_ h x) as [s | e] eqn:Hs |];
      simpl andb; cbv iota.
    + apply body_returns; [intros x' Hx'; rewrite Hx in Hx'; injection Hx' as <-; eauto |].
      intros k w _. rewrite extractErrorInfo_beyond by lia. eauto.
    + apply String_throws in Hs as Hs'. subst e. apply body_raises. left. eauto.
    + apply body_returns; [intros x' Hx'; congruence |].
      intros k w _. rewrite extractErrorInfo_beyond by lia. eauto.
  - assert (forall k w, nested h arg = Some (k, w) ->
              if convertible h n w then exists r, extractErrorInfo h w (depth + 1) = Ok r
              else extractErrorInfo h w (depth + 1) = Throw TypeError) as Hrec
      by (intros k w _; apply IH; lia).
    destruct (converted h arg) as [x |] eqn:Hx; [destruct (String_ h x) as [s | e] eqn:Hs |];
      simpl andb; cbv iota.
    + destruct (nested h arg) as [[k w] |] eqn:Hn.
      * specialize (Hrec k w eq_refl). destruct (convertible h n w).
        -- apply body_returns; [intros x' Hx'; rewrite Hx in Hx'; injection Hx' as <-; eauto |]. intros k' w' Hn'; rewrite Hn in Hn'; now injection Hn' as _ <-.
        -- apply body_raises. right. eauto.
      * apply body_returns; [intros x' Hx'; rewrite Hx in Hx'; injection Hx' as <-; eauto | intros k w Hn'; congruence].
    + apply String_throws in Hs as Hs'. subst e. apply body_raises. left. eauto.
    + destruct (nested h arg) as [[k w] |] eqn:Hn.
      * specialize (Hrec k w eq_refl). destruct (convertible h n w).
        -- apply body_returns; [intros x' Hx'; congruence |]. intros k' w' Hn'; rewrite Hn in Hn'; now injection Hn' as _ <-.
        -- apply body_raises. right. eauto.
      * apply body_returns; [intros x' Hx'; congruence | intros k w Hn'; congruence].
Qed.

(** *** Where the message of the record comes from *)






End Normaliser.




(** The unguarded [String(arg)] of the last branch throws on an object
    without [toString]. *)
Lemma extractErrorInfo_raises :
  extractErrorInfo bareHeap (VRef 0%nat) 0 = Throw TypeError.
Proof. reflexivity. Qed.

(** C3, as the code has it.  A call at a depth above 3 returns the sentinel
    without looking at its argument; a value wrapped in four [error] or
    [reason] wrappers, cyclic or not, is normalised to the sentinel; an
    Error keeps its own type and message, whatever its chain of causes; and the
    body calls itself on the nested value only. *)
Theorem extractErrorInfo_depth_capped (h : heap) :
  (forall arg depth, (3 < depth)%nat -> extractErrorInfo h arg depth = Ok maxDepthReached) /\
  (forall arg v, wrappers h 4 arg = Some v -> extractErrorInfo h arg 0 = Ok maxDepthReached) /\
  (forall l r, isError (h l) = true -> extractErrorInfo h (VRef l) 0 = Ok r ->
     get r "type" = get (props (h l)) "name" ||| VStr "Error" /\
     get r "message" = get (props (h l)) "message" ||| VStr "No message") /\
  (forall self self' arg,
     (forall k v, nested h arg = Some (k, v) -> self v = self' v) ->
     extractErrorInfo_body h self arg = extractErrorInfo_body h self' arg).
Proof.
  split; [| split; [| split]].
  - intros arg depth. apply extractErrorInfo_beyond.
  - intros arg v Hw. rewrite (extractErrorInfo_wrappers h 4 arg v 0) by (lia || assumption).
    apply extractErrorInfo_beyond. lia.
  - intros l r. apply extractErrorInfo_Error.
  - intros self self' arg. apply body_calls_nested.
Qed.

Lemma extractErrorInfo_depth_capped_witness :
  wrappers wrapperCycle 4 (VRef 0%nat) = Some (VRef 0%nat) /\
  extractErrorInfo wrapperCycle (VRef 0%nat) 0 = Ok maxDepthReached.
Proof.
  split; [reflexivity |].
  exact (proj1 (proj2 (extractErrorInfo_depth_capped wrapperCycle))
           (VRef 0%nat) (VRef 0%nat) eq_refl).
Defined.

(** C3 as stated fails on a chain of causes: a cyclic [cause] chain is
    unwrapped past depth 3, yet the result is the Error's own record. *)
Lemma extractErrorInfo_cause_cycle_not_sentinel :
  chain causeCycle 4 (VRef 0%nat) = Some (VRef 0%nat) /\
  extractErrorInfo causeCycle (VRef 0%nat) 4 = Ok maxDepthReached /\
  exists r, extractErrorInfo causeCycle (VRef 0%nat) 0 = Ok r /\
            get r "message" = VStr "boom" /\ get r "cause" = VStr "boom" /\
            r <> maxDepthReached.
Proof.
  split; [reflexivity |]. split; [reflexivity |].
  exists (obj [("type", VStr "Error"); ("message", VStr "boom"); ("stack", VStr "");
               ("cause", VStr "boom"); ("code", VUndefined); ("fileName", VUndefined);
               ("lineNumber", VUndefined); ("columnNumber", VUndefined);
               ("componentStack", VUndefined)]).
  split; [reflexivity |]. split; [reflexivity |]. split; [reflexivity |].
  intros Heq. apply (f_equal (fun m => get m "type")) in Heq. vm_compute in Heq. discriminate.
Qed.

(** ** The merge *)

Section AppendNew.

Variable same : gmap string value -> gmap string value -> bool.
Hypothesis same_refl : forall x, same x x = true.

Local Notation "acc 'knows' err" := (existsb (fun e => same e err) acc) (at level 60).

Lemma appendNew_cons (stored incoming : list (gmap string value)) (err : gmap string value) :
  Popup.appendNew same stored (err :: incoming) =
  Popup.appendNew same (if stored knows err then stored else stored ++ [err]) incoming.
Proof. reflexivity. Qed.

Lemma appendNew_prefix (incoming stored : list (gmap string value)) :
  stored `prefix_of` Popup.appendNew same stored incoming.
Proof.
  revert stored. induction incoming as [| err incoming IH]; intros stored.
  - reflexivity.
  - rewrite appendNew_cons. etransitivity; [| apply IH].
    destruct (stored knows err); [reflexivity | now apply prefix_app_r].
Qed.

Lemma known_prefix (l1 l2 : list (gmap string value)) (err : gmap string value) :
  l1 `prefix_of` l2 -> l1 knows err = true -> l2 knows err = true.
Proof.
  intros [rest ->] Hk. rewrite existsb_app, Hk. reflexivity.
Qed.

(** After the merge every incoming element has its key in the store. *)
Lemma appendNew_known (incoming stored : list (gmap string value)) (err : gmap string value) :
  In err incoming -> (Popup.appendNew same stored incoming) knows err = true.
Proof.
  revert stored. induction incoming as [| x incoming IH]; intros stored; [intros [] |].
  intros [-> | Hin]; rewrite appendNew_cons; [| now apply IH].
  eapply known_prefix; [apply appendNew_prefix |].
  destruct (stored knows err) eqn:Hk; [assumption |].
  rewrite existsb_app. simpl. rewrite same_refl. apply orb_true_iff. right. reflexivity.
Qed.

(** Merging elements whose keys are all in the store changes nothing. *)
Lemma appendNew_all_known (incoming stored : list (gmap string value)) :
  (forall err, In err incoming -> stored knows err = true) ->
  Popup.appendNew same stored incoming = stored.
Proof.
  induction incoming as [| x incoming IH]; intros Hk; [reflexivity |].
  rewrite appendNew_cons, (Hk x) by (now left).
  apply IH. intros err Hin. apply Hk. now right.
Qed.

Lemma appendNew_idempotent (incoming stored : list (gmap string value)) :
  Popup.appendNew same (Popup.appendNew same stored incoming) incoming =
  Popup.appendNew same stored incoming.
Proof. apply appendNew_all_known. intros err. apply appendNew_known. Qed.

Lemma appendedFresh_refl (stored : list (gmap string value)) : appendedFresh same stored stored.
Proof.
  intros before x after Heq Hlen. apply (f_equal (@length _)) in Heq.
  rewrite length_app in Heq. simpl in Heq. lia.
Qed.

Lemma appendedFresh_snoc (stored result : list (gmap string value)) (err : gmap string value) :
  appendedFresh same stored result -> result knows err = false ->
  appendedFresh same stored (result ++ [err]).
Proof.
  intros Hf Hk before x after Heq Hlen.
  destruct after as [| y after].
  - apply app_inj_tail in Heq as [<- <-]. assumption.
  - destruct (exists_last (l := y :: after)) as (after' & z & Hz); [discriminate |].
    rewrite Hz in Heq.
    change (before ++ x :: after' ++ [z]) with (before ++ (x :: after') ++ [z]) in Heq.
    rewrite app_assoc in Heq.
    apply app_inj_tail in Heq as [-> _]. eapply Hf; [reflexivity | assumption].
Qed.

Lemma appendNew_fresh (incoming stored result : list (gmap string value)) :
  appendedFresh same stored result ->
  appendedFresh same stored (Popup.appendNew same result incoming).
Proof.
  revert result. induction incoming as [| err incoming IH]; intros result Hf; [assumption |].
  rewrite appendNew_cons. apply IH.
  destruct (result knows err) eqn:Hk; [assumption | now apply appendedFresh_snoc].
Qed.

End AppendNew.

Lemma appendNewPage_spec (incoming : list (gmap string value))
    (stored : option (list (gmap string value))) :
  default [] (Popup.appendNewPage stored incoming) =
  Popup.appendNew Popup.samePage (default [] stored) incoming.
Proof.
  revert stored. induction incoming as [| err incoming IH]; intros stored; [reflexivity |].
  change (Popup.appendNewPage stored (err :: incoming)) with
    (Popup.appendNewPage
       (if existsb (fun e => Popup.samePage e err) (default [] stored) then stored
        else Some (default [] stored ++ [err])) incoming).
  rewrite IH, appendNew_cons.
  destruct (existsb _ (default [] stored)); reflexivity.
Qed.

Lemma appendNewPage_all_known (incoming : list (gmap string value))
    (stored : option (list (gmap string value))) :
  (forall err, In err incoming ->
     existsb (fun e => Popup.samePage e err) (default [] stored) = true) ->
  Popup.appendNewPage stored incoming = stored.
Proof.
  induction incoming as [| x incoming IH]; intros Hk; [reflexivity |].
  change (Popup.appendNewPage stored (x :: incoming)) with
    (Popup.appendNewPage
       (if existsb (fun e => Popup.samePage e x) (default [] stored) then stored
        else Some (default [] stored ++ [x])) incoming).
  rewrite (Hk x) by (now left).
  apply IH. intros err Hin. apply Hk. now right.
Qed.

Lemma sameConsole_refl (x : gmap string value) : Popup.sameConsole x x = true.
Proof. unfold Popup.sameConsole. now rewrite !strictEq_refl. Qed.

Lemma samePage_refl (x : gmap string value) : Popup.samePage x x = true.
Proof. apply strictEq_refl. Qed.

Lemma sameApi_refl (x : gmap string value) : Popup.sameApi x x = true.
Proof. unfold Popup.sameApi. now rewrite !strictEq_refl. Qed.

Lemma sameCrash_refl (x : gmap string value) : Popup.sameCrash x x = true.
Proof. apply strictEq_refl. Qed.

(** C5.  [mergePageData] only appends: each stored list is a prefix of the
    merged one.  Merging the same page data again changes nothing.  And an
    element is appended only if no element before it has its key: timestamp
    and message for console errors, timestamp for page errors, timestamp and
    url for API errors, timestamp for crashes. *)
Theorem mergePageData_appends_once (data : Popup.store) (pageData : Popup.snapshot) :
  let merged := Popup.mergePageData data pageData in
  (Popup.consoleErrors data `prefix_of` Popup.consoleErrors merged /\
   default [] (Popup.pageErrors data) `prefix_of` default [] (Popup.pageErrors merged) /\
   Popup.apiErrors data `prefix_of` Popup.apiErrors merged /\
   Popup.crashes data `prefix_of` Popup.crashes merged) /\
  Popup.mergePageData merged pageData = merged /\
  (appendedFresh Popup.sameConsole (Popup.consoleErrors data) (Popup.consoleErrors merged) /\
   appendedFresh Popup.samePage (default [] (Popup.pageErrors data))
                 (default [] (Popup.pageErrors merged)) /\
   appendedFresh Popup.sameApi (Popup.apiErrors data) (Popup.apiErrors merged) /\
   appendedFresh Popup.sameCrash (Popup.crashes data) (Popup.crashes merged)).
Proof.
  destruct data as [cr ap co pg], pageData as [icr iap ico ipg].
  unfold Popup.mergePageData. cbn [Popup.consoleErrors Popup.pageErrors Popup.apiErrors
    Popup.crashes Popup.snapConsoleErrors Popup.snapPageErrors Popup.snapApiErrors
    Popup.snapCrashes].
  split; [| split].
  - repeat split.
    + destruct ico; [apply appendNew_prefix | reflexivity].
    + destruct ipg; [rewrite appendNewPage_spec; apply appendNew_prefix | reflexivity].
    + destruct iap; [apply appendNew_prefix | reflexivity].
    + destruct icr; [apply appendNew_prefix | reflexivity].
  - f_equal.
    + destruct icr; [apply appendNew_idempotent, sameCrash_refl | reflexivity].
    + destruct iap; [apply appendNew_idempotent, sameApi_refl | reflexivity].
    + destruct ico; [apply appendNew_idempotent, sameConsole_refl | reflexivity].
    + destruct ipg as [incoming |]; [| reflexivity].
      apply appendNewPage_all_known. intros err Hin.
      rewrite appendNewPage_spec. now apply appendNew_known; [apply samePage_refl |].
  - repeat split.
    + destruct ico; [apply appendNew_fresh |]; apply appendedFresh_refl.
    + destruct ipg; [rewrite appendNewPage_spec; apply appendNew_fresh |];
        apply appendedFresh_refl.
    + destruct iap; [apply appendNew_fresh |]; apply appendedFresh_refl.
    + destruct icr; [apply appendNew_fresh |]; apply appendedFresh_refl.
Qed.

(** ** The signal-based detector *)

Section SignalDetector.

Variable H : host.

Lemma hasStrings_inv (entry : gmap string value) :
  hasStrings entry = true ->
  exists t m, get entry "errorType" = VStr t /\ get entry "message" = VStr m.
Proof.
  unfold hasStrings. destruct (get entry "errorType"); try discriminate.
  destruct (get entry "message"); try discriminate. eauto.
Qed.

Lemma isCriticalError_strings (t m : string) :
  exists b, isCriticalError H (VStr t) (VStr m) = Ok b.
Proof. unfold isCriticalError. destruct (existsb _ _); simpl; eauto. Qed.

(** What [triggerCrashFromError] does for an entry of the data model. *)
Lemma triggerCrashFromError_strings (entry : gmap string value) (s : state) :
  hasStrings entry = true ->
  exists c log,
    triggerCrashFromError H entry s =
      (Ok tt, set_timers (fun l => l ++ [now s + 10000])
                (set_posted (fun l => l ++ [crashMessage H c])
                   (set_native (fun l => l ++ [log]) (set_crashTriggered true s)))) /\
    Crash.detectionMethod c = "error_based" /\
    (exists primary, Crash.primaryError c = Some primary /\
                     get primary "message" = get entry "message" /\
                     get primary "type" = get entry "errorType") /\
    Crash.recentCriticalErrors c = Some (sliceLast 10 (recentCriticalErrors s)) /\
    snapshotOf s c.
Proof.
  intros Hs. destruct (hasStrings_inv entry Hs) as (t & m & Ht & Hm).
  unfold triggerCrashFromError, bindM, lift, gets, modify, ret, Date_now, isoNow,
    sendToContentScript, _log.
  rewrite Ht, Hm. simpl.
  eexists. eexists. split; [reflexivity |].
  split; [reflexivity |]. split.
  - eexists. split; [reflexivity |]. get_obj. split; reflexivity.
  - split; [reflexivity |]. unfold snapshotOf. simpl. auto 10.
Qed.

(** What [checkForErrorBasedCrash] does for a critical entry of the data
    model. *)
Lemma checkForErrorBasedCrash_strings (entry : gmap string value) (s : state) :
  hasStrings entry = true -> classified H entry = true ->
  checkForErrorBasedCrash H entry s =
    if shouldTrigger entry (windowed entry s) && negb (crashTriggered s)
    then triggerCrashFromError H entry (windowed entry s)
    else (Ok tt, windowed entry s).
Proof.
  intros Hs Hc. destruct (hasStrings_inv entry Hs) as (t & m & Ht & Hm).
  unfold classified in Hc. unfold checkForErrorBasedCrash, shouldTrigger.
  rewrite Ht, Hm in *.
  destruct (isCriticalError H (VStr t) (VStr m)) as [b |]; [| discriminate]. subst b.
  unfold bindM, lift, gets, modify, ret, Date_now. simpl.
  fold (windowed entry s).
  destruct (strictEq (VStr t) (VStr "ReferenceError")); simpl;
    [now destruct (crashTriggered s) |].
  destruct (Str.includes "is not defined" m); simpl;
    [now destruct (crashTriggered s) |].
  destruct (truthy (get entry "componentStack")); simpl;
    [now destruct (crashTriggered s) |].
  destruct (bool_decide _); simpl; now destruct (crashTriggered s).
Qed.

Lemma windowed_frame (entry : gmap string value) (s : state) :
  crashTriggered (windowed entry s) = crashTriggered s /\
  timers (windowed entry s) = timers s /\
  posted (windowed entry s) = posted s /\
  now (windowed entry s) = now s /\
  localErrors (windowed entry s) = localErrors s.
Proof. repeat split. Qed.

Lemma windowed_recentSince (entry : gmap string value) (s : state) (since : Z) :
  since <= now s -> now s - 60000 < since ->
  length (recentSince since (windowed entry s)) = S (length (recentSince since s)).
Proof.
  intros Hlo Hhi. unfold recentSince, windowed. simpl.
  rewrite list_filter_filter, filter_app, length_app.
  rewrite (list_filter_iff _ (fun c => since <= capturedAt c)) by (intros c; lia).
  rewrite (list_filter_iff (fun c => since <= capturedAt c /\ now s - 60000 < capturedAt c)
             (fun c => since <= capturedAt c)) by (intros c; lia).
  rewrite filter_cons_True by (simpl; lia). simpl. lia.
Qed.

Lemma recentSince_length (since : Z) (s : state) :
  (length (recentSince since s) <= length (recentCriticalErrors s))%nat.
Proof. apply length_filter. Qed.

Lemma elapsed_nonneg (trace : list event) : 0 <= elapsed trace.
Proof. induction trace as [| [] trace IH]; simpl; lia. Qed.

Lemma elapsed_app (t1 t2 : list event) : elapsed (t1 ++ t2) = elapsed t1 + elapsed t2.
Proof. induction t1 as [| [] t1 IH]; simpl; lia. Qed.

Lemma feeds_app (t1 t2 : list event) : feeds (t1 ++ t2) = (feeds t1 + feeds t2)%nat.
Proof. unfold feeds. now rewrite filter_app, length_app. Qed.

Lemma run_app (s : state) (t1 t2 : list event) : run H s (t1 ++ t2) = run H (run H s t1) t2.
Proof. apply fold_left_app. Qed.

Lemma crashesBy_snoc_crash (detector : string) (l : list message) (c : Crash.t) :
  Crash.detectionMethod c = detector ->
  crashesBy detector (l ++ [crashMessage H c]) = crashesBy detector l ++ [c].
Proof.
  intros Hd. unfold crashesBy. rewrite omap_app. simpl. now rewrite Hd, String.eqb_refl.
Qed.

Lemma step_feed (entry : gmap string value) (s : state) :
  hasStrings entry = true -> classified H entry = true ->
  step H s (Feed entry) =
    snd (if shouldTrigger entry (windowed entry s) && negb (crashTriggered s)
         then triggerCrashFromError H entry (windowed entry s)
         else (Ok tt, windowed entry s)).
Proof.
  intros Hs Hc. unfold step, handle. now rewrite checkForErrorBasedCrash_strings.
Qed.

Lemma step_timer_idle (s : state) :
  (forall due rest, timers s = due :: rest -> now s < due) -> step H s TimerFires = s.
Proof.
  intros Hd. unfold step, handle, runTimer, bindM, gets, Date_now. simpl.
  destruct (timers s) as [| due rest] eqn:Ht; [reflexivity |].
  rewrite bool_decide_eq_false_2; [reflexivity |].
  specialize (Hd due rest eq_refl). lia.
Qed.

(** The crash event [triggerCrashFromError] posts carries the time of the
    call, and the reset is due ten seconds later. *)
Lemma triggerCrashFromError_emits (entry : gmap string value) (s : state) :
  hasStrings entry = true ->
  exists c log,
    triggerCrashFromError H entry s =
      (Ok tt, set_timers (fun l => l ++ [now s + 10000])
                (set_posted (fun l => l ++ [crashMessage H c])
                   (set_native (fun l => l ++ [log]) (set_crashTriggered true s)))) /\
    Crash.detectionMethod c = "error_based" /\
    Crash.timestamp c = toISOString H (now s).
Proof.
  intros Hs. destruct (hasStrings_inv entry Hs) as (t & m & Ht & Hm).
  unfold triggerCrashFromError, bindM, lift, gets, modify, ret, Date_now, isoNow,
    sendToContentScript, _log.
  rewrite Ht, Hm. simpl.
  eexists. eexists. split; [reflexivity |]. split; reflexivity.
Qed.

(** While the latch is set and the cooldown timer is not due, arrivals post
    nothing and leave the latch and the timer alone. *)
Lemma run_latched (trace : list event) :
  forall (s : state) (due : Z) (rest : list Z),
    Forall (fun ev => arrival H ev = true) trace ->
    crashTriggered s = true -> timers s = due :: rest ->
    now s + elapsed trace < due ->
    posted (run H s trace) = posted s /\ crashTriggered (run H s trace) = true /\
    timers (run H s trace) = timers s.
Proof.
  induction trace as [| ev trace IH]; intros s due rest Ha Hl Ht Hn; [now repeat split |].
  apply Forall_cons in Ha as [Hev Ha]. pose proof (elapsed_nonneg trace) as Hpos.
  destruct ev; try discriminate; simpl in Hn |- *.
  - apply andb_true_iff in Hev as [Hs Hc].
    rewrite (step_feed entry s Hs Hc), Hl, andb_false_r. simpl.
    destruct (IH (windowed entry s) due rest) as (Hp & Hl' & Ht'); auto.
  - destruct (IH (step H s (Elapse ms)) due rest Ha) as (Hp & Hl' & Ht'); auto.
    simpl. lia.
  - rewrite step_timer_idle; [now apply (IH _ due rest) |].
    intros due' rest' Ht'. rewrite Ht in Ht'. injection Ht' as <- <-. lia.
Qed.

(** Only the clock's advance moves the clock. *)
Lemma now_run (trace : list event) :
  forall s : state,
    Forall (fun ev => arrival H ev = true) trace ->
    now (run H s trace) = now s + elapsed trace.
Proof.
  induction trace as [| ev trace IH]; intros s Ha; [simpl; lia |].
  apply Forall_cons in Ha as [Hev Ha].
  destruct ev; try discriminate; simpl; rewrite (IH _ Ha).
  - apply andb_true_iff in Hev as [Hs Hc].
    rewrite (step_feed entry s Hs Hc).
    destruct (shouldTrigger entry (windowed entry s) && negb (crashTriggered s));
      [| reflexivity].
    destruct (triggerCrashFromError_emits entry (windowed entry s) Hs) as (c & log & -> & _).
    reflexivity.
  - simpl. lia.
  - f_equal. unfold step, handle, runTimer, cooldownReset, bindM, gets, modify, Date_now. simpl.
    destruct (timers s) as [| due rest]; [reflexivity |].
    now case_bool_decide.
Qed.

(** From a state with the latch clear: once three critical entries have
    arrived within ten seconds, exactly one crash event has been posted; the
    reset is due ten seconds after the time the event carries. *)
Lemma run_unlatched (since : Z) (trace : list event) :
  forall (s : state) (k : nat),
    Forall (fun ev => arrival H ev = true) trace ->
    crashTriggered s = false -> timers s = [] ->
    since <= now s -> now s + elapsed trace < since + 10000 ->
    (k <= length (recentSince since s))%nat ->
    (3 <= k + feeds trace)%nat -> (1 <= feeds trace)%nat ->
    exists c emitted,
      crashesBy "error_based" (posted (run H s trace)) =
        crashesBy "error_based" (posted s) ++ [c] /\
      now s <= emitted <= now s + elapsed trace /\
      Crash.timestamp c = toISOString H emitted /\
      timers (run H s trace) = [emitted + 10000] /\
      crashTriggered (run H s trace) = true.
Proof.
  induction trace as [| ev trace IH]; intros s k Ha Hl Ht Hlo Hhi Hk H3 H1;
    [unfold feeds in H1; simpl in H1; lia |].
  apply Forall_cons in Ha as [Hev Ha]. pose proof (elapsed_nonneg trace) as Hpos.
  destruct ev; try discriminate; simpl in Hhi |- *.
  - apply andb_true_iff in Hev as [Hs Hc].
    rewrite (step_feed entry s Hs Hc), Hl, andb_true_r.
    assert (feeds (Feed entry :: trace) = S (feeds trace)) as Hf by reflexivity.
    rewrite Hf in H3, H1.
    pose proof (windowed_recentSince entry s since Hlo ltac:(lia)) as Hw.
    destruct (shouldTrigger entry (windowed entry s)) eqn:Hsh.
    + destruct (triggerCrashFromError_emits entry (windowed entry s) Hs)
        as (c & log & -> & Hm & Hstamp). simpl snd.
      edestruct (run_latched trace) as (Hp & Hl' & Ht');
        [exact Ha | | | | rewrite Hp, Hl', Ht'].
      * reflexivity.
      * simpl. rewrite Ht. reflexivity.
      * simpl. lia.
      * exists c, (now s). simpl. rewrite Ht.
        repeat split; try lia; try assumption. now apply crashesBy_snoc_crash.
    + simpl. unfold shouldTrigger in Hsh. apply orb_false_iff in Hsh as [_ Hlen].
      apply bool_decide_eq_false in Hlen.
      pose proof (recentSince_length since (windowed entry s)) as Hle.
      apply (IH (windowed entry s) (S k)); auto; try lia.
  - destruct (IH (step H s (Elapse ms)) k) as (c & emitted & Hp & He & Hrest); auto;
      try (simpl; lia).
    exists c, emitted. split; [exact Hp |]. split; [simpl in He; lia | exact Hrest].
  - rewrite step_timer_idle by (rewrite Ht; discriminate).
    apply (IH s k); auto.
Qed.

Lemma forallb_arrival (trace : list event) :
  forallb (arrival H) trace = true -> Forall (fun ev => arrival H ev = true) trace.
Proof. intros Hf. apply Forall_forall. intros ev Hin. apply list_elem_of_In in Hin. revert ev Hin. now apply forallb_forall. Qed.

(** What holds of a burst on the code.  From a state with the latch clear
    and no reset pending, a burst with five critical entries whose errorType
    and message are strings, within one second, posts exactly one error-based
    crash event; the cooldown runs for ten seconds from the time that event
    carries, and whatever such entries follow before it is over post no
    second one. *)
Lemma burst_posts_one_crash (s : state) (burst : list event) :
  crashTriggered s = false -> timers s = [] ->
  forallb (arrival H) burst = true ->
  feeds burst = 5%nat -> elapsed burst <= 1000 ->
  exists c emitted,
    crashesBy "error_based" (posted (run H s burst)) =
      crashesBy "error_based" (posted s) ++ [c] /\
    now s <= emitted <= now s + elapsed burst /\
    Crash.timestamp c = toISOString H emitted /\
    timers (run H s burst) = [emitted + 10000] /\
    forall more,
      forallb (arrival H) more = true ->
      now s + elapsed burst + elapsed more < emitted + 10000 ->
      crashesBy "error_based" (posted (run H s (burst ++ more))) =
        crashesBy "error_based" (posted s) ++ [c] /\
      crashTriggered (run H s (burst ++ more)) = true.
Proof.
  intros Hl Ht Hb Hf Hb1. apply forallb_arrival in Hb.
  destruct (run_unlatched (now s) burst s 0) as (c & emitted & Hp & He & Hstamp & Htm & Hl');
    auto; try lia.
  exists c, emitted. repeat split; try assumption; try lia.
  - rewrite run_app.
    destruct (run_latched more (run H s burst) (emitted + 10000) []) as (Hp' & _);
      [now apply forallb_arrival | assumption | assumption | rewrite now_run by assumption; lia |].
    now rewrite Hp'.
  - rewrite run_app.
    destruct (run_latched more (run H s burst) (emitted + 10000) []) as (_ & Hl'' & _);
      [now apply forallb_arrival | assumption | assumption | rewrite now_run by assumption; lia |].
    exact Hl''.
Qed.

(** A critical entry whose message is a number, under a type other than
    ReferenceError, makes [checkForErrorBasedCrash] throw on
    [message?.includes]: the entry joins the window, nothing is posted and
    the latch is left as it was. *)
Lemma step_feed_numeric (entry : gmap string value) (n : Z) (s : state) :
  get entry "errorType" = VStr "TypeError" -> get entry "message" = VNum n ->
  fst (handle H (Feed entry) s) = Throw TypeError /\
  posted (step H s (Feed entry)) = posted s /\
  crashTriggered (step H s (Feed entry)) = crashTriggered s /\
  timers (step H s (Feed entry)) = timers s.
Proof.
  intros Ht Hm. unfold step, handle, checkForErrorBasedCrash, isCriticalError.
  rewrite Ht, Hm. unfold bindM, lift, gets, modify, ret, Date_now. simpl.
  repeat split.
Qed.

(** Such entries never add up to a crash event, however many arrive and
    however fast. *)
Lemma run_numeric (trace : list event) :
  forall s : state,
    Forall (fun ev => match ev with
                      | Feed entry => get entry "errorType" = VStr "TypeError" /\
                                      exists n, get entry "message" = VNum n
                      | Elapse _ => True
                      | _ => False
                      end) trace ->
    posted (run H s trace) = posted s /\ crashTriggered (run H s trace) = crashTriggered s.
Proof.
  induction trace as [| ev trace IH]; intros s Ha; [now split |].
  apply Forall_cons in Ha as [Hev Ha].
  destruct ev; try contradiction; simpl.
  - destruct (IH (step H s (Feed entry)) Ha) as [-> ->].
    destruct Hev as (Ht & n & Hm).
    destruct (step_feed_numeric entry n s Ht Hm) as (_ & Hp & Hl & _). now split.
  - destruct (IH (step H s (Elapse ms)) Ha) as [-> ->]. now split.
Qed.

End SignalDetector.

(** C1 does not hold on the code.  Five entries with errorType TypeError
    and the number 42 as message, 200 ms apart, are each classified as
    critical, yet from any state the burst posts nothing and leaves the latch
    as it was: [checkForErrorBasedCrash] goes on to
    [entry.message?.includes], which a number does not have, and throws
    before it can call [triggerCrashFromError].  These are the entries the
    listener of the window's [error] event builds when the page throws a
    TypeError whose message is 42: five such errors after injection are
    recorded and posted as page errors, and no crash event is posted. *)
Theorem numeric_burst_posts_no_crash (H : host) (s : state) :
  forallb (fun ev => match ev with Feed entry => classified H entry | _ => true end)
    numericBurst = true /\
  feeds numericBurst = 5%nat /\ elapsed numericBurst <= 1000 /\
  fst (handle H (Feed numericTypeError) s) = Throw TypeError /\
  posted (run H s numericBurst) = posted s /\
  crashTriggered (run H s numericBurst) = crashTriggered s /\
  (let s' := run (pageWith numericTypeErrorThrown) (initial 0) uncaughtBurst in
   map (fun e => (get e "errorType", get e "message")) (page (localErrors s')) =
     repeat (VStr "TypeError", VNum 42) 5 /\
   map msgType (posted s') = repeat "page_error" 5 /\
   crashEvents (posted s') = [] /\ crashTriggered s' = false).
Proof.
  split; [reflexivity |]. split; [reflexivity |]. split; [vm_compute; discriminate |].
  split; [now apply (step_feed_numeric H numericTypeError 42 s) |].
  assert (posted (run H s numericBurst) = posted s /\
          crashTriggered (run H s numericBurst) = crashTriggered s) as [Hp Hl].
  { apply run_numeric. unfold numericBurst.
    repeat (apply Forall_cons; split; [first [exact I | split; [reflexivity | now exists 42]] |]).
    apply Forall_nil_2. }
  split; [exact Hp |]. split; [exact Hl |].
  cbv zeta. vm_compute. repeat split.
Qed.

(** The same burst with the messages as text posts its crash event with
    the third entry, 400 ms in; the nine entries of the next nine seconds
    and a tenth one half a second later, all before the reset is due at
    10400 ms, post no second one. *)
Lemma burst_then_nine_more :
  exists c,
    crashesBy "error_based"
      (posted (run (pageWith wrapperCycle) (initial 0)
                 (burstOfFive ++ nineMore ++ [Elapse 500; Feed typeError]))) = [c] /\
    crashTriggered (run (pageWith wrapperCycle) (initial 0)
                      (burstOfFive ++ nineMore ++ [Elapse 500; Feed typeError])) = true.
Proof.
  destruct (burst_posts_one_crash (pageWith wrapperCycle) (initial 0) burstOfFive)
    as (c & emitted & _ & _ & _ & Hdue & Hmore);
    [reflexivity | reflexivity | reflexivity | reflexivity | vm_compute; discriminate |].
  assert (timers (run (pageWith wrapperCycle) (initial 0) burstOfFive) = [10400]) as Hrun
    by (vm_compute; reflexivity).
  rewrite Hrun in Hdue. injection Hdue as Hdue.
  assert (emitted = 400) as -> by lia.
  exists c. apply (Hmore (nineMore ++ [Elapse 500; Feed typeError])); [reflexivity |].
  vm_compute. reflexivity.
Qed.

(** C6.  With the latch clear, an entry with errorType ReferenceError and
    message "x is not defined" is answered at once by one crash event with
    detectionMethod error_based whose primaryError carries that message. *)
Theorem referenceError_posts_crash (H : host) (s : state) (entry : gmap string value) :
  get entry "errorType" = VStr "ReferenceError" ->
  get entry "message" = VStr "x is not defined" ->
  recentCriticalErrors s = [] -> crashTriggered s = false ->
  exists c primary,
    posted (step H s (Feed entry)) = posted s ++ [crashMessage H c] /\
    Crash.detectionMethod c = "error_based" /\
    Crash.primaryError c = Some primary /\
    get primary "message" = VStr "x is not defined" /\
    crashTriggered (step H s (Feed entry)) = true.
Proof.
  intros Ht Hm _ Hl.
  assert (hasStrings entry = true) as Hs by (unfold hasStrings; now rewrite Ht, Hm).
  assert (classified H entry = true) as Hc by (unfold classified; now rewrite Ht, Hm).
  assert (shouldTrigger entry (windowed entry s) = true) as Hsh
    by (unfold shouldTrigger; now rewrite Ht, strictEq_refl).
  rewrite (step_feed H entry s Hs Hc), Hl, Hsh. simpl.
  destruct (triggerCrashFromError_strings H entry (windowed entry s) Hs)
    as (c & log & -> & Hd & (primary & Hp & Hpm & _) & _).
  exists c, primary. simpl. rewrite Hpm, Hm. repeat split; assumption || reflexivity.
Qed.

Lemma referenceError_posts_crash_witness :
  exists c primary,
    posted (step (pageWith wrapperCycle) (initial 0) (Feed referenceError)) =
      posted (initial 0) ++ [crashMessage (pageWith wrapperCycle) c] /\
    Crash.detectionMethod c = "error_based" /\
    Crash.primaryError c = Some primary /\
    get primary "message" = VStr "x is not defined" /\
    crashTriggered (step (pageWith wrapperCycle) (initial 0) (Feed referenceError)) = true.
Proof.
  apply (referenceError_posts_crash (pageWith wrapperCycle) (initial 0) referenceError);
    reflexivity.
Defined.

(** ** The DOM-based detector *)

Lemma step_DomCheck_none (H : host) (s : state) (doc : document) :
  detectDOMCrash doc = None -> step H s (DomCheck doc) = s.
Proof. intros Hd. unfold step, handle, checkForDOMCrash. now rewrite Hd. Qed.

Lemma step_DomCheck_same (H : host) (s : state) (doc : document) (crash : domCrash) :
  detectDOMCrash doc = Some crash -> lastDOMCrashReason s = Some (reason crash) ->
  step H s (DomCheck doc) = s.
Proof.
  intros Hd Hr. unfold step, handle, checkForDOMCrash, bindM, gets. rewrite Hd. simpl.
  now rewrite bool_decide_eq_true_2.
Qed.

Lemma step_DomCheck_latched (H : host) (s : state) (doc : document) (crash : domCrash) :
  detectDOMCrash doc = Some crash -> lastDOMCrashReason s <> Some (reason crash) ->
  crashTriggered s = true ->
  step H s (DomCheck doc) = set_lastDOMCrashReason (Some (reason crash)) s.
Proof.
  intros Hd Hr Hl. unfold step, handle, checkForDOMCrash, bindM, gets, modify. rewrite Hd. simpl.
  rewrite bool_decide_eq_false_2 by congruence. simpl. now rewrite Hl.
Qed.

Lemma step_DomCheck_new (H : host) (s : state) (doc : document) (crash : domCrash) :
  detectDOMCrash doc = Some crash -> lastDOMCrashReason s <> Some (reason crash) ->
  crashTriggered s = false ->
  exists c log,
    step H s (DomCheck doc) =
      set_posted (fun l => l ++ [crashMessage H c])
        (set_native (fun l => l ++ [log]) (set_lastDOMCrashReason (Some (reason crash)) s)) /\
    Crash.detectionMethod c = "dom_based" /\
    Crash.reason c = reason crash /\
    Crash.text c = Some (text crash) /\ Crash.html c = Some (html crash) /\
    snapshotOf s c.
Proof.
  intros Hd Hr Hl.
  unfold step, handle, checkForDOMCrash, bindM, gets, modify, ret, isoNow, Date_now,
    sendToContentScript, _log.
  rewrite Hd. simpl. rewrite bool_decide_eq_false_2 by congruence. simpl. rewrite Hl. simpl.
  eexists. eexists. split; [reflexivity |]. simpl.
  repeat split; auto.
Qed.

(** C7, as the code has it.  A check posts one dom_based crash event exactly
    when a visible match is found whose reason differs from the remembered
    one and the signal detector is not latched; whenever a match is found its
    reason is the remembered one afterwards, also when the latch has held the
    event back; and checking the same document again posts nothing. *)
Theorem checkForDOMCrash_posts_on_new_reason (H : host) (s : state) (doc : document) :
  let s' := step H s (DomCheck doc) in
  match detectDOMCrash doc with
  | Some crash =>
      lastDOMCrashReason s' = Some (reason crash) /\
      if bool_decide (lastDOMCrashReason s <> Some (reason crash)) && negb (crashTriggered s)
      then exists c, posted s' = posted s ++ [crashMessage H c] /\
                     Crash.detectionMethod c = "dom_based" /\
                     Crash.reason c = reason crash
      else posted s' = posted s
  | None => s' = s
  end /\
  posted (step H s' (DomCheck doc)) = posted s'.
Proof.
  cbv zeta. destruct (detectDOMCrash doc) as [crash |] eqn:Hd.
  - destruct (decide (lastDOMCrashReason s = Some (reason crash))) as [Hr | Hr].
    + rewrite (step_DomCheck_same H s doc crash Hd Hr).
      rewrite (step_DomCheck_same H s doc crash Hd Hr).
      rewrite (bool_decide_eq_false_2 _) by tauto. simpl. auto.
    + rewrite (bool_decide_eq_true_2 _ Hr). simpl.
      destruct (crashTriggered s) eqn:Hl; simpl.
      * rewrite (step_DomCheck_latched H s doc crash Hd Hr Hl). simpl.
        rewrite (step_DomCheck_same H _ doc crash Hd) by reflexivity. auto.
      * destruct (step_DomCheck_new H s doc crash Hd Hr Hl) as (c & log & -> & Hm & Hc & _).
        simpl. rewrite (step_DomCheck_same H _ doc crash Hd) by reflexivity. simpl.
        split; [| reflexivity]. split; [reflexivity |]. now exists c.
  - rewrite !(step_DomCheck_none H _ doc Hd). auto.
Qed.

(** C7 as stated fails: after a check made while the latch was set, the
    latch is clear again, the error boundary is the first visible match, no
    dom_based event has reported its reason, and yet the check posts
    nothing. *)
Lemma checkForDOMCrash_silent_after_latch :
  let H := pageWith wrapperCycle in
  let s := run H (initial 0) latchedWhileChecked in
  crashTriggered s = false /\
  (exists crash, detectDOMCrash errorBoundaryShown = Some crash /\
                 lastReportedReason (posted s) <> Some (reason crash)) /\
  posted (step H s (DomCheck errorBoundaryShown)) = posted s.
Proof.
  cbv zeta. split; [vm_compute; reflexivity |]. split; [| vm_compute; reflexivity].
  exists {| reason := "Element: .error-boundary";
            text := "Something went wrong";
            html := "<div class=error-boundary>Something went wrong</div>" |}.
  split; [vm_compute; reflexivity | vm_compute; discriminate].
Qed.

(** ** The rolling buffers *)

Section Buffers.

Variable H : host.

(** The capture paths that push without looking at the length. *)
Lemma console_assert_appends (s : state) :
  console (localErrors (step H s (ConsoleAssert (VBool false) []))) =
  console (localErrors s) ++
    [obj [("type", VStr "console.assert"); ("errorType", VStr "AssertionError");
          ("message", VStr "Assertion failed"); ("stack", VStr (currentStack H));
          ("timestamp", VStr (toISOString H (now s))); ("url", VStr (href H))]].
Proof. reflexivity. Qed.

Lemma onXhrFailure_appends (s : state) (type error : string) (req : request) :
  api (localErrors (snd (onXhrFailure H type error req s))) =
  api (localErrors s) ++
    [obj [("type", VStr type); ("method", reqMethod req); ("url", VStr (reqUrl req));
          ("status", VNum 0); ("error", VStr error);
          ("duration", VNum (now s - start req)); ("isError", VBool true);
          ("timestamp", VStr (toISOString H (now s)))]].
Proof. reflexivity. Qed.

(** The sibling paths evict: a push followed by the length test leaves the
    last [cap] elements, the new one among them. *)
Lemma push_shiftIfOver_capped (c : category) (cap : nat) (entry : gmap string value) (s : state) :
  (length (buffer c (localErrors s)) <= cap)%nat ->
  buffer c (localErrors (snd (bindM (push c entry) (fun _ => shiftIfOver c cap) s))) =
  sliceLast cap (buffer c (localErrors s) ++ [entry]).
Proof.
  intros Hlen. unfold bindM, push, shiftIfOver, modify, sliceLast. simpl.
  destruct c; simpl in *; rewrite length_app; simpl;
    (case_bool_decide as Hover;
     [ match goal with
       | |- context [(?n + 1 - cap)%nat] => replace (n + 1 - cap)%nat with 1%nat by lia
       end; reflexivity
     | match goal with
       | |- context [(?n + 1 - cap)%nat] =>
           replace (n + 1 - cap)%nat with 0%nat by (rewrite ?length_app in Hover; simpl in Hover; lia)
       end; reflexivity ]).
Qed.

Lemma console_warn_capped (a : list value) (s : state) :
  (length (console (localErrors s)) <= 100)%nat ->
  (length (console (localErrors (step H s (ConsoleWarn a)))) <= 100)%nat.
Proof.
  intros Hlen. unfold step, handle, console_warn.
  unfold bindM at 1, lift at 1.
  destruct (formatArgs H a) as [message |]; [| exact Hlen].
  unfold bindM, isoNow, gets, modify, push, shiftIfOver, sendToContentScript, _warn. simpl.
  case_bool_decide as Hover; [| lia].
  destruct (console (localErrors s)); simpl in *; rewrite ?length_app in *; simpl in *; lia.
Qed.

End Buffers.

(** C4 fails on the code.  A failed [console.assert] appends to the console
    buffer without evicting, in every state, and so do the XHR [error] and
    [timeout] listeners on the API buffer; after a hundred console errors one
    failed assertion leaves 101 entries in a buffer of capacity 100. *)
Theorem console_assert_exceeds_capacity (H : host) :
  (forall s, length (console (localErrors (step H s (ConsoleAssert (VBool false) [])))) =
             S (length (console (localErrors s)))) /\
  (forall s req, length (api (localErrors (step H s (XhrError req)))) =
                 S (length (api (localErrors s)))) /\
  (forall s req, length (api (localErrors (step H s (XhrTimeout req)))) =
                 S (length (api (localErrors s)))) /\
  length (console (localErrors
            (run (pageWith wrapperCycle) (initial 0)
                 (hundredErrors ++ [ConsoleAssert (VBool false) []])))) = 101%nat.
Proof.
  split; [| split; [| split]].
  - intros s. rewrite console_assert_appends, length_app. simpl. lia.
  - intros s req. unfold step, handle, onXhrError.
    rewrite onXhrFailure_appends, length_app. simpl. lia.
  - intros s req. unfold step, handle, onXhrTimeout.
    rewrite onXhrFailure_appends, length_app. simpl. lia.
  - vm_compute. reflexivity.
Qed.

(** ** Invariants of the handlers *)

Section Preservation.

Context {A : Type} (I : state -> Prop).

Lemma preserves_ret (a : A) : preserves I (ret a).
Proof. intros s Hs. exact Hs. Qed.

Lemma preserves_lift (o : outcome A) : preserves I (lift o).
Proof. intros s Hs. exact Hs. Qed.

Lemma preserves_throw (e : exn) : preserves I (@throw A e).
Proof. intros s Hs. exact Hs. Qed.

Lemma preserves_gets (f : state -> A) : preserves I (gets f).
Proof. intros s Hs. exact Hs. Qed.

Lemma preserves_bind {B : Type} (m : M B) (k : B -> M A) :
  preserves I m -> (forall b, preserves I (k b)) -> preserves I (bindM m k).
Proof.
  intros Hm Hk s Hs. unfold bindM. specialize (Hm s Hs).
  destruct (m s) as [[b | e] s']; simpl in *; [now apply Hk | assumption].
Qed.

Lemma preserves_tryCatch (m : M A) (handler : exn -> M A) :
  preserves I m -> (forall e, preserves I (handler e)) -> preserves I (tryCatch m handler).
Proof.
  intros Hm Hk s Hs. unfold tryCatch. specialize (Hm s Hs).
  destruct (m s) as [[b | e] s']; simpl in *; [assumption | now apply Hk].
Qed.

End Preservation.

Lemma preserves_modify (I : state -> Prop) (f : state -> state) :
  (forall s, I s -> I (f s)) -> preserves I (modify f).
Proof. intros Hf s Hs. now apply Hf. Qed.

Lemma sliceLast_length {A : Type} (n : nat) (l : list A) : (length (sliceLast n l) <= n)%nat.
Proof. unfold sliceLast. rewrite length_skipn. lia. Qed.

Section CrashBounds.

Variable H : host.

Lemma crashesBounded_frame (f : state -> state) :
  (forall s, posted (f s) = posted s) -> preserves crashesBounded (modify f).
Proof.
  intros Hf. apply preserves_modify. intros s Hs. unfold crashesBounded. now rewrite Hf.
Qed.

Lemma crashesBounded_send_entry (type : string) (e : gmap string value) :
  preserves crashesBounded (sendToContentScript H type (Entry e)).
Proof.
  apply preserves_modify. intros s Hs. unfold crashesBounded. simpl.
  apply Forall_app. split; [assumption |]. constructor; [exact Logic.I | constructor].
Qed.

Lemma crashesBounded_send_crash (type : string) (c : Crash.t) :
  bounded c -> preserves crashesBounded (sendToContentScript H type (Crashed c)).
Proof.
  intros Hc. apply preserves_modify. intros s Hs. unfold crashesBounded. simpl.
  apply Forall_app. split; [assumption |]. constructor; [exact Hc | constructor].
Qed.

(** Walks through a handler: binds, branches and the primitives that leave
    the posted messages alone or post an entry; [leaf] closes the calls of
    handlers already dealt with. *)
Ltac walk_with leaf :=
  cbv zeta;
  repeat first
    [ match goal with
      | |- preserves _ (ret _) => apply preserves_ret
      | |- preserves _ (lift _) => apply preserves_lift
      | |- preserves _ (gets _) => apply preserves_gets
      | |- preserves _ (throw _) => apply preserves_throw
      | |- preserves _ (sendToContentScript _ _ (Entry _)) => apply crashesBounded_send_entry
      | |- preserves _ (modify _) => apply crashesBounded_frame; reflexivity
      | |- preserves _ (bindM _ _) => apply preserves_bind; [| intros ?]
      | |- preserves _ (tryCatch _ _) => apply preserves_tryCatch; [| intros ?]
      | |- preserves _ (if ?c then _ else _) => destruct c
      | |- preserves _ (match ?x with _ => _ end) => destruct x
      end
    | leaf ].

Ltac walk := walk_with fail.

Lemma triggerCrashFromError_bounded (entry : gmap string value) :
  preserves crashesBounded (triggerCrashFromError H entry).
Proof.
  unfold triggerCrashFromError, _log, Date_now, isoNow. walk.
  apply crashesBounded_send_crash. unfold bounded. simpl.
  repeat split; apply sliceLast_length.
Qed.

Lemma checkForErrorBasedCrash_bounded (entry : gmap string value) :
  preserves crashesBounded (checkForErrorBasedCrash H entry).
Proof.
  unfold checkForErrorBasedCrash, Date_now.
  walk_with ltac:(apply triggerCrashFromError_bounded).
Qed.

Lemma checkForDOMCrash_bounded (doc : document) :
  preserves crashesBounded (checkForDOMCrash H doc).
Proof.
  unfold checkForDOMCrash, _log, Date_now, isoNow. walk.
  apply crashesBounded_send_crash. unfold bounded. simpl.
  repeat split; try apply sliceLast_length. lia.
Qed.

Lemma fetch_failed_bounded (c : fetchCall) (err : exn) :
  preserves crashesBounded (fetch_failed H c err).
Proof. unfold fetch_failed, push, _log, Date_now, isoNow. walk. Qed.

Lemma handle_bounded (ev : event) : preserves crashesBounded (handle H ev).
Proof.
  destruct ev; unfold handle.
  - unfold console_error, push, shiftIfOver, _log, _error, isoNow.
    walk_with ltac:(apply checkForErrorBasedCrash_bounded).
  - unfold console_warn, push, shiftIfOver, _warn, isoNow. walk.
  - unfold console_assert, push, _log, _assert, isoNow. walk.
  - unfold onError, push, shiftIfOver, _log, isoNow.
    walk_with ltac:(apply checkForErrorBasedCrash_bounded).
  - unfold onUnhandledRejection, push, shiftIfOver, _log, isoNow.
    walk_with ltac:(apply checkForErrorBasedCrash_bounded).
  - unfold onLoadend, push, shiftIfOver, _log, Date_now, isoNow. walk.
  - unfold onXhrError, onXhrFailure, push, Date_now, isoNow. walk.
  - unfold onXhrTimeout, onXhrFailure, push, Date_now, isoNow. walk.
  - unfold discard, fetch_settled, push, shiftIfOver, _log, isoNow.
    walk_with ltac:(apply fetch_failed_bounded).
  - apply checkForDOMCrash_bounded.
  - apply checkForErrorBasedCrash_bounded.
  - walk.
  - unfold runTimer, cooldownReset, Date_now. walk.
Qed.

Lemma run_bounded (trace : list event) :
  forall s, crashesBounded s -> crashesBounded (run H s trace).
Proof.
  induction trace as [| ev trace IH]; intros s Hs; [assumption |].
  simpl. apply IH. now apply handle_bounded.
Qed.

End CrashBounds.

(** The lists of the event [triggerCrashFromError] posts are the tails of
    the agent's lists; when it throws it has posted nothing. *)
Lemma triggerCrashFromError_snapshot (H : host) (entry : gmap string value) (s : state) :
  match triggerCrashFromError H entry s with
  | (Ok _, s') =>
      exists c, posted s' = posted s ++ [crashMessage H c] /\
                Crash.recentCriticalErrors c = Some (sliceLast 10 (recentCriticalErrors s)) /\
                snapshotOf s c
  | (Throw _, s') => posted s' = posted s
  end.
Proof.
  unfold triggerCrashFromError, bindM, lift, gets, modify, ret, Date_now, isoNow,
    sendToContentScript, _log.
  destruct (sliceOpt (get entry "message") 100) as [shown |]; simpl; [| reflexivity].
  destruct (String_ (objects H) (get entry "errorType")) as [kind |]; simpl; [| reflexivity].
  destruct (String_ (objects H) shown) as [head |]; simpl; [| reflexivity].
  eexists. split; [reflexivity |]. split; [reflexivity |].
  unfold snapshotOf. simpl. auto 10.
Qed.

(** A DOM check posts nothing, or one event whose lists are the tails of the
    agent's lists. *)
Lemma checkForDOMCrash_snapshot (H : host) (doc : document) (s : state) :
  posted (step H s (DomCheck doc)) = posted s \/
  exists c, posted (step H s (DomCheck doc)) = posted s ++ [crashMessage H c] /\
            Crash.recentCriticalErrors c = None /\ snapshotOf s c.
Proof.
  destruct (detectDOMCrash doc) as [crash |] eqn:Hd;
    [| left; now rewrite step_DomCheck_none].
  destruct (decide (lastDOMCrashReason s = Some (reason crash))) as [Hr | Hr];
    [left; now rewrite (step_DomCheck_same H s doc crash) |].
  destruct (crashTriggered s) eqn:Hl;
    [left; now rewrite (step_DomCheck_latched H s doc crash) |].
  right. unfold step, handle, checkForDOMCrash, bindM, gets, modify, ret, isoNow, Date_now,
    sendToContentScript, _log.
  rewrite Hd. simpl. rewrite bool_decide_eq_false_2 by congruence. simpl. rewrite Hl. simpl.
  eexists. split; [reflexivity |]. split; [reflexivity |].
  unfold snapshotOf. simpl. auto 10.
Qed.

(** C9.  Whatever happens to the agent after injection, every crash event
    it has posted carries at most 10 recent critical errors and at most 30,
    20, 30 and 50 console, page, API and request entries; and the lists of an
    event a detector posts are the tails of the agent's lists at that
    moment. *)
Theorem crash_events_bounded (H : host) (t0 : Z) (trace : list event) :
  crashesBounded (run H (initial t0) trace) /\
  (forall entry s,
     match triggerCrashFromError H entry s with
     | (Ok _, s') =>
         exists c, posted s' = posted s ++ [crashMessage H c] /\
                   Crash.recentCriticalErrors c = Some (sliceLast 10 (recentCriticalErrors s)) /\
                   snapshotOf s c
     | (Throw _, s') => posted s' = posted s
     end) /\
  (forall doc s,
     posted (step H s (DomCheck doc)) = posted s \/
     exists c, posted (step H s (DomCheck doc)) = posted s ++ [crashMessage H c] /\
               Crash.recentCriticalErrors c = None /\ snapshotOf s c).
Proof.
  split; [| split].
  - apply run_bounded. constructor.
  - intros entry s. apply triggerCrashFromError_snapshot.
  - intros doc s. apply checkForDOMCrash_snapshot.
Qed.

(** ** Network entries *)

Lemma last_shifted {A : Type} (cap : nat) (l : list A) (x : A) :
  (1 <= cap)%nat ->
  last (if bool_decide (cap < length (l ++ [x]))%nat then tail (l ++ [x]) else l ++ [x]) = Some x.
Proof.
  intros Hc. case_bool_decide as Hlen; [| apply last_snoc].
  destruct l as [| y l]; [simpl in Hlen; lia |]. simpl. apply last_snoc.
Qed.

Section Network.

Variable H : host.

(** What the [loadend] listener records. *)
Lemma onLoadend_records (s : state) (req : request) (x : xhr) :
  let s' := step H s (Loadend req x) in
  exists entry,
    last (apiRequests (localErrors s')) = Some entry /\
    get entry "method" = reqMethod req /\
    get entry "url" = VStr (reqUrl req) /\
    get entry "status" = VNum (status x) /\
    get entry "isError" = VBool (bool_decide (status x = 0) || bool_decide (400 <= status x)) /\
    if bool_decide (status x = 0) || bool_decide (400 <= status x)
    then exists details, last (api (localErrors s')) = Some (spread entry "errorDetails" details)
    else api (localErrors s') = api (localErrors s).
Proof.
  cbv zeta. unfold step, handle, onLoadend.
  cbv beta iota zeta delta [bindM lift gets modify ret Date_now isoNow sendToContentScript
    push shiftIfOver _log].
  get_obj. simpl truthy.
  destruct (bool_decide (status x = 0) || bool_decide (400 <= status x)) eqn:Herr;
    destruct (String_ (objects H) (reqMethod req)); simpl;
    eexists;
    (split; [apply last_shifted; lia |]);
    (split; [get_obj; reflexivity |]); (split; [get_obj; reflexivity |]);
    (split; [get_obj; reflexivity |]); (split; [get_obj; rewrite ?Herr; reflexivity |]);
    try reflexivity; eexists; apply last_shifted; lia.
Qed.

(** What the fetch wrapper records for a response, when the method and the
    URL it logs are strings. *)
Lemma fetch_settled_records (s : state) (c : fetchCall) (t : Z) (r : response) (m u : string) :
  fMethod c = VStr m -> fUrl c = VStr u ->
  let result := fetch_settled H c t (Resolved r) s in
  fst result = Ok r /\
  exists entry,
    last (apiRequests (localErrors (snd result))) = Some entry /\
    get entry "method" = VStr m /\
    get entry "url" = VStr u /\
    get entry "status" = VNum (rStatus r) /\
    get entry "isError" = VBool (negb (ok r)) /\
    if negb (ok r)
    then exists details,
           last (api (localErrors (snd result))) = Some (spread entry "errorDetails" details)
    else api (localErrors (snd result)) = api (localErrors s).
Proof.
  intros Hm Hu. cbv zeta. unfold fetch_settled, tryCatch.
  unfold bindM, lift, gets, modify, ret, isoNow, sendToContentScript, push, shiftIfOver, _log.
  rewrite Hm, Hu. cbv zeta.
  destruct (negb (ok r)) eqn:Herr; simpl; (split; [reflexivity |]); eexists;
    (split; [apply last_shifted; lia |]);
    (split; [get_obj; reflexivity |]); (split; [get_obj; reflexivity |]);
    (split; [get_obj; reflexivity |]); (split; [get_obj; rewrite ?Herr; reflexivity |]);
    try reflexivity; eexists; apply last_shifted; lia.
Qed.

End Network.

(** C8 fails on the code for fetch.  The fetch wrapper records a response
    with status 304 with [isError] true and appends it to the API errors,
    although 304 is neither 0 nor at least 400; the XHR listener records the
    same status with [isError] false and leaves the API errors alone. *)
Theorem fetch_marks_304_as_error (H : host) (s : state) (t : Z) :
  let viaFetch := step H s (FetchSettled fetchOrders t (Resolved notModifiedResponse)) in
  let viaXhr := step H s (Loadend getOrders notModified) in
  (exists entry, last (apiRequests (localErrors viaFetch)) = Some entry /\
                 get entry "status" = VNum 304 /\ get entry "isError" = VBool true) /\
  (exists entry, last (api (localErrors viaFetch)) = Some entry /\
                 get entry "status" = VNum 304) /\
  (exists entry, last (apiRequests (localErrors viaXhr)) = Some entry /\
                 get entry "status" = VNum 304 /\ get entry "isError" = VBool false) /\
  api (localErrors viaXhr) = api (localErrors s).
Proof.
  cbv zeta.
  destruct (fetch_settled_records H s fetchOrders t notModifiedResponse "GET" "/api/orders"
              eq_refl eq_refl) as (_ & entry & Hlast & _ & _ & Hst & Herr & Hapi).
  change (negb (ok notModifiedResponse)) with true in Herr, Hapi.
  destruct Hapi as [details Hapi].
  destruct (onLoadend_records H s getOrders notModified)
    as (entry' & Hlast' & _ & _ & Hst' & Herr' & Hapi').
  change (bool_decide (status notModified = 0) || bool_decide (400 <= status notModified))
    with false in Herr', Hapi'.
  assert (step H s (FetchSettled fetchOrders t (Resolved notModifiedResponse)) =
          snd (fetch_settled H fetchOrders t (Resolved notModifiedResponse) s)) as ->.
  { unfold step, handle, discard, bindM.
    destruct (fetch_settled H fetchOrders t (Resolved notModifiedResponse) s) as [[r |] s'];
      reflexivity. }
  split; [exists entry; repeat split; assumption |].
  split; [| split; [exists entry'; repeat split; assumption | assumption]].
  eexists. split; [eassumption |]. rewrite get_spread_ne by discriminate.
  assumption.
Qed.

(** ** Transparency of the interceptors *)

Section Transparency.

Variable H : host.

(** When the capture does not throw, [console.error] ends with the call of
    the saved method on the arguments it was given. *)
Lemma console_error_forwards (a : list value) (s : state) :
  fst (console_error H a s) = Ok tt ->
  last (native (snd (console_error H a s))) = Some {| method := "error"; args := a |}.
Proof.
  unfold console_error. cbv zeta. unfold bindM at 1, lift at 1.
  destruct (mapM _ a) as [infos |]; [| discriminate].
  unfold bindM at 1, lift at 1.
  destruct (formatArgs H a) as [message |]; [| discriminate].
  unfold bindM, isoNow, gets, modify, push, shiftIfOver, sendToContentScript, _log, _error.
  simpl.
  match goal with
  | |- context [checkForErrorBasedCrash H ?e ?s1] =>
      destruct (checkForErrorBasedCrash H e s1) as [[[] |] s2]
  end; simpl; [| discriminate].
  intros _. apply last_snoc.
Qed.

(** A rejection with an Error object is passed on unchanged, when the log
    line can be written. *)
Lemma fetch_settled_rethrows (s : state) (c : fetchCall) (t : Z) (l : loc) (m u : string) :
  fMethod c = VStr m -> fUrl c = VStr u -> coercible (objects H) ->
  fst (fetch_settled H c t (Rejected (VRef l)) s) = Throw (Raised (VRef l)).
Proof.
  intros Hm Hu Hc. unfold fetch_settled, fetch_failed, errProp.
  unfold bindM, lift, gets, modify, ret, throw, Date_now, isoNow, sendToContentScript, push, _log.
  rewrite Hm, Hu. simpl.
  destruct (String_coercible (objects H) (get (props (objects H l)) "message") Hc) as [e ->].
  reflexivity.
Qed.

End Transparency.

(** C10 fails on the code.  [console.error(Object.create(null))] throws out
    of the override before the saved method is called, and a fetch rejected
    with [null] is rejected by the wrapper with a TypeError of its own. *)
Theorem interception_not_transparent (s : state) (t : Z) :
  console_error (pageWith bareHeap) [VRef 0%nat] s = (Throw TypeError, s) /\
  fst (fetch_settled (pageWith wrapperCycle) fetchOrders t (Rejected VNull) s) = Throw TypeError.
Proof. split; reflexivity. Qed.

(** * Further properties of the code *)

(** ** Tools *)

(** Walks through a handler for an invariant: [leaf] closes the primitives
    and the handlers already dealt with, and is tried first. *)
Ltac through leaf :=
  cbv zeta;
  repeat first
    [ leaf
    | match goal with
      | |- preserves _ (ret _) => apply preserves_ret
      | |- preserves _ (lift _) => apply preserves_lift
      | |- preserves _ (gets _) => apply preserves_gets
      | |- preserves _ (throw _) => apply preserves_throw
      | |- preserves _ (bindM _ _) => apply preserves_bind; [| intros ?]
      | |- preserves _ (tryCatch _ _) => apply preserves_tryCatch; [| intros ?]
      | |- preserves _ (if ?c then _ else _) => destruct c eqn:?
      | |- preserves _ (match ?x with _ => _ end) => destruct x eqn:?
      end ].

(** The primitives that leave an invariant alone because the state they
    produce has the fields it reads unchanged. *)
Ltac frame_leaf :=
  idtac;
  match goal with
  | |- preserves _ (sendToContentScript _ _ _) => apply preserves_modify; intros ? Hs; exact Hs
  | |- preserves _ (push _ _) => apply preserves_modify; intros ? Hs; exact Hs
  | |- preserves _ (shiftIfOver _ _) => apply preserves_modify; intros ? Hs; exact Hs
  | |- preserves _ (modify _) => apply preserves_modify; intros ? Hs; exact Hs
  end.

(** Opens the handler of an event down to the primitives and to the two
    detectors, the timer callback and the [catch] block of fetch. *)
Ltac open_handler :=
  unfold handle, console_error, console_warn, console_assert, onError, onUnhandledRejection,
    onLoadend, onXhrError, onXhrTimeout, onXhrFailure, discard, fetch_settled,
    _log, _error, _warn, _assert, Date_now, isoNow.

Lemma run_preserves (H : host) (I : state -> Prop) :
  (forall ev, preserves I (handle H ev)) ->
  forall trace s, I s -> I (run H s trace).
Proof.
  intros Hh trace. induction trace as [| ev trace IH]; intros s Hs; [assumption |].
  simpl. apply IH. now apply Hh.
Qed.

Lemma preserves_bind_gets {A B : Type} (I : state -> Prop) (f : state -> B) (k : B -> M A) :
  (forall s, I s -> I (snd (k (f s) s))) -> preserves I (bindM (gets f) k).
Proof. intros Hk s Hs. unfold bindM, gets. now apply Hk. Qed.

Lemma preserves_push_shift {A : Type} (I : state -> Prop) (c : category)
    (entry : gmap string value) (cap : nat) (k : unit -> M A) :
  (forall s, I s -> I (snd (shiftIfOver c cap (snd (push c entry s))))) ->
  (forall u, preserves I (k u)) ->
  preserves I (bindM (push c entry) (fun _ => bindM (shiftIfOver c cap) k)).
Proof. intros Hp Hk s Hs. unfold bindM. simpl. apply Hk. now apply Hp. Qed.

Lemma slice0_length (n : N) (s : string) :
  String.length (Str.slice0 n s) = Nat.min (N.to_nat n) (String.length s).
Proof.
  unfold Str.slice0. generalize (N.to_nat n) as k. clear n.
  induction s as [| c s IH]; intros [| k]; simpl; try reflexivity.
  now rewrite IH.
Qed.

Lemma crashEvents_snoc_entry (l : list message) (m : message) (e : gmap string value) :
  data m = Entry e -> crashEvents (l ++ [m]) = crashEvents l.
Proof. intros Hm. unfold crashEvents. rewrite omap_app. simpl. rewrite Hm. apply app_nil_r. Qed.

Lemma crashEvents_snoc_crash (H : host) (l : list message) (c : Crash.t) :
  crashEvents (l ++ [crashMessage H c]) = crashEvents l ++ [c].
Proof. unfold crashEvents. now rewrite omap_app. Qed.

(** What [triggerCrashFromError] leaves behind: the latch is set at once; the
    event is posted and the reset scheduled only if the log line and the
    reason could be written. *)
Lemma triggerCrashFromError_cases (H : host) (entry : gmap string value) (s : state) :
  (exists e s',
     triggerCrashFromError H entry s = (Throw e, s') /\
     crashTriggered s' = true /\ timers s' = timers s /\ posted s' = posted s /\
     recentCriticalErrors s' = recentCriticalErrors s /\
     lastDOMCrashReason s' = lastDOMCrashReason s /\ localErrors s' = localErrors s /\
     now s' = now s) \/
  (exists c log,
     triggerCrashFromError H entry s =
       (Ok tt, set_timers (fun l => l ++ [now s + 10000])
                 (set_posted (fun l => l ++ [crashMessage H c])
                    (set_native (fun l => l ++ [log]) (set_crashTriggered true s)))) /\
     Crash.detectionMethod c = "error_based").
Proof.
  unfold triggerCrashFromError, bindM, lift, gets, modify, ret, Date_now, isoNow,
    sendToContentScript, _log.
  destruct (sliceOpt (get entry "message") 100) as [shown |] eqn:Hshown; simpl;
    [| left; eexists; eexists; split; [reflexivity | repeat split]].
  destruct (String_ (objects H) (get entry "errorType")) as [kind |]; simpl;
    [| left; eexists; eexists; split; [reflexivity | repeat split]].
  destruct (String_ (objects H) shown) as [head |]; simpl;
    [| left; eexists; eexists; split; [reflexivity | repeat split]].
  right. eexists. eexists. split; reflexivity.
Qed.

(** ** The DOM-based detector *)

Lemma scan_first_visible (doc : document) (selectors : list string) :
  match scan doc selectors with
  | Some crash =>
      exists before sel after el,
        selectors = before ++ sel :: after /\
        Forall (fun s => qualifies (doc s) = false) before /\
        doc sel = Element el /\ qualifies (doc sel) = true /\
        reason crash = "Element: " +:+ sel /\
        text crash = Str.slice0 500%N (Str.trim (default "" (innerText el))) /\
        html crash = match outerHTML el with Some m => Str.slice0 1000%N m | None => "" end
  | None => Forall (fun s => qualifies (doc s) = false) selectors
  end.
Proof.
  induction selectors as [| sel rest IH]; simpl; [constructor |].
  assert (qualifies (doc sel) = false ->
          match scan doc rest with
          | Some crash =>
              exists before sel0 after el,
                sel :: rest = before ++ sel0 :: after /\
                Forall (fun s => qualifies (doc s) = false) before /\
                doc sel0 = Element el /\ qualifies (doc sel0) = true /\
                reason crash = "Element: " +:+ sel0 /\
                text crash = Str.slice0 500%N (Str.trim (default "" (innerText el))) /\
                html crash = match outerHTML el with Some m => Str.slice0 1000%N m | None => "" end
          | None => Forall (fun s => qualifies (doc s) = false) (sel :: rest)
          end) as Hskip.
  { intros Hq. destruct (scan doc rest) as [crash |].
    - destruct IH as (before & sel0 & after & el & -> & Hb & Hrest).
      exists (sel :: before), sel0, after, el. split; [reflexivity |].
      split; [now constructor | exact Hrest].
    - now constructor. }
  destruct (doc sel) as [| | el] eqn:Hd; try (apply Hskip; reflexivity).
  destruct (offsetParentIsNull el) eqn:Hv; simpl; [apply Hskip; simpl; now rewrite Hv |].
  case_bool_decide as Hlen; [apply Hskip; simpl; rewrite Hv; simpl; now rewrite bool_decide_eq_true_2 |].
  exists [], sel, rest, el. simpl.
  repeat split; try assumption; try constructor.
  rewrite Hd. simpl. rewrite Hv. simpl. now rewrite bool_decide_eq_false_2.
Qed.

(** X1.  [detectDOMCrash] reports the first selector of [CRASH_SELECTORS], in
    order, whose element is visible and has at least five characters of
    trimmed text; elements that are hidden or nearly empty and selectors
    that throw are passed over.  The text it reports has 5 to 500 characters,
    the markup at most 1000. *)
Theorem detectDOMCrash_first_visible (doc : document) :
  match detectDOMCrash doc with
  | Some crash =>
      exists before sel after el,
        CRASH_SELECTORS = before ++ sel :: after /\
        Forall (fun s => qualifies (doc s) = false) before /\
        doc sel = Element el /\ qualifies (doc sel) = true /\
        reason crash = "Element: " +:+ sel /\
        (5 <= String.length (text crash) <= 500)%nat /\
        (String.length (html crash) <= 1000)%nat
  | None => Forall (fun s => qualifies (doc s) = false) CRASH_SELECTORS
  end.
Proof.
  unfold detectDOMCrash. pose proof (scan_first_visible doc CRASH_SELECTORS) as Hs.
  destruct (scan doc CRASH_SELECTORS) as [crash |]; [| exact Hs].
  destruct Hs as (before & sel & after & el & Hsel & Hb & Hd & Hq & Hr & Ht & Hh).
  exists before, sel, after, el. repeat split; try assumption.
  - rewrite Ht, slice0_length. rewrite Hd in Hq. simpl in Hq.
    apply andb_true_iff in Hq as [_ Hq]. apply negb_true_iff, bool_decide_eq_false in Hq.
    change (N.to_nat 500) with 500%nat. lia.
  - rewrite Ht, slice0_length. change (N.to_nat 500) with 500%nat. lia.
  - rewrite Hh. destruct (outerHTML el); [| simpl; lia].
    rewrite slice0_length. change (N.to_nat 1000) with 1000%nat. lia.
Qed.

(** X2.  The two detectors do not see each other alike.  Take a state with
    the latch clear, a DOM that shows a crash screen whose reason is not the
    remembered one, and a ReferenceError entry whose message is a string.
    The crash screen the DOM check reports does not keep the signal detector
    from reporting the error that follows: both events are posted.  The
    other way round only the error is reported: the DOM check finds the latch
    set, posts nothing, and remembers the reason all the same. *)
Theorem detector_order_matters (H : host) (s : state) (doc : document) (shown : domCrash)
    (entry : gmap string value) :
  detectDOMCrash doc = Some shown -> lastDOMCrashReason s <> Some (reason shown) ->
  crashTriggered s = false ->
  hasStrings entry = true -> get entry "errorType" = VStr "ReferenceError" ->
  (exists c1 c2,
     crashEvents (posted (run H s [DomCheck doc; Feed entry])) =
       crashEvents (posted s) ++ [c1; c2] /\
     Crash.detectionMethod c1 = "dom_based" /\ Crash.detectionMethod c2 = "error_based") /\
  (exists c,
     crashEvents (posted (run H s [Feed entry; DomCheck doc])) = crashEvents (posted s) ++ [c] /\
     Crash.detectionMethod c = "error_based" /\
     lastDOMCrashReason (run H s [Feed entry; DomCheck doc]) = Some (reason shown)).
Proof.
  intros Hd Hr Hl Hs Ht.
  assert (classified H entry = true) as Hc
    by (unfold classified, isCriticalError; now rewrite Ht).
  assert (forall s0, shouldTrigger entry s0 = true) as Hsh
    by (intros s0; unfold shouldTrigger; now rewrite Ht, strictEq_refl).
  split.
  - simpl run.
    destruct (step_DomCheck_new H s doc shown Hd Hr Hl) as (c1 & log & -> & Hm1 & _).
    rewrite (step_feed H entry _ Hs Hc), Hsh. simpl crashTriggered. rewrite Hl. simpl.
    match goal with
    | |- context [triggerCrashFromError H entry ?s1] =>
        destruct (triggerCrashFromError_strings H entry s1 Hs) as (c2 & log2 & -> & Hm2 & _)
    end.
    exists c1, c2. simpl. rewrite !crashEvents_snoc_crash, <- app_assoc. now split.
  - simpl run.
    rewrite (step_feed H entry s Hs Hc), Hsh, Hl. simpl.
    destruct (triggerCrashFromError_strings H entry (windowed entry s) Hs)
      as (c & log & -> & Hm & _). simpl snd.
    rewrite (step_DomCheck_latched H _ doc shown Hd) by (assumption || reflexivity).
    exists c. simpl. rewrite crashEvents_snoc_crash. now split.
Qed.

Lemma detector_order_matters_witness :
  (exists c1 c2,
     crashEvents (posted (run (pageWith wrapperCycle) (initial 0)
                            [DomCheck errorBoundaryShown; Feed referenceError])) =
       crashEvents (posted (initial 0)) ++ [c1; c2] /\
     Crash.detectionMethod c1 = "dom_based" /\ Crash.detectionMethod c2 = "error_based") /\
  (exists c,
     crashEvents (posted (run (pageWith wrapperCycle) (initial 0)
                            [Feed referenceError; DomCheck errorBoundaryShown])) =
       crashEvents (posted (initial 0)) ++ [c] /\
     Crash.detectionMethod c = "error_based" /\
     lastDOMCrashReason (run (pageWith wrapperCycle) (initial 0)
                           [Feed referenceError; DomCheck errorBoundaryShown]) =
       Some "Element: .error-boundary").
Proof.
  apply (detector_order_matters (pageWith wrapperCycle) (initial 0) errorBoundaryShown
           {| reason := "Element: .error-boundary";
              text := "Something went wrong";
              html := "<div class=error-boundary>Something went wrong</div>" |}
           referenceError);
    [vm_compute; reflexivity | discriminate | reflexivity | reflexivity | reflexivity].
Defined.

(** ** The signal-based detector over time *)

(** X3.  The cooldown re-arms the signal detector.  From a state with the
    latch clear and no reset pending, a ReferenceError entry whose message is
    a string is reported; once ten seconds or more have passed and the reset
    has run, the latch is clear and the window empty, and a second such entry
    is reported as a crash of its own, with only itself among the recent
    critical errors. *)
Theorem cooldown_rearms_detector (H : host) (s : state) (first second : gmap string value)
    (pause : N) :
  crashTriggered s = false -> timers s = [] ->
  hasStrings first = true -> get first "errorType" = VStr "ReferenceError" ->
  hasStrings second = true -> get second "errorType" = VStr "ReferenceError" ->
  10000 <= Z.of_N pause ->
  exists c1 c2,
    crashesBy "error_based"
      (posted (run H s [Feed first; Elapse pause; TimerFires; Feed second])) =
    crashesBy "error_based" (posted s) ++ [c1; c2] /\
    Crash.recentCriticalErrors c2 =
      Some [{| entryOf := second; capturedAt := now s + Z.of_N pause |}].
Proof.
  intros Hl Ht Hs1 Ht1 Hs2 Ht2 Hpause.
  assert (forall e, hasStrings e = true -> get e "errorType" = VStr "ReferenceError" ->
                    classified H e = true) as Hclass.
  { intros e _ He. unfold classified, isCriticalError. now rewrite He. }
  assert (forall e s0, get e "errorType" = VStr "ReferenceError" ->
                       shouldTrigger e s0 = true) as Hshould.
  { intros e s0 He. unfold shouldTrigger. now rewrite He, strictEq_refl. }
  simpl run.
  rewrite (step_feed H first s Hs1 (Hclass first Hs1 Ht1)), Hl, (Hshould first _ Ht1). simpl.
  destruct (triggerCrashFromError_strings H first (windowed first s) Hs1)
    as (c1 & log1 & -> & Hd1 & _). simpl snd.
  match goal with
  | |- context [step H (step H ?s1 (Elapse pause)) TimerFires] =>
      assert (exists s2, step H (step H s1 (Elapse pause)) TimerFires = s2 /\
                         crashTriggered s2 = false /\ timers s2 = [] /\
                         recentCriticalErrors s2 = [] /\
                         now s2 = now s + Z.of_N pause /\
                         posted s2 = posted s ++ [crashMessage H c1])
        as (s2 & -> & Hl2 & Htm2 & Hw2 & Hn2 & Hp2)
  end.
  { unfold step, handle, runTimer, cooldownReset, bindM, gets, modify, Date_now. simpl.
    rewrite Ht. simpl. rewrite bool_decide_eq_true_2 by lia. simpl.
    eexists. repeat split. }
  rewrite (step_feed H second s2 Hs2 (Hclass second Hs2 Ht2)), Hl2, (Hshould second _ Ht2). simpl.
  destruct (triggerCrashFromError_strings H second (windowed second s2) Hs2)
    as (c2 & log2 & -> & Hd2 & _ & Hr2 & _). simpl.
  exists c1, c2. split.
  - rewrite Hp2, !(crashesBy_snoc_crash H) by assumption.
    now rewrite <- app_assoc.
  - rewrite Hr2. unfold windowed. simpl. rewrite Hw2, Hn2. simpl.
    rewrite filter_cons_True by (simpl; lia). reflexivity.
Qed.

Lemma cooldown_rearms_detector_witness :
  exists c1 c2,
    crashesBy "error_based"
      (posted (run (pageWith wrapperCycle) (initial 0)
                 [Feed referenceError; Elapse 10000; TimerFires; Feed referenceError])) =
    crashesBy "error_based" (posted (initial 0)) ++ [c1; c2] /\
    Crash.recentCriticalErrors c2 =
      Some [{| entryOf := referenceError; capturedAt := now (initial 0) + Z.of_N 10000 |}].
Proof.
  apply (cooldown_rearms_detector (pageWith wrapperCycle) (initial 0)
           referenceError referenceError 10000);
    [reflexivity | reflexivity | reflexivity | reflexivity | reflexivity | reflexivity
    | vm_compute; discriminate].
Defined.

Lemma length_filter_weaken {A : Type} (P Q : A -> Prop)
    `{!forall x, Decision (P x)} `{!forall x, Decision (Q x)} (l : list A) :
  Forall (fun x => P x -> Q x) l -> (length (filter P l) <= length (filter Q l))%nat.
Proof.
  induction 1 as [| x l Hx Hl IH]; [reflexivity |].
  rewrite !filter_cons.
  destruct (decide (P x)), (decide (Q x)); simpl; try lia. tauto.
Qed.

Lemma filter_none {A : Type} (P : A -> Prop) `{!forall x, Decision (P x)} (l : list A) :
  Forall (fun x => ~ P x) l -> filter P l = [].
Proof.
  induction 1 as [| x l Hx Hl IH]; [reflexivity |].
  now rewrite filter_cons_False.
Qed.

(** An entry of the data model that is not critical is ignored. *)
Lemma step_feed_ignored (H : host) (entry : gmap string value) (s : state) :
  hasStrings entry = true -> classified H entry = false -> step H s (Feed entry) = s.
Proof.
  intros Hs Hc. destruct (hasStrings_inv entry Hs) as (t & m & Ht & Hm).
  unfold classified in Hc. unfold step, handle, checkForErrorBasedCrash.
  rewrite Ht, Hm in *.
  destruct (isCriticalError_strings H t m) as [b Hb]. rewrite Hb in *. subst b.
  reflexivity.
Qed.

Lemma sparse_step (H : host) (s : state) (gap : N) (entry : gmap string value) :
  sparse s -> (30000 <= gap)%N -> quiet entry = true ->
  let s' := run H s [Elapse gap; Feed entry] in
  sparse s' /\ posted s' = posted s /\ crashTriggered s' = crashTriggered s /\
  timers s' = timers s.
Proof.
  intros [Hpast Hone] Hgap Hq. cbv zeta.
  unfold quiet in Hq. repeat (apply andb_true_iff in Hq as [Hq ?]).
  rename Hq into Hs.
  change (run H s [Elapse gap; Feed entry]) with (step H (step H s (Elapse gap)) (Feed entry)).
  assert (exists s1, step H s (Elapse gap) = s1 /\ now s1 = now s + Z.of_N gap /\
                     recentCriticalErrors s1 = recentCriticalErrors s /\
                     posted s1 = posted s /\ crashTriggered s1 = crashTriggered s /\
                     timers s1 = timers s)
    as (s1 & -> & Hnow & Hwin & Hp1 & Hl1 & Ht1) by (eexists; repeat split).
  assert (Forall (fun c => capturedAt c <= now s1 - 30000) (recentCriticalErrors s1)) as Hold.
  { rewrite Hwin, Hnow. eapply Forall_impl; [exact Hpast |]. simpl. intros c Hc. lia. }
  destruct (classified H entry) eqn:Hc.
  - rewrite (step_feed H entry s1 Hs Hc).
    assert (length (recentCriticalErrors (windowed entry s1)) <= 2)%nat as Hlen.
    { unfold windowed. simpl. rewrite filter_app, length_app.
      rewrite filter_cons_True by (simpl; lia). simpl.
      assert (length (filter (fun c => (now s1 - 60000 < capturedAt c)%Z)
                             (recentCriticalErrors s1))
              <= length (filter (fun c => (now s - 30000 < capturedAt c)%Z)
                                (recentCriticalErrors s)))%nat
        as Hsub.
      { rewrite Hwin. apply length_filter_weaken.
        apply Forall_forall. intros c _ Hc'. rewrite Hnow in Hc'. lia. }
      lia. }
    assert (shouldTrigger entry (windowed entry s1) = false) as Hsh.
    { unfold shouldTrigger.
      destruct (hasStrings_inv entry Hs) as (t & m & Ht & Hm).
      rewrite Hm in *.
      apply negb_true_iff in H0, H1, H2. rewrite H0, H1, H2. simpl.
      apply bool_decide_eq_false. unfold windowed in Hlen. simpl in Hlen. lia. }
    rewrite Hsh. simpl. repeat split; try assumption.
    + unfold windowed. simpl. apply Forall_forall. intros c Hin.
      apply list_elem_of_filter in Hin as [_ Hin].
      apply elem_of_app in Hin as [Hin | Hin].
      * eapply Forall_forall in Hold; [| exact Hin]. lia.
      * apply list_elem_of_singleton in Hin. subst c. simpl. lia.
    + unfold windowed. simpl. rewrite list_filter_filter, filter_app, length_app.
      rewrite filter_cons_True by (simpl; lia). simpl.
      rewrite filter_none; [simpl; lia |].
      eapply Forall_impl; [exact Hold |]. simpl. intros c Hc'. lia.
  - rewrite (step_feed_ignored H entry s1 Hs Hc). repeat split; try assumption.
    + eapply Forall_impl; [exact Hold |]. simpl. intros c Hc'. lia.
    + rewrite filter_none; [simpl; lia |].
      eapply Forall_impl; [exact Hold |]. simpl. intros c Hc'. lia.
Qed.

(** X4.  Critical errors that arrive at least thirty seconds apart never
    add up to a crash: the window never holds three of them, so unless an
    entry triggers on its own (a ReferenceError, "is not defined", a
    component stack) nothing is posted and the latch is left alone. *)
Theorem slow_drip_posts_no_crash (H : host) (s : state)
    (arrivals : list (N * gmap string value)) :
  recentCriticalErrors s = [] ->
  forallb (fun p => (30000 <=? fst p)%N && quiet (snd p)) arrivals = true ->
  posted (run H s (drip arrivals)) = posted s /\
  crashTriggered (run H s (drip arrivals)) = crashTriggered s.
Proof.
  intros Hw Hall.
  assert (sparse s) as Hs by (unfold sparse; rewrite Hw; split; [constructor | simpl; lia]).
  clear Hw. revert s Hs.
  induction arrivals as [| [gap entry] arrivals IH]; intros s Hs; [now split |].
  simpl in Hall. apply andb_true_iff in Hall as [Hp Hall].
  apply andb_true_iff in Hp as [Hgap Hq]. apply N.leb_le in Hgap.
  destruct (sparse_step H s gap entry Hs Hgap Hq) as (Hs' & Hp' & Hl' & _).
  change (drip ((gap, entry) :: arrivals)) with ([Elapse gap; Feed entry] ++ drip arrivals).
  rewrite run_app.
  destruct (IH Hall _ Hs') as [Hpost Hlatch].
  rewrite Hpost, Hlatch. now split.
Qed.

Lemma slow_drip_posts_no_crash_witness :
  posted (run (pageWith wrapperCycle) (initial 0) (drip thirtySecondsApart)) =
    posted (initial 0) /\
  crashTriggered (run (pageWith wrapperCycle) (initial 0) (drip thirtySecondsApart)) =
    crashTriggered (initial 0).
Proof.
  apply (slow_drip_posts_no_crash (pageWith wrapperCycle) (initial 0) thirtySecondsApart);
    [reflexivity | vm_compute; reflexivity].
Defined.

(** ** The latch and its timer *)

Section Timers.

Variable H : host.

Lemma triggerCrashFromError_oneTimer (entry : gmap string value) (s : state) :
  timers s = [] -> oneTimer (snd (triggerCrashFromError H entry s)).
Proof.
  intros Ht.
  destruct (triggerCrashFromError_cases H entry s)
    as [(e & s' & -> & _ & Ht' & _) | (c & log & -> & _)].
  - left. simpl. congruence.
  - right. simpl. split; [reflexivity |]. rewrite Ht. now eexists.
Qed.

Lemma checkForErrorBasedCrash_oneTimer (entry : gmap string value) :
  preserves oneTimer (checkForErrorBasedCrash H entry).
Proof.
  unfold checkForErrorBasedCrash, Date_now.
  through ltac:(first
    [ frame_leaf
    | match goal with
      | |- preserves _ (bindM (gets crashTriggered) _) =>
          apply preserves_bind_gets; intros s Hs
      end ]);
  match goal with b : bool |- _ => destruct b end; simpl; try exact Hs;
  destruct (crashTriggered s) eqn:Hl; simpl; try exact Hs;
  apply triggerCrashFromError_oneTimer;
  destruct Hs as [Hs | [Hs _]]; [exact Hs | congruence].
Qed.

Lemma checkForDOMCrash_oneTimer (doc : document) :
  preserves oneTimer (checkForDOMCrash H doc).
Proof. unfold checkForDOMCrash, _log, Date_now, isoNow. through frame_leaf. Qed.

Lemma runTimer_oneTimer : preserves oneTimer runTimer.
Proof.
  intros s Hs. unfold runTimer, cooldownReset, bindM, gets, modify, Date_now. simpl.
  destruct (timers s) as [| due rest] eqn:Ht; [exact Hs |].
  case_bool_decide; [| exact Hs].
  destruct Hs as [Hs | (_ & due' & Hd)]; [congruence |].
  rewrite Ht in Hd. injection Hd as _ ->. now left.
Qed.

Lemma fetch_failed_oneTimer (c : fetchCall) (err : exn) :
  preserves oneTimer (fetch_failed H c err).
Proof. unfold fetch_failed, _log, Date_now, isoNow. through frame_leaf. Qed.

Lemma handle_oneTimer (ev : event) : preserves oneTimer (handle H ev).
Proof.
  destruct ev; open_handler;
    through ltac:(idtac;
      match goal with
      | |- preserves _ (checkForErrorBasedCrash _ _) => apply checkForErrorBasedCrash_oneTimer
      | |- preserves _ (checkForDOMCrash _ _) => apply checkForDOMCrash_oneTimer
      | |- preserves _ runTimer => apply runTimer_oneTimer
      | |- preserves _ (fetch_failed _ _ _) => apply fetch_failed_oneTimer
      | _ => frame_leaf
      end).
Qed.

End Timers.

(** X5.  Whatever happens after injection, at most one cooldown reset is
    pending, and one is pending only while the latch is set: no second
    reset is left over that could clear the latch of a later crash early. *)
Theorem at_most_one_cooldown_timer (H : host) (t0 : Z) (trace : list event) :
  oneTimer (run H (initial t0) trace).
Proof.
  apply (run_preserves H oneTimer (handle_oneTimer H)). now left.
Qed.

Section Stuck.

Variable H : host.
Variable reported : list Crash.t.

Ltac stuck_leaf :=
  idtac;
  match goal with
  | |- preserves _ (sendToContentScript _ _ (Entry ?e)) =>
      apply preserves_modify; intros ? (Hl & Ht & Hp); repeat split; try assumption;
      simpl; now rewrite (crashEvents_snoc_entry _ _ e)
  | |- preserves _ (bindM (gets crashTriggered) _) =>
      apply preserves_bind_gets; intros ? Hs;
      rewrite (proj1 Hs), ?andb_false_r; exact Hs
  | |- preserves _ (push _ _) => apply preserves_modify; intros ? Hs; exact Hs
  | |- preserves _ (shiftIfOver _ _) => apply preserves_modify; intros ? Hs; exact Hs
  | |- preserves _ (modify _) => apply preserves_modify; intros ? Hs; exact Hs
  end.

Lemma checkForErrorBasedCrash_stuck (entry : gmap string value) :
  preserves (stuck reported) (checkForErrorBasedCrash H entry).
Proof. unfold checkForErrorBasedCrash, Date_now. through stuck_leaf. Qed.

Lemma checkForDOMCrash_stuck (doc : document) :
  preserves (stuck reported) (checkForDOMCrash H doc).
Proof. unfold checkForDOMCrash, _log, Date_now, isoNow. through stuck_leaf. Qed.

Lemma runTimer_stuck : preserves (stuck reported) runTimer.
Proof.
  intros s Hs. unfold runTimer, bindM, gets, Date_now. simpl.
  now rewrite (proj1 (proj2 Hs)).
Qed.

Lemma fetch_failed_stuck (c : fetchCall) (err : exn) :
  preserves (stuck reported) (fetch_failed H c err).
Proof. unfold fetch_failed, _log, Date_now, isoNow. through stuck_leaf. Qed.

Lemma handle_stuck (ev : event) : preserves (stuck reported) (handle H ev).
Proof.
  destruct ev; open_handler;
    through ltac:(idtac;
      match goal with
      | |- preserves _ (checkForErrorBasedCrash _ _) => apply checkForErrorBasedCrash_stuck
      | |- preserves _ (checkForDOMCrash _ _) => apply checkForDOMCrash_stuck
      | |- preserves _ runTimer => apply runTimer_stuck
      | |- preserves _ (fetch_failed _ _ _) => apply fetch_failed_stuck
      | _ => stuck_leaf
      end).
Qed.

End Stuck.

(** A ReferenceError whose message is a number sets the latch and then
    fails on [message?.slice]: nothing is posted, no reset is scheduled. *)
Lemma checkForErrorBasedCrash_numeric (H : host) (entry : gmap string value) (n : Z) (s : state) :
  get entry "errorType" = VStr "ReferenceError" -> get entry "message" = VNum n ->
  crashTriggered s = false ->
  exists s', checkForErrorBasedCrash H entry s = (Throw TypeError, s') /\
             crashTriggered s' = true /\ timers s' = timers s /\ posted s' = posted s /\
             localErrors s' = localErrors s.
Proof.
  intros Ht Hm Hl.
  unfold checkForErrorBasedCrash, triggerCrashFromError, isCriticalError.
  rewrite Ht, Hm.
  unfold bindM, lift, gets, modify, ret, Date_now. simpl. rewrite Hl. simpl.
  eexists. split; [reflexivity |]. repeat split.
Qed.

(** X6.  An uncaught ReferenceError whose [message] is a number other
    than zero latches the signal detector for good.  Let it arrive at any
    point after injection at which the latch is clear, and let it be one the
    normaliser converts without throwing (it has no cause, or a cause whose
    conversions succeed).  Then [triggerCrashFromError] sets the latch and
    throws on [message?.slice], before the crash event is posted and before
    the reset is scheduled, and from then on neither detector posts a crash
    event, whatever happens on the page. *)
Theorem numeric_message_latches_for_good (H : host) (t0 : Z) (before : list event)
    (e l : loc) (n : Z) (after : list event) :
  get (props (objects H e)) "error" = VRef l ->
  isError (objects H l) = true ->
  get (props (objects H l)) "name" = VStr "ReferenceError" ->
  get (props (objects H l)) "message" = VNum n -> n <> 0 ->
  convertible (objects H) 3 (VRef l) = true ->
  crashTriggered (run H (initial t0) before) = false ->
  let s := run H (initial t0) before in
  let s' := run H s (ErrorEvent e :: after) in
  crashTriggered s' = true /\ timers s' = [] /\
  crashEvents (posted s') = crashEvents (posted s).
Proof.
  intros Herr He Hname Hmsg Hn Hconv Hl. cbv zeta.
  assert (timers (run H (initial t0) before) = []) as Ht.
  { destruct (run_preserves H oneTimer (handle_oneTimer H) before (initial t0))
      as [Ht | [Hset _]]; [now left | exact Ht | congruence]. }
  generalize dependent (run H (initial t0) before). intros s Hl Ht. simpl.
  apply (run_preserves H (stuck (crashEvents (posted s))) (handle_stuck H _)).
  pose proof (extractErrorInfo_convertible (objects H) 3 0 (VRef l) eq_refl) as Hr.
  rewrite Hconv in Hr. destruct Hr as [r Hr].
  destruct (extractErrorInfo_Error (objects H) l r He Hr) as [Hrt Hrm].
  assert (truthy (VNum n) = true) as Htn
    by (simpl; destruct (Z.eqb_spec n 0); [contradiction | reflexivity]).
  rewrite Hname in Hrt. rewrite Hmsg, (truthy_or_l (VNum n)) in Hrm by exact Htn.
  unfold step, handle, onError. rewrite Herr. simpl truthy. cbv iota. rewrite Hr.
  unfold bindM at 1, lift at 1. cbv iota beta.
  unfold bindM at 1, isoNow at 1, gets at 1. cbv iota beta.
  match goal with |- context [push Page ?x] => set (entry := x) end.
  assert (get entry "errorType" = VStr "ReferenceError") as Hty
    by (subst entry; get_obj; now rewrite Hrt).
  assert (get entry "message" = VNum n) as Hme
    by (subst entry; get_obj; rewrite Hrm; now rewrite !(truthy_or_l (VNum n)) by exact Htn).
  clearbody entry.
  unfold bindM, isoNow, push, shiftIfOver, sendToContentScript, modify, gets. simpl.
  match goal with
  | |- context [checkForErrorBasedCrash H entry ?s1] =>
      destruct (checkForErrorBasedCrash_numeric H entry n s1 Hty Hme Hl)
        as (s' & -> & Hl' & Ht' & Hp' & _)
  end.
  simpl. repeat split; [exact Hl' | now rewrite Ht' |].
  rewrite Hp'. simpl. now rewrite (crashEvents_snoc_entry _ _ entry).
Qed.

Lemma numeric_message_latches_for_good_witness :
  let s := run (pageWith numericMessage) (initial 0) [Feed typeError] in
  let s' := run (pageWith numericMessage) s
              (ErrorEvent 0%nat :: [Elapse 10000; TimerFires; Feed referenceError;
                                    DomCheck errorBoundaryShown]) in
  crashTriggered s' = true /\ timers s' = [] /\
  crashEvents (posted s') = crashEvents (posted s).
Proof.
  apply (numeric_message_latches_for_good (pageWith numericMessage) 0 [Feed typeError]
           0%nat 1%nat 42);
    [vm_compute; reflexivity | reflexivity | vm_compute; reflexivity | vm_compute; reflexivity
    | discriminate | vm_compute; reflexivity | vm_compute; reflexivity].
Defined.

(** ** What the recorders do and do not do *)

Section Bypass.

Variable H : host.
Variable d : list critical * bool * list Z * option string * list Crash.t.

Let kept (s : state) : Prop := detectors s = d.

Lemma kept_send_entry (type : string) (e : gmap string value) :
  preserves kept (sendToContentScript H type (Entry e)).
Proof.
  apply preserves_modify. intros s Hs. unfold kept in *. rewrite <- Hs.
  unfold detectors. simpl. now rewrite (crashEvents_snoc_entry _ _ e).
Qed.

Lemma kept_frame (f : state -> state) :
  (forall s, detectors (f s) = detectors s) -> preserves kept (modify f).
Proof.
  intros Hf. apply preserves_modify. intros s Hs. unfold kept in *. now rewrite Hf.
Qed.

Ltac kept_leaf :=
  idtac;
  match goal with
  | |- preserves _ (sendToContentScript _ _ (Entry _)) => apply kept_send_entry
  | |- preserves _ (push _ _) => apply kept_frame; reflexivity
  | |- preserves _ (shiftIfOver _ _) => apply kept_frame; reflexivity
  | |- preserves _ (modify _) => apply kept_frame; reflexivity
  end.

Lemma fetch_failed_kept (c : fetchCall) (err : exn) : preserves kept (fetch_failed H c err).
Proof. unfold fetch_failed, _log, Date_now, isoNow. through kept_leaf. Qed.

Lemma recordsOnly_kept (ev : event) : recordsOnly ev = true -> preserves kept (handle H ev).
Proof.
  destruct ev; try discriminate; intros _; open_handler;
    through ltac:(idtac; match goal with
                | |- preserves _ (fetch_failed _ _ _) => apply fetch_failed_kept
                | _ => kept_leaf
                end).
Qed.

End Bypass.

(** X7.  Warnings, assertions and network entries are recorded only: however
    their text reads ("x is not defined", "Failed to fetch"), the handlers of
    [console.warn], [console.assert], XMLHttpRequest and fetch leave the
    critical-error window, the latch, the cooldown timers and the remembered
    DOM reason as they were, and post no crash event. *)
Theorem recording_paths_bypass_detectors (H : host) (s : state) (trace : list event) :
  forallb recordsOnly trace = true ->
  detectors (run H s trace) = detectors s.
Proof.
  revert s. induction trace as [| ev trace IH]; intros s Hall; [reflexivity |].
  simpl in Hall. apply andb_true_iff in Hall as [Hev Hall].
  simpl. rewrite IH by assumption.
  exact (recordsOnly_kept H (detectors s) ev Hev s eq_refl).
Qed.

Lemma recording_paths_bypass_detectors_witness :
  detectors (run (pageWith wrapperCycle) (initial 0) alarmingRecords) = detectors (initial 0).
Proof.
  apply (recording_paths_bypass_detectors (pageWith wrapperCycle) (initial 0) alarmingRecords).
  reflexivity.
Defined.

Lemma last_sliceLast {A : Type} (n : nat) (l : list A) :
  (1 <= n)%nat -> last (sliceLast n l) = last l.
Proof.
  intros Hn. unfold sliceLast.
  induction l as [| x rest _] using rev_ind; [reflexivity |].
  rewrite length_app. simpl.
  rewrite skipn_app. replace (length rest + 1 - n - length rest)%nat with 0%nat by lia.
  simpl. now rewrite !last_snoc.
Qed.

(** X8.  An uncaught ReferenceError is recorded and reported in one turn.
    Let its message be a string that is not empty, let it be one the
    normaliser converts without throwing (it has no cause, or a cause whose
    conversions succeed), and let the latch be clear.  Then the listener of
    the window's [error] event appends the entry to the page-error buffer,
    posts it as [page_error] and then posts a [crash_detected] event for it,
    whose snapshot of the page errors already ends with the entry itself. *)
Theorem uncaught_ReferenceError_reported (H : host) (s : state) (e l : loc) (m : string) :
  get (props (objects H e)) "error" = VRef l ->
  isError (objects H l) = true ->
  get (props (objects H l)) "name" = VStr "ReferenceError" ->
  get (props (objects H l)) "message" = VStr m -> m <> "" ->
  convertible (objects H) 3 (VRef l) = true ->
  crashTriggered s = false ->
  let s' := step H s (ErrorEvent e) in
  exists entry c primary,
    posted s' = posted s ++
      [{| msgType := "page_error"; data := Entry entry;
          sessionId := SESSION_ID H; pageUrl := href H |};
       crashMessage H c] /\
    last (page (localErrors s')) = Some entry /\
    get entry "errorType" = VStr "ReferenceError" /\ get entry "message" = VStr m /\
    Crash.detectionMethod c = "error_based" /\
    Crash.primaryError c = Some primary /\ get primary "message" = VStr m /\
    last (Crash.recentPageErrors c) = Some entry /\
    crashTriggered s' = true.
Proof.
  intros Herr He Hname Hmsg Hm Hconv Hl. cbv zeta.
  pose proof (extractErrorInfo_convertible (objects H) 3 0 (VRef l) eq_refl) as Hr.
  rewrite Hconv in Hr. destruct Hr as [r Hr].
  destruct (extractErrorInfo_Error (objects H) l r He Hr) as [Hrt Hrm].
  assert (truthy (VStr m) = true) as Htm by now apply truthy_VStr.
  rewrite Hname in Hrt. rewrite Hmsg, (truthy_or_l (VStr m)) in Hrm by exact Htm.
  remember (step H s (ErrorEvent e)) as s' eqn:Hs'.
  unfold step, handle, onError in Hs'. rewrite Herr in Hs'. simpl truthy in Hs'. cbv iota in Hs'.
  rewrite Hr in Hs'.
  unfold bindM at 1, lift at 1 in Hs'. cbv iota beta in Hs'.
  unfold bindM at 1, isoNow at 1, gets at 1 in Hs'. cbv iota beta in Hs'.
  match type of Hs' with context [push Page ?x] => set (entry := x) in Hs' end.
  assert (get entry "errorType" = VStr "ReferenceError") as Hty
    by (subst entry; get_obj; now rewrite Hrt).
  assert (get entry "message" = VStr m) as Hme
    by (subst entry; get_obj; rewrite Hrm; now rewrite !(truthy_or_l (VStr m)) by exact Htm).
  clearbody entry.
  assert (hasStrings entry = true) as Hs by (unfold hasStrings; now rewrite Hty, Hme).
  assert (classified H entry = true) as Hc
    by (unfold classified, isCriticalError; now rewrite Hty).
  unfold bindM, push, shiftIfOver, sendToContentScript, modify, gets in Hs'. simpl in Hs'.
  match type of Hs' with
  | context [checkForErrorBasedCrash H entry ?s1] =>
      set (recorded := s1) in Hs';
      assert (last (page (localErrors recorded)) = Some entry) as Hlast
        by (apply last_shifted; lia)
  end.
  rewrite (checkForErrorBasedCrash_strings H entry recorded Hs Hc) in Hs'.
  assert (shouldTrigger entry (windowed entry recorded) = true) as Hsh
    by (unfold shouldTrigger; now rewrite Hty, strictEq_refl).
  rewrite Hsh in Hs'. change (crashTriggered recorded) with (crashTriggered s) in Hs'.
  rewrite Hl in Hs'. cbn [negb andb] in Hs'.
  destruct (triggerCrashFromError_strings H entry (windowed entry recorded) Hs)
    as (c & log & Htrig & Hd & (primary & Hp & Hpm & _) & _ & Hsnap).
  rewrite Htrig in Hs'. cbn [fst snd _log modify] in Hs'.
  destruct Hsnap as (_ & _ & Hpage & _).
  exists entry, c, primary. subst s'.
  split; [simpl; now rewrite <- app_assoc |].
  split; [exact Hlast |].
  split; [exact Hty |]. split; [exact Hme |]. split; [exact Hd |]. split; [exact Hp |].
  split; [now rewrite Hpm |].
  split; [| reflexivity].
  rewrite Hpage. now rewrite last_sliceLast by lia.
Qed.

Lemma uncaught_ReferenceError_reported_witness :
  let s' := step (pageWith uncaughtReference) (initial 0) (ErrorEvent 0%nat) in
  exists entry c primary,
    posted s' = posted (initial 0) ++
      [{| msgType := "page_error"; data := Entry entry;
          sessionId := SESSION_ID (pageWith uncaughtReference);
          pageUrl := href (pageWith uncaughtReference) |};
       crashMessage (pageWith uncaughtReference) c] /\
    last (page (localErrors s')) = Some entry /\
    get entry "errorType" = VStr "ReferenceError" /\
    get entry "message" = VStr "x is not defined" /\
    Crash.detectionMethod c = "error_based" /\
    Crash.primaryError c = Some primary /\ get primary "message" = VStr "x is not defined" /\
    last (Crash.recentPageErrors c) = Some entry /\
    crashTriggered s' = true.
Proof.
  apply (uncaught_ReferenceError_reported (pageWith uncaughtReference) (initial 0)
           0%nat 1%nat "x is not defined");
    [vm_compute; reflexivity | reflexivity | vm_compute; reflexivity | vm_compute; reflexivity
    | discriminate | vm_compute; reflexivity | reflexivity].
Defined.

Lemma mapM_total {A B : Type} (f : A -> outcome B) (l : list A) :
  (forall a, exists b, f a = Ok b) -> exists bs, mapM f l = Ok bs.
Proof.
  intros Hf. induction l as [| a l [bs IH]]; simpl; [eauto |].
  destruct (Hf a) as [b ->]. simpl. rewrite IH. simpl. eauto.
Qed.

Section Returns.

Variable H : host.
Hypothesis Hc : coercible (objects H).

Lemma extractErrorInfo_returns (arg : value) :
  exists r, extractErrorInfo (objects H) arg 0 = Ok r.
Proof. apply (extractErrorInfo_total_at (objects H) 4 Hc). lia. Qed.

Lemma formatArgs_returns (a : list value) : exists message, formatArgs H a = Ok message.
Proof.
  unfold formatArgs.
  destruct (mapM_total
              (fun arg =>
                 let* info := extractErrorInfo (objects H) arg 0 in
                 if truthy (get info "stack") then
                   let* t := String_ (objects H) (get info "type") in
                   let* m := String_ (objects H) (get info "message") in
                   let* k := String_ (objects H) (get info "stack") in
                   Ok (VStr (t +:+ ": " +:+ m +:+ String "010" k))
                 else Ok (get info "message")) a) as [items ->].
  { intros arg. destruct (extractErrorInfo_returns arg) as [info ->]. simpl.
    destruct (truthy (get info "stack")); [| eauto].
    destruct (String_coercible (objects H) (get info "type") Hc) as [t ->].
    destruct (String_coercible (objects H) (get info "message") Hc) as [m ->].
    destruct (String_coercible (objects H) (get info "stack") Hc) as [k ->].
    simpl. eauto. }
  simpl. destruct (mapM_total (joinItem H) items) as [strs ->]; [| simpl; eauto].
  intros v. unfold joinItem. destruct v; eauto using String_coercible.
Qed.

(** [checkForErrorBasedCrash] returns for an entry whose message is a
    string. *)
Lemma checkForErrorBasedCrash_returns (entry : gmap string value) (m : string) (s : state) :
  get entry "message" = VStr m -> fst (checkForErrorBasedCrash H entry s) = Ok tt.
Proof.
  intros Hm. unfold checkForErrorBasedCrash, triggerCrashFromError, isCriticalError.
  rewrite Hm. cbn [String_ bind].
  destruct (String_coercible (objects H) (get entry "errorType") Hc) as [kind Hkind].
  match goal with
  | |- context [existsb ?f CRASH_ERROR_PATTERNS] =>
      generalize (existsb f CRASH_ERROR_PATTERNS)
  end.
  match goal with
  | |- context [existsb ?f CRASH_ERROR_TYPES] => generalize (existsb f CRASH_ERROR_TYPES)
  end.
  intros byType byPattern.
  unfold bindM, lift, gets, modify, ret, Date_now, isoNow, sendToContentScript, _log.
  destruct byType, byPattern; simpl; try reflexivity.
  all: destruct (strictEq (get entry "errorType") (VStr "ReferenceError")); simpl;
    [| destruct (Str.includes "is not defined" m); simpl;
       [| destruct (truthy (get entry "componentStack")); simpl;
          [| destruct (bool_decide _); simpl]]].
  all: destruct (crashTriggered s); simpl; try reflexivity.
  all: rewrite Hkind; reflexivity.
Qed.

End Returns.

(** X9.  On a page whose objects all convert to strings, the console
    interceptors are transparent: [console.error], [console.warn] and
    [console.assert] return normally whatever they are given, and the last
    thing each does is to call the saved method with exactly the arguments of
    the page. *)
Theorem console_interceptors_forward (H : host) (a : list value) (condition : value)
    (s : state) :
  coercible (objects H) ->
  (fst (console_error H a s) = Ok tt /\
   last (native (snd (console_error H a s))) = Some {| method := "error"; args := a |}) /\
  (fst (console_warn H a s) = Ok tt /\
   last (native (snd (console_warn H a s))) = Some {| method := "warn"; args := a |}) /\
  (fst (console_assert H condition a s) = Ok tt /\
   last (native (snd (console_assert H condition a s))) =
     Some {| method := "assert"; args := condition :: a |}).
Proof.
  intros Hc. split; [| split].
  - unfold console_error. cbv zeta. unfold bindM at 1, lift at 1.
    destruct (mapM_total (fun arg => extractErrorInfo (objects H) arg 0) a) as [infos ->];
      [apply (extractErrorInfo_returns H Hc) |].
    unfold bindM at 1, lift at 1.
    destruct (formatArgs_returns H Hc a) as [message ->].
    unfold bindM, isoNow, gets, modify, push, shiftIfOver, sendToContentScript, _log, _error.
    simpl.
    match goal with
    | |- context [checkForErrorBasedCrash H ?e ?s1] =>
        pose proof (checkForErrorBasedCrash_returns H Hc e message s1) as Hret;
        destruct (checkForErrorBasedCrash H e s1) as [[[] |] s2]
    end.
    + simpl. split; [reflexivity | apply last_snoc].
    + simpl in Hret. discriminate Hret. get_obj. reflexivity.
  - unfold console_warn. cbv zeta. unfold bindM at 1, lift at 1.
    destruct (formatArgs_returns H Hc a) as [message ->].
    unfold bindM, isoNow, gets, modify, push, shiftIfOver, sendToContentScript, _warn.
    simpl. split; [reflexivity | apply last_snoc].
  - unfold console_assert.
    destruct (negb (truthy condition)).
    + assert (exists message,
                match a with [] => Ok "Assertion failed" | _ => formatArgs H a end = Ok message)
        as [message Hm].
      { destruct a; [eauto |]. apply (formatArgs_returns H Hc). }
      unfold bindM at 1. unfold bindM at 1, lift at 1. rewrite Hm.
      unfold bindM, isoNow, gets, modify, push, sendToContentScript, _log, _assert.
      simpl. split; [reflexivity | apply last_snoc].
    + unfold bindM, ret, modify, _assert. simpl. split; [reflexivity | apply last_snoc].
Qed.

Lemma console_interceptors_forward_witness :
  let H := pageWith wrapperCycle in
  let a := [VRef 0%nat; VStr "while loading orders"] in
  let s := initial 0 in
  (fst (console_error H a s) = Ok tt /\
   last (native (snd (console_error H a s))) = Some {| method := "error"; args := a |}) /\
  (fst (console_warn H a s) = Ok tt /\
   last (native (snd (console_warn H a s))) = Some {| method := "warn"; args := a |}) /\
  (fst (console_assert H (VBool false) a s) = Ok tt /\
   last (native (snd (console_assert H (VBool false) a s))) =
     Some {| method := "assert"; args := VBool false :: a |}).
Proof.
  apply (console_interceptors_forward (pageWith wrapperCycle)
           [VRef 0%nat; VStr "while loading orders"] (VBool false) (initial 0)).
  intros l. discriminate.
Defined.

(** X10.  For arguments that are not objects the logged message is the
    arguments converted by [String] and joined by single spaces, null and
    undefined included; no arguments give the empty message. *)
Theorem formatArgs_joins_primitives (H : host) (a : list value) :
  forallb primitive a = true ->
  exists strs, mapM (String_ (objects H)) a = Ok strs /\
               formatArgs H a = Ok (joinStrings " " strs).
Proof.
  intros Hp. unfold formatArgs.
  assert (exists strs,
            mapM (String_ (objects H)) a = Ok strs /\
            mapM (fun arg =>
                    let* info := extractErrorInfo (objects H) arg 0 in
                    if truthy (get info "stack") then
                      let* t := String_ (objects H) (get info "type") in
                      let* m := String_ (objects H) (get info "message") in
                      let* k := String_ (objects H) (get info "stack") in
                      Ok (VStr (t +:+ ": " +:+ m +:+ String "010" k))
                    else Ok (get info "message")) a = Ok (map VStr strs))
    as (strs & Hstrs & ->).
  { induction a as [| v a IH]; [exists []; split; reflexivity |].
    simpl in Hp. apply andb_true_iff in Hp as [Hv Ha].
    destruct (IH Ha) as (strs & Hs1 & Hs2).
    cbn [mapM]. rewrite Hs1, Hs2.
    rewrite extractErrorInfo_guard_body. simpl bool_decide. cbv iota.
    destruct v; try discriminate; simpl; eexists; split; reflexivity. }
  exists strs. split; [assumption |]. simpl.
  assert (mapM (joinItem H) (map VStr strs) = Ok strs) as ->; [| reflexivity].
  clear. induction strs as [| t strs IH]; [reflexivity |].
  cbn [map mapM]. rewrite IH. reflexivity.
Qed.

Lemma formatArgs_joins_primitives_witness :
  exists strs,
    mapM (String_ (objects (pageWith wrapperCycle))) [VStr "retry"; VNum 3; VNull] = Ok strs /\
    formatArgs (pageWith wrapperCycle) [VStr "retry"; VNum 3; VNull] =
      Ok (joinStrings " " strs).
Proof.
  apply (formatArgs_joins_primitives (pageWith wrapperCycle) [VStr "retry"; VNum 3; VNull]).
  reflexivity.
Defined.



(** ** The rolling buffers, over every trace *)

Lemma length_shifted {A : Type} (cap : nat) (l : list A) (x : A) :
  (length l <= cap)%nat ->
  (length (if bool_decide (cap < length (l ++ [x]))%nat then tail (l ++ [x]) else l ++ [x])
   <= cap)%nat.
Proof.
  intros Hl. case_bool_decide as Hover; [| lia].
  destruct l; simpl in *; rewrite ?length_app in *; simpl in *; lia.
Qed.

Lemma Forall_shifted {A : Type} (P : A -> Prop) (cap : nat) (l : list A) :
  Forall P l -> Forall P (if bool_decide (cap < length l)%nat then tail l else l).
Proof.
  intros Hl. case_bool_decide; [| assumption].
  destruct l; [assumption |]. now apply Forall_cons in Hl as [_ Hl].
Qed.

Lemma Forall_pushed {A : Type} (P : A -> Prop) (l : list A) (x : A) :
  Forall P l -> P x -> Forall P (l ++ [x]).
Proof. intros Hl Hx. apply Forall_app. split; [assumption | now constructor]. Qed.

Section Capacity.

Variable H : host.

Ltac trimmed_leaf :=
  idtac;
  match goal with
  | |- preserves _ (bindM (push Page _) (fun _ => bindM (shiftIfOver Page 50) _)) =>
      apply preserves_push_shift;
      [intros ? [Hp Hr]; split; [now apply length_shifted | exact Hr] | intros ?]
  | |- preserves _ (bindM (push ApiRequests _) (fun _ => bindM (shiftIfOver ApiRequests 200) _)) =>
      apply preserves_push_shift;
      [intros ? [Hp Hr]; split; [exact Hp | now apply length_shifted] | intros ?]
  | |- preserves _ (push Page _) => fail 1
  | |- preserves _ (push ApiRequests _) => fail 1
  | _ => frame_leaf
  end.

Lemma triggerCrashFromError_trimmed (entry : gmap string value) :
  preserves trimmedWithin (triggerCrashFromError H entry).
Proof. unfold triggerCrashFromError, _log, Date_now, isoNow. through trimmed_leaf. Qed.

Lemma checkForErrorBasedCrash_trimmed (entry : gmap string value) :
  preserves trimmedWithin (checkForErrorBasedCrash H entry).
Proof.
  unfold checkForErrorBasedCrash, Date_now.
  through ltac:(idtac; match goal with
                | |- preserves _ (triggerCrashFromError _ _) => apply triggerCrashFromError_trimmed
                | _ => trimmed_leaf
                end).
Qed.

Lemma checkForDOMCrash_trimmed (doc : document) :
  preserves trimmedWithin (checkForDOMCrash H doc).
Proof. unfold checkForDOMCrash, _log, Date_now, isoNow. through trimmed_leaf. Qed.

Lemma runTimer_trimmed : preserves trimmedWithin runTimer.
Proof. unfold runTimer, cooldownReset, Date_now. through trimmed_leaf. Qed.

Lemma fetch_failed_trimmed (c : fetchCall) (err : exn) :
  preserves trimmedWithin (fetch_failed H c err).
Proof. unfold fetch_failed, _log, Date_now, isoNow. through trimmed_leaf. Qed.

Lemma handle_trimmed (ev : event) : preserves trimmedWithin (handle H ev).
Proof.
  destruct ev; open_handler;
    through ltac:(idtac;
      match goal with
      | |- preserves _ (checkForErrorBasedCrash _ _) => apply checkForErrorBasedCrash_trimmed
      | |- preserves _ (checkForDOMCrash _ _) => apply checkForDOMCrash_trimmed
      | |- preserves _ runTimer => apply runTimer_trimmed
      | |- preserves _ (fetch_failed _ _ _) => apply fetch_failed_trimmed
      | _ => trimmed_leaf
      end).
Qed.

Ltac all_leaf :=
  idtac;
  match goal with
  | |- preserves _ (bindM (push _ _) (fun _ => bindM (shiftIfOver _ _) _)) =>
      apply preserves_push_shift;
      [intros ? (Hp & Hc & Ha & Hr); repeat split; try assumption; now apply length_shifted
      | intros ?]
  | |- preserves _ (push _ _) => fail 1
  | _ => frame_leaf
  end.

Lemma triggerCrashFromError_allWithin (entry : gmap string value) :
  preserves allWithin (triggerCrashFromError H entry).
Proof. unfold triggerCrashFromError, _log, Date_now, isoNow. through all_leaf. Qed.

Lemma checkForErrorBasedCrash_allWithin (entry : gmap string value) :
  preserves allWithin (checkForErrorBasedCrash H entry).
Proof.
  unfold checkForErrorBasedCrash, Date_now.
  through ltac:(idtac; match goal with
                | |- preserves _ (triggerCrashFromError _ _) => apply triggerCrashFromError_allWithin
                | _ => all_leaf
                end).
Qed.

Lemma fetch_resolved_allWithin (c : fetchCall) (t : Z) (r : response) (m u : string) :
  fMethod c = VStr m -> fUrl c = VStr u ->
  preserves allWithin (fetch_settled H c t (Resolved r)).
Proof.
  intros Hm Hu s (Hp & Hc & Ha & Hr). unfold fetch_settled, tryCatch.
  unfold bindM, lift, gets, modify, ret, isoNow, sendToContentScript, push, shiftIfOver, _log.
  rewrite Hm, Hu. cbv zeta.
  destruct (negb (ok r)); simpl; repeat split; try assumption; now apply length_shifted.
Qed.

Lemma handle_allWithin (ev : event) : trims ev = true -> preserves allWithin (handle H ev).
Proof.
  destruct ev; simpl; try discriminate; intros Hev.
  - unfold console_error, _log, _error, isoNow.
    through ltac:(idtac; match goal with
                | |- preserves _ (checkForErrorBasedCrash _ _) => apply checkForErrorBasedCrash_allWithin
                | _ => all_leaf
                end).
  - unfold console_warn, _warn, isoNow. through all_leaf.
  - unfold console_assert, _assert. rewrite Hev. simpl. through all_leaf.
  - unfold onError, _log, isoNow.
    through ltac:(idtac; match goal with
                | |- preserves _ (checkForErrorBasedCrash _ _) => apply checkForErrorBasedCrash_allWithin
                | _ => all_leaf
                end).
  - unfold onUnhandledRejection, _log, isoNow.
    through ltac:(idtac; match goal with
                | |- preserves _ (checkForErrorBasedCrash _ _) => apply checkForErrorBasedCrash_allWithin
                | _ => all_leaf
                end).
  - unfold onLoadend, _log, Date_now, isoNow. through all_leaf.
  - destruct r as [r | err]; [| discriminate].
    destruct (fMethod c) as [| | | | m |] eqn:Hm; try discriminate.
    destruct (fUrl c) as [| | | | u |] eqn:Hu; try discriminate.
    unfold discard. apply preserves_bind; [| intros ?; apply preserves_ret].
    now apply (fetch_resolved_allWithin c tResponse r m u).
  - unfold checkForDOMCrash, _log, Date_now, isoNow. through all_leaf.
  - apply checkForErrorBasedCrash_allWithin.
  - through all_leaf.
  - unfold runTimer, cooldownReset, Date_now. through all_leaf.
Qed.

End Capacity.

(** X12.  The page-error buffer never holds more than 50 entries and the
    request buffer never more than 200, whatever happens after injection:
    every path that appends to them drops the oldest entry when the
    capacity is exceeded. *)
Theorem page_and_request_buffers_capped (H : host) (t0 : Z) (trace : list event) :
  trimmedWithin (run H (initial t0) trace).
Proof.
  apply (run_preserves H trimmedWithin (handle_trimmed H)).
  split; simpl; lia.
Qed.

(** X13.  As long as no assertion fails, no XMLHttpRequest ends in an [error]
    or [timeout] event and no fetch ends in the wrapper's [catch] block, all
    four buffers stay within their capacities of 50, 100, 100 and 200
    entries. *)
Theorem trimming_paths_keep_capacity (H : host) (s : state) (trace : list event) :
  allWithin s -> forallb trims trace = true -> allWithin (run H s trace).
Proof.
  revert s. induction trace as [| ev trace IH]; intros s Hs Hall; [assumption |].
  simpl in Hall. apply andb_true_iff in Hall as [Hev Hall].
  simpl. apply IH; [| assumption]. now apply handle_allWithin.
Qed.

Lemma trimming_paths_keep_capacity_witness :
  allWithin (run (pageWith wrapperCycle) (initial 0)
               (hundredErrors ++ [ConsoleWarn [VStr "late"]; Loadend getOrders unavailable])).
Proof.
  apply (trimming_paths_keep_capacity (pageWith wrapperCycle) (initial 0)
           (hundredErrors ++ [ConsoleWarn [VStr "late"]; Loadend getOrders unavailable]));
    [repeat split; simpl; lia | reflexivity].
Defined.

Lemma sliceLast_app_sliceLast {A : Type} (n : nat) (l r : list A) :
  sliceLast n (sliceLast n l ++ r) = sliceLast n (l ++ r).
Proof.
  unfold sliceLast. rewrite !length_app, length_skipn.
  destruct (le_lt_dec (length l) n) as [Hle | Hgt].
  - replace (length l - n)%nat with 0%nat by lia. simpl.
    now replace (length l - 0 + length r - n)%nat with (length l + length r - n)%nat by lia.
  - replace (length l - (length l - n) + length r - n)%nat with (length r) by lia.
    replace (length l + length r - n)%nat with ((length l - n) + length r)%nat by lia.
    rewrite (Nat.add_comm (length l - n)), <- skipn_skipn.
    f_equal. rewrite skipn_app.
    replace (length l - n - length l)%nat with 0%nat by lia. reflexivity.
Qed.

Lemma sliceLast_all {A : Type} (n : nat) (l : list A) :
  (length l <= n)%nat -> sliceLast n l = l.
Proof. intros Hl. unfold sliceLast. now replace (length l - n)%nat with 0%nat by lia. Qed.

Lemma step_ConsoleWarn (H : host) (s : state) (a : list value) :
  (length (console (localErrors s)) <= 100)%nat ->
  let s' := step H s (ConsoleWarn a) in
  now s' = now s /\
  console (localErrors s') =
    sliceLast 100 (console (localErrors s) ++ option_list (warned H (now s) a)).
Proof.
  intros Hlen. cbv zeta. unfold step, handle, console_warn, warned.
  unfold bindM at 1, lift at 1.
  destruct (formatArgs H a) as [message |]; simpl;
    [| split; [reflexivity | now rewrite app_nil_r, sliceLast_all]].
  unfold bindM, isoNow, gets, modify, push, shiftIfOver, sendToContentScript, _warn. simpl.
  split; [reflexivity |].
  unfold sliceLast. rewrite length_app. simpl.
  case_bool_decide as Hover.
  - rewrite ?length_app in Hover. simpl in Hover.
    replace (length (console (localErrors s)) + 1 - 100)%nat with 1%nat by lia. reflexivity.
  - rewrite ?length_app in Hover. simpl in Hover.
    replace (length (console (localErrors s)) + 1 - 100)%nat with 0%nat by lia. reflexivity.
Qed.

(** X14.  The console buffer is first-in, first-out under [console.warn]:
    after any number of calls it holds the last hundred of the entries it held
    and those the calls recorded, in the order of arrival. *)
Theorem console_warn_keeps_last_hundred (H : host) (calls : list (list value)) (s : state) :
  (length (console (localErrors s)) <= 100)%nat ->
  console (localErrors (run H s (map ConsoleWarn calls))) =
  sliceLast 100 (console (localErrors s) ++ omap (warned H (now s)) calls).
Proof.
  revert s. induction calls as [| a calls IH]; intros s Hlen; simpl.
  - now rewrite app_nil_r, sliceLast_all.
  - destruct (step_ConsoleWarn H s a Hlen) as [Hnow Hbuf].
    rewrite IH, Hnow, Hbuf.
    + rewrite sliceLast_app_sliceLast, <- app_assoc.
      now destruct (warned H (now s) a).
    + rewrite Hbuf. unfold sliceLast. rewrite length_skipn. lia.
Qed.

Lemma console_warn_keeps_last_hundred_witness :
  console (localErrors (run (pageWith wrapperCycle) (initial 0) (map ConsoleWarn manyWarnings))) =
  sliceLast 100 (console (localErrors (initial 0)) ++
                 omap (warned (pageWith wrapperCycle) (now (initial 0))) manyWarnings).
Proof.
  apply (console_warn_keeps_last_hundred (pageWith wrapperCycle) manyWarnings (initial 0)).
  simpl. lia.
Defined.

Section Shapes.

Variable H : host.

Lemma errorsShaped_push_console (e : gmap string value) :
  recordedConsole e -> preserves errorsShaped (push Console e).
Proof.
  intros He. apply preserves_modify. intros s [Hc Hp]. split; [| exact Hp].
  simpl. now apply Forall_pushed.
Qed.

Lemma errorsShaped_push_page (e : gmap string value) :
  recordedPage e -> preserves errorsShaped (push Page e).
Proof.
  intros He. apply preserves_modify. intros s [Hc Hp]. split; [exact Hc |].
  simpl. now apply Forall_pushed.
Qed.

Lemma errorsShaped_shift (c : category) (cap : nat) :
  preserves errorsShaped (shiftIfOver c cap).
Proof.
  apply preserves_modify. intros s [Hc Hp].
  destruct c; split; simpl; try assumption; now apply Forall_shifted.
Qed.

Ltac truthy_default :=
  get_obj; first [reflexivity | apply truthy_or_r; reflexivity].

Ltac errors_leaf :=
  idtac;
  match goal with
  | |- preserves _ (push Console _) =>
      apply errorsShaped_push_console; split;
      [truthy_default | eexists; get_obj; reflexivity]
  | |- preserves _ (push Page _) =>
      apply errorsShaped_push_page; split; truthy_default
  | |- preserves _ (shiftIfOver _ _) => apply errorsShaped_shift
  | _ => frame_leaf
  end.

Lemma triggerCrashFromError_errors (entry : gmap string value) :
  preserves errorsShaped (triggerCrashFromError H entry).
Proof. unfold triggerCrashFromError, _log, Date_now, isoNow. through errors_leaf. Qed.

Lemma checkForErrorBasedCrash_errors (entry : gmap string value) :
  preserves errorsShaped (checkForErrorBasedCrash H entry).
Proof.
  unfold checkForErrorBasedCrash, Date_now.
  through ltac:(idtac; match goal with
                | |- preserves _ (triggerCrashFromError _ _) => apply triggerCrashFromError_errors
                | _ => errors_leaf
                end).
Qed.

Lemma checkForDOMCrash_errors (doc : document) :
  preserves errorsShaped (checkForDOMCrash H doc).
Proof. unfold checkForDOMCrash, _log, Date_now, isoNow. through errors_leaf. Qed.

Lemma runTimer_errors : preserves errorsShaped runTimer.
Proof. unfold runTimer, cooldownReset, Date_now. through errors_leaf. Qed.

Lemma fetch_failed_errors (c : fetchCall) (err : exn) :
  preserves errorsShaped (fetch_failed H c err).
Proof. unfold fetch_failed, _log, Date_now, isoNow. through errors_leaf. Qed.

Lemma handle_errors (ev : event) : preserves errorsShaped (handle H ev).
Proof.
  destruct ev; open_handler;
    through ltac:(idtac;
      match goal with
      | |- preserves _ (checkForErrorBasedCrash _ _) => apply checkForErrorBasedCrash_errors
      | |- preserves _ (checkForDOMCrash _ _) => apply checkForDOMCrash_errors
      | |- preserves _ runTimer => apply runTimer_errors
      | |- preserves _ (fetch_failed _ _ _) => apply fetch_failed_errors
      | _ => errors_leaf
      end).
Qed.

Lemma networkShaped_push_api (e : gmap string value) :
  recordedError e -> preserves networkShaped (push Api e).
Proof.
  intros He. apply preserves_modify. intros s [Ha Hr]. split; [| exact Hr].
  simpl. now apply Forall_pushed.
Qed.

Lemma networkShaped_push_request (e : gmap string value) :
  recordedRequest e -> preserves networkShaped (push ApiRequests e).
Proof.
  intros He. apply preserves_modify. intros s [Ha Hr]. split; [exact Ha |].
  simpl. now apply Forall_pushed.
Qed.

Lemma networkShaped_shift (c : category) (cap : nat) :
  preserves networkShaped (shiftIfOver c cap).
Proof.
  apply preserves_modify. intros s [Ha Hr].
  destruct c; split; simpl; try assumption; now apply Forall_shifted.
Qed.

Ltac network_leaf :=
  idtac;
  match goal with
  | |- preserves _ (push Api _) =>
      apply networkShaped_push_api; unfold recordedError; get_obj;
      first
        [ reflexivity
        | match goal with
          | Hc : truthy (get _ "isError") = true |- _ =>
              revert Hc; get_obj; simpl; intros ->; reflexivity
          | Hc : negb _ = true |- _ => rewrite Hc; reflexivity
          end ]
  | |- preserves _ (push ApiRequests _) =>
      apply networkShaped_push_request; unfold recordedRequest; get_obj;
      (split; [eexists; reflexivity |]); (split; [eexists; reflexivity |]);
      eexists; (split; [reflexivity |]);
      repeat match goal with
             | |- context [match ?o with Some _ => _ | None => _ end] => destruct o
             end;
      first [ rewrite slice0_length; change (N.to_nat 5000) with 5000%nat; lia
            | simpl; lia ]
  | |- preserves _ (shiftIfOver _ _) => apply networkShaped_shift
  | _ => frame_leaf
  end.

Lemma triggerCrashFromError_network (entry : gmap string value) :
  preserves networkShaped (triggerCrashFromError H entry).
Proof. unfold triggerCrashFromError, _log, Date_now, isoNow. through network_leaf. Qed.

Lemma checkForErrorBasedCrash_network (entry : gmap string value) :
  preserves networkShaped (checkForErrorBasedCrash H entry).
Proof.
  unfold checkForErrorBasedCrash, Date_now.
  through ltac:(idtac; match goal with
                | |- preserves _ (triggerCrashFromError _ _) => apply triggerCrashFromError_network
                | _ => network_leaf
                end).
Qed.

Lemma checkForDOMCrash_network (doc : document) :
  preserves networkShaped (checkForDOMCrash H doc).
Proof. unfold checkForDOMCrash, _log, Date_now, isoNow. through network_leaf. Qed.

Lemma runTimer_network : preserves networkShaped runTimer.
Proof. unfold runTimer, cooldownReset, Date_now. through network_leaf. Qed.

Lemma fetch_failed_network (c : fetchCall) (err : exn) :
  preserves networkShaped (fetch_failed H c err).
Proof. unfold fetch_failed, _log, Date_now, isoNow. through network_leaf. Qed.

Lemma handle_network (ev : event) : preserves networkShaped (handle H ev).
Proof.
  destruct ev; open_handler;
    through ltac:(idtac;
      match goal with
      | |- preserves _ (checkForErrorBasedCrash _ _) => apply checkForErrorBasedCrash_network
      | |- preserves _ (checkForDOMCrash _ _) => apply checkForDOMCrash_network
      | |- preserves _ runTimer => apply runTimer_network
      | |- preserves _ (fetch_failed _ _ _) => apply fetch_failed_network
      | _ => network_leaf
      end).
Qed.

End Shapes.

(** X15.  The recorders substitute their defaults: whatever the page logs,
    throws or rejects with, every entry of the console buffer has a truthy
    [errorType] and a string as [message], and every entry of the page-error
    buffer has a truthy [errorType] and a truthy [message]. *)
Theorem error_entries_shaped (H : host) (t0 : Z) (trace : list event) :
  errorsShaped (run H (initial t0) trace).
Proof.
  apply (run_preserves H errorsShaped (handle_errors H)).
  split; constructor.
Qed.

(** X16.  Whatever happens after injection, every entry of the API error
    buffer has [isError] true, and every entry of the request buffer has a
    numeric [status], a boolean [isError] and a [responseBody] of at most 5000
    characters. *)
Theorem network_entries_shaped (H : host) (t0 : Z) (trace : list event) :
  networkShaped (run H (initial t0) trace).
Proof.
  apply (run_preserves H networkShaped (handle_network H)).
  split; constructor.
Qed.

(** ** The popup *)

Lemma length_append (a b : string) :
  String.length (a +:+ b) = (String.length a + String.length b)%nat.
Proof. induction a as [| c a IH]; simpl; [reflexivity | now rewrite IH]. Qed.

Lemma append_cons (x : ascii) (a b : string) : String x a +:+ b = String x (a +:+ b).
Proof. reflexivity. Qed.

Lemma append_assoc (a b c : string) : (a +:+ b) +:+ c = a +:+ (b +:+ c).
Proof.
  induction a as [| x a IH]; [reflexivity |]. now rewrite !append_cons, IH.
Qed.

Lemma replaceAll_app (c : ascii) (sub a b : string) :
  Dashboard.replaceAll c sub (a +:+ b) =
  Dashboard.replaceAll c sub a +:+ Dashboard.replaceAll c sub b.
Proof.
  induction a as [| x a IH]; [reflexivity |].
  rewrite append_cons. cbn [Dashboard.replaceAll]. now rewrite IH, append_assoc.
Qed.

Lemma occurs_cons (c x : ascii) (s : string) :
  occurs c (String x s) = Ascii.eqb c x || occurs c s.
Proof.
  unfold occurs. cbn [Str.includes String.prefix].
  destruct (Ascii.ascii_dec c x) as [Heq | Hne], (Ascii.eqb_spec c x) as [Heq' | Hne'];
    try contradiction; [now destruct s | reflexivity].
Qed.

Lemma occurs_app (c : ascii) (a b : string) :
  occurs c (a +:+ b) = occurs c a || occurs c b.
Proof.
  induction a as [| x a IH]; [reflexivity |].
  rewrite append_cons, !occurs_cons, IH. now rewrite orb_assoc.
Qed.

Lemma escaped_cons (x : ascii) (s : string) :
  escaped (String x s) = escaped (String x EmptyString) +:+ escaped s.
Proof.
  unfold escaped.
  change (String x s) with (String x EmptyString +:+ s).
  now rewrite !replaceAll_app.
Qed.

Lemma escaped_char_safe (x : ascii) :
  occurs "<" (escaped (String x EmptyString)) = false /\
  occurs ">" (escaped (String x EmptyString)) = false /\
  occurs Dashboard.doubleQuote (escaped (String x EmptyString)) = false.
Proof. destruct x as [[] [] [] [] [] [] [] []]; vm_compute; repeat split. Qed.

Lemma escaped_char_plain (x : ascii) :
  Ascii.eqb "&" x || Ascii.eqb "<" x || Ascii.eqb ">" x || Ascii.eqb Dashboard.doubleQuote x = false ->
  escaped (String x EmptyString) = String x EmptyString.
Proof. destruct x as [[] [] [] [] [] [] [] []]; vm_compute; intros; congruence. Qed.

Lemma escaped_safe (s : string) :
  occurs "<" (escaped s) = false /\ occurs ">" (escaped s) = false /\
  occurs Dashboard.doubleQuote (escaped s) = false.
Proof.
  induction s as [| x s (IH1 & IH2 & IH3)]; [repeat split |].
  rewrite escaped_cons, !occurs_app, IH1, IH2, IH3.
  destruct (escaped_char_safe x) as (-> & -> & ->). repeat split.
Qed.

Lemma escaped_plain (s : string) :
  occurs "&" s || occurs "<" s || occurs ">" s || occurs Dashboard.doubleQuote s = false ->
  escaped s = s.
Proof.
  induction s as [| x s IH]; [reflexivity |].
  rewrite !occurs_cons. intros Hs.
  repeat (apply orb_false_iff in Hs as [Hs ?]).
  repeat match goal with Hx : _ || _ = false |- _ => apply orb_false_iff in Hx as [? ?] end.
  rewrite escaped_cons, IH, escaped_char_plain.
  - reflexivity.
  - repeat (apply orb_false_iff; split); assumption.
  - repeat (apply orb_false_iff; split); assumption.
Qed.

(** X17.  Whatever text an entry carries, what [escapeHtml] returns for it
    contains no [<], no [>] and no double quote, so it cannot close the
    [title] attribute or open an element of the list; a text without [&],
    [<], [>] and double quotes is returned as it is (the apostrophe
    included), and a falsy value gives the empty string. *)
Theorem escapeHtml_output_is_inert (h : heap) (str : value) (out : string) :
  Dashboard.escapeHtml h str = Ok out ->
  (occurs "<" out = false /\ occurs ">" out = false /\
   occurs Dashboard.doubleQuote out = false) /\
  (truthy str = false -> out = "") /\
  (forall s, str = VStr s ->
     occurs "&" s || occurs "<" s || occurs ">" s || occurs Dashboard.doubleQuote s = false ->
     out = s).
Proof.
  unfold Dashboard.escapeHtml. intros Hout.
  destruct (truthy str) eqn:Ht; simpl in Hout.
  - destruct (String_ h str) as [s |] eqn:Hs; [| discriminate]. simpl in Hout.
    injection Hout as <-. fold (escaped s).
    split; [apply escaped_safe |]. split; [discriminate |].
    intros s' -> Hplain. simpl in Hs. injection Hs as <-. now apply escaped_plain.
  - injection Hout as <-. split; [repeat split |]. split; [reflexivity |].
    intros s' -> _. simpl in Ht. apply negb_false_iff, String.eqb_eq in Ht. now subst.
Qed.

Lemma escapeHtml_output_is_inert_witness :
  (occurs "<" "&lt;b&gt;Tom &amp; Jerry&lt;/b&gt;" = false /\
   occurs ">" "&lt;b&gt;Tom &amp; Jerry&lt;/b&gt;" = false /\
   occurs Dashboard.doubleQuote "&lt;b&gt;Tom &amp; Jerry&lt;/b&gt;" = false) /\
  (truthy (VStr "<b>Tom & Jerry</b>") = false -> "&lt;b&gt;Tom &amp; Jerry&lt;/b&gt;" = "") /\
  (forall s, VStr "<b>Tom & Jerry</b>" = VStr s ->
     occurs "&" s || occurs "<" s || occurs ">" s || occurs Dashboard.doubleQuote s = false ->
     "&lt;b&gt;Tom &amp; Jerry&lt;/b&gt;" = s).
Proof.
  apply (escapeHtml_output_is_inert wrapperCycle (VStr "<b>Tom & Jerry</b>")
           "&lt;b&gt;Tom &amp; Jerry&lt;/b&gt;").
  vm_compute. reflexivity.
Defined.

(** X18.  [truncate] never returns more than [len] + 3 characters of a text:
    a text that fits is returned whole, a longer one is cut to its first
    [len] characters followed by three dots. *)
Theorem truncate_bounds_text (s : string) (len : N) :
  exists r, Dashboard.truncate (VStr s) len = VStr r /\
            (String.length r <= N.to_nat len + 3)%nat /\
            (if (len <? N.of_nat (String.length s))%N
             then r = Str.slice0 len s +:+ "..." /\ String.length r = (N.to_nat len + 3)%nat
             else r = s).
Proof.
  destruct s as [| c s].
  - exists "". split; [reflexivity |]. split; [simpl; lia |].
    assert ((len <? N.of_nat (String.length ""))%N = false) as ->
      by (apply N.ltb_ge; simpl; lia).
    reflexivity.
  - unfold Dashboard.truncate. cbn [truthy negb String.eqb].
    destruct (len <? N.of_nat (String.length (String c s)))%N eqn:Hl.
    + apply N.ltb_lt in Hl. eexists. split; [reflexivity |].
      rewrite length_append, slice0_length.
      change (String.length "...") with 3%nat. split; [lia |]. split; [reflexivity | lia].
    + apply N.ltb_ge in Hl. eexists. split; [reflexivity |]. split; [lia | reflexivity].
Qed.

Section Sorting.

Variable getTime : value -> option Z.

Lemma insert_Permutation (x : gmap string value) (l : list (gmap string value)) :
  Dashboard.insert getTime x l ≡ₚ x :: l.
Proof.
  induction l as [| y l IH]; simpl; [reflexivity |].
  destruct (_ <=? 0)%Z; [reflexivity |].
  rewrite IH. apply Permutation_swap.
Qed.

Lemma sort_Permutation (l : list (gmap string value)) : Dashboard.sort getTime l ≡ₚ l.
Proof.
  induction l as [| x l IH]; simpl; [reflexivity |].
  now rewrite insert_Permutation, IH.
Qed.





End Sorting.



(** X20.  Rendering loses nothing: the sort of [renderList] works on the
    stored array itself, so afterwards the list of the current tab is
    reordered, but every list of [data] still holds exactly the items it
    held. *)
Theorem renderList_keeps_data (getTime : value -> option Z) (currentTab : string)
    (d : Dashboard.data) :
  exists d', snd (Dashboard.renderList getTime currentTab (Some d)) = Some d' /\
    Popup.crashes (Dashboard.stored d') ≡ₚ Popup.crashes (Dashboard.stored d) /\
    Popup.apiErrors (Dashboard.stored d') ≡ₚ Popup.apiErrors (Dashboard.stored d) /\
    Popup.consoleErrors (Dashboard.stored d') = Popup.consoleErrors (Dashboard.stored d) /\
    Popup.pageErrors (Dashboard.stored d') = Popup.pageErrors (Dashboard.stored d) /\
    default [] (Dashboard.apiRequests d') ≡ₚ default [] (Dashboard.apiRequests d) /\
    Dashboard.screenshots d' = Dashboard.screenshots d.
Proof.
  unfold Dashboard.renderList.
  destruct (Dashboard.itemsOf currentTab d) as [| x items] eqn:Hitems.
  { exists d. now repeat split. }
  eexists. split; [reflexivity |].
  unfold Dashboard.withItems, Dashboard.itemsOf in *.
  destruct (String.eqb currentTab "crashes");
    [repeat split; try reflexivity; rewrite Hitems;
     apply (sort_Permutation getTime (x :: items)) |].
  destruct (String.eqb currentTab "api");
    [repeat split; try reflexivity; rewrite Hitems;
     apply (sort_Permutation getTime (x :: items)) |].
  destruct (String.eqb currentTab "console"); [repeat split; reflexivity |].
  destruct (String.eqb currentTab "requests");
    repeat split; try reflexivity; rewrite Hitems;
    apply (sort_Permutation getTime (x :: items)).
Qed.

Lemma appendNew_length (same : gmap string value -> gmap string value -> bool)
    (incoming stored : list (gmap string value)) :
  (length stored <= length (Popup.appendNew same stored incoming) <=
   length stored + length incoming)%nat.
Proof.
  unfold Popup.appendNew. revert stored.
  induction incoming as [| err incoming IH]; intros stored; simpl; [lia |].
  destruct (existsb _ stored).
  - specialize (IH stored). lia.
  - specialize (IH (stored ++ [err])). rewrite length_app in IH. simpl in IH. lia.
Qed.

(** X21.  Merging the page's data never lowers a counter of the dashboard: each
    of the crash, API and console counters afterwards is at least what it was
    and exceeds it by no more than the number of entries the page sent; the
    screenshot counter is unchanged. *)
Theorem merge_never_lowers_counters (d : Dashboard.data) (pageData : Popup.snapshot)
    (shown : Dashboard.stats) :
  let before := Dashboard.updateStats (Some d) shown in
  let after := Dashboard.updateStats (Some (Dashboard.merged d pageData)) shown in
  (Dashboard.crashCount before <= Dashboard.crashCount after <=
   Dashboard.crashCount before + length (default [] (Popup.snapCrashes pageData)))%nat /\
  (Dashboard.apiCount before <= Dashboard.apiCount after <=
   Dashboard.apiCount before + length (default [] (Popup.snapApiErrors pageData)))%nat /\
  (Dashboard.consoleCount before <= Dashboard.consoleCount after <=
   Dashboard.consoleCount before + length (default [] (Popup.snapConsoleErrors pageData))
   + length (default [] (Popup.snapPageErrors pageData)))%nat /\
  Dashboard.screenshotCount after = Dashboard.screenshotCount before.
Proof.
  cbv zeta. destruct d as [[cr ap co pg] shots reqs], pageData as [icr iap ico ipg].
  unfold Dashboard.updateStats, Dashboard.merged, Popup.mergePageData. simpl.
  assert (forall incoming,
            length (default [] pg) <=
            length (default [] (Popup.appendNewPage pg incoming)) <=
            length (default [] pg) + length incoming)%nat as Hpage.
  { intros incoming. rewrite appendNewPage_spec.
    apply (appendNew_length Popup.samePage). }
  repeat split;
    repeat match goal with
           | |- context [match ?o with Some _ => _ | None => _ end] => destruct o
           end; simpl;
    repeat match goal with
           | |- context [Popup.appendNew ?f ?l ?i] =>
               pose proof (appendNew_length f i l); generalize dependent (Popup.appendNew f l i);
               intros
           | |- context [Popup.appendNewPage ?l ?i] =>
               pose proof (Hpage i); generalize dependent (Popup.appendNewPage l i); intros
           end; simpl in *; lia.
Qed.

(** ** The request wrappers *)

(** What the [loadend] listener appends to the request buffer. *)
Lemma onLoadend_entry (H : host) (s : state) (req : request) (x : xhr) :
  last (apiRequests (localErrors (step H s (Loadend req x)))) =
  Some (obj [("type", VStr "xhr");
             ("method", reqMethod req);
             ("url", VStr (reqUrl req));
             ("status", VNum (status x));
             ("statusText", VStr (statusText x));
             ("duration", VNum (now s - start req));
             ("requestBody", reqBody req);
             ("responseBody", VStr (match responseText x with
                                    | Some t => Str.slice0 5000%N t
                                    | None => ""
                                    end));
             ("isError", VBool (bool_decide (status x = 0) || bool_decide (400 <= status x)));
             ("timestamp", VStr (toISOString H (now s)))]).
Proof.
  unfold step, handle, onLoadend.
  cbv beta iota zeta delta [bindM lift gets modify ret Date_now isoNow sendToContentScript
    push shiftIfOver _log].
  get_obj. simpl truthy.
  destruct (bool_decide (status x = 0) || bool_decide (400 <= status x));
    destruct (String_ (objects H) (reqMethod req)); simpl; apply last_shifted; lia.
Qed.

(** X22.  What an XMLHttpRequest was opened and sent with is what its entry
    says: after [open(method, url)] and [send(body)] with a string URL and a
    string body, the entry the [loadend] listener appends to the request
    buffer carries that method and URL, the first 2000 characters of the body
    (null for an empty body) and, as duration, the time that passed between
    [send] and [loadend]. *)
Theorem xhr_entry_reflects_request (H : host) (s : state) (method : value) (url body : string)
    (pause : N) (x : xhr) :
  exists opened sent entry,
    xhr_open H newRequest method (VStr url) = Ok opened /\
    xhr_send H opened (VStr body) s = (Ok sent, s) /\
    last (apiRequests (localErrors (run H s [Elapse pause; Loadend sent x]))) = Some entry /\
    get entry "method" = method /\
    get entry "url" = VStr url /\
    get entry "requestBody" =
      (if String.eqb body "" then VNull else VStr (Str.slice0 2000%N body)) /\
    get entry "duration" = VNum (Z.of_N pause) /\
    get entry "status" = VNum (status x).
Proof.
  exists {| reqMethod := method; reqUrl := url; start := 0; reqBody := VUndefined |}.
  exists {| reqMethod := method; reqUrl := url; start := now s;
            reqBody := if String.eqb body "" then VNull else VStr (Str.slice0 2000%N body) |}.
  eexists.
  split; [reflexivity |].
  split.
  { unfold xhr_send, bindM, Date_now, gets, lift, ret. simpl.
    now destruct (String.eqb body ""). }
  split; [simpl run; apply onLoadend_entry |].
  get_obj. simpl. repeat split. f_equal. lia.
Qed.

